(** * EcoWatt cloud endpoint ([cpp-esp/app.py]): secure sessions,
  debounced telemetry aggregation and firmware distribution.

  A shallow embedding of the request handlers and of the flusher of
  [app.py].  Module-level dictionaries become [gmap]s that are threaded
  through the handlers, clock readings become explicit arguments, and a
  Python exception that escapes a function becomes the [Raise] outcome.

  Conventions used throughout:
  - a Python [int] is a [Z]; the conversions between [int] and [str] are
    those of the language (the configurable limit on their length, 4300
    digits by default in recent CPython releases, is not modelled);
  - a clock reading ([time.time()]) is a rational number of seconds;
  - a Python [float] is a [pyfloat]: an IEEE 754 binary64 value, with
    the operations of the standard library's [SpecFloat], which round to
    nearest, ties to even;
  - a [str] is a [string] of code points below 256, [bytes] is a
    [list byte];
  - request fields are read at their wire types (a nonce is an integer, a
    MAC a string, and so on);
  - within one handler, and within one pass of the flusher, every clock
    reading returns the same value, and a time stamp rendered with
    [isoformat()] is kept as the clock reading it renders;
  - SHA-256, HMAC-SHA256 and [json.dumps] are library functions and
    enter as section variables.

  Two client-side scripts are embedded with it: the signing functions of
  the demonstration client ([security_demo.py]) and the nonce recovery of
  the device as [test_recovery_nonce.py] simulates it.

  The first part holds the embedding, the second part the properties. *)

From Stdlib Require Import ZArith NArith QArith Qround Qpower Lqa String Ascii List Lia Bool.
From Stdlib Require Import SpecFloat.
From Stdlib.Strings Require Import Byte.
From stdpp Require Import gmap strings list fin_maps sorting pretty.

Set Default Proof Using "Type".

Open Scope string_scope.
Open Scope Z_scope.

(** ** Python built-ins *)

Module Py.

(** The exceptions the handlers can meet. *)
Inductive exn : Type :=
| TypeError
| ZeroDivisionError
| OverflowError.

(** Outcome of a call: a returned value or an escaping exception. *)
Inductive outcome (A : Type) : Type :=
| Ret (a : A)
| Raise (e : exn).
Arguments Ret {A} a.
Arguments Raise {A} e.

(** [str.encode()]: UTF-8.  The characters of a [string] are the code
    points below 256 (header values reach the handlers decoded as
    Latin-1): one byte below 128, two bytes from there on. *)
Definition encode_char (c : ascii) : list byte :=
  let n := N_of_ascii c in
  if (n <? 128)%N then [byte_of_ascii c]
  else [byte_of_ascii (ascii_of_N (192 + n / 64));
        byte_of_ascii (ascii_of_N (128 + n mod 64))].

Definition encode (s : string) : list byte :=
  flat_map encode_char (list_ascii_of_string s).

(** [bytes.decode()] on ASCII bytes, which is where the handlers call it:
    on the output of [b64encode]. *)
Definition decode (bs : list byte) : string := string_of_list_byte bs.

(** [bytes.decode()] on UTF-8 that encodes code points below 256; a byte
    that does not start such a sequence is kept as it is (on other input
    [bytes.decode()] raises, which is outside the model). *)
Fixpoint decode_utf8 (bs : list byte) : string :=
  match bs with
  | [] => EmptyString
  | b :: rest =>
      let x := Byte.to_N b in
      match rest with
      | c :: rest' =>
          let y := Byte.to_N c in
          if (((x =? 194) || (x =? 195)) && (128 <=? y) && (y <? 192))%N
          then String (ascii_of_N ((x - 192) * 64 + (y - 128))) (decode_utf8 rest')
          else String (ascii_of_byte b) (decode_utf8 rest)
      | [] => String (ascii_of_byte b) EmptyString
      end
  end.

(** [str(n)] for an [int]. *)
Definition str (n : Z) : string := pretty n.

(** [str(x)] for an optional string ([None] prints as its name). *)
Definition str_opt (o : option string) : string :=
  match o with
  | Some s => s
  | None => "None"
  end.

(** Truthiness of an optional string: [None] and [''] are falsy. *)
Definition truthy_str (o : option string) : bool :=
  match o with
  | Some (String _ _) => true
  | _ => false
  end.

(** [a or b or ... or fallback] on optional strings. *)
Fixpoint first_truthy (candidates : list (option string)) (fallback : string)
    : string :=
  match candidates with
  | [] => fallback
  | Some (String c s) :: _ => String c s
  | _ :: rest => first_truthy rest fallback
  end.

(** [int(x)] for a float: truncation towards zero. *)
Definition int_of_float (x : Q) : Z := Z.quot (Qnum x) (Zpos (Qden x)).

(** Nearest integer, ties to the even one. *)
Definition round_half_even (x : Q) : Z :=
  let f := Qfloor x in
  let r := (x - inject_Z f)%Q in
  match (r ?= 1 # 2)%Q with
  | Lt => f
  | Gt => f + 1
  | Eq => if Z.even f then f else f + 1
  end.

(** Decimal digits of a string, most significant first. *)
Definition digit_of (c : ascii) : option Z :=
  let n := Z.of_N (N_of_ascii c) in
  if (48 <=? n) && (n <=? 57) then Some (n - 48) else None.

(** The characters [int] strips from both ends of its argument, among the
    code points below 256: tab to carriage return, space, NEL and
    no-break space. *)
Definition is_int_space (c : ascii) : bool :=
  let n := N_of_ascii c in
  (((9 <=? n) && (n <=? 13)) || (n =? 32) || (n =? 133) || (n =? 160))%N.

Fixpoint lstrip (s : string) : string :=
  match s with
  | EmptyString => EmptyString
  | String c rest => if is_int_space c then lstrip rest else s
  end.

Fixpoint rstrip (s : string) : string :=
  match s with
  | EmptyString => EmptyString
  | String c rest =>
      match rstrip rest with
      | EmptyString => if is_int_space c then EmptyString else String c EmptyString
      | kept => String c kept
      end
  end.

(** Decimal digits in groups: one underscore may stand between two
    digits.  [after_digit] tells whether the previous character was a
    digit. *)
Fixpoint grouped_value (s : string) (acc : Z) (after_digit : bool) : option Z :=
  match s with
  | EmptyString => if after_digit then Some acc else None
  | String c rest =>
      match digit_of c with
      | Some d => grouped_value rest (10 * acc + d) true
      | None =>
          if Ascii.eqb c "_" && after_digit then grouped_value rest acc false
          else None
      end
  end.

(** [int(s)] for a string: surrounding white space is stripped, then an
    optional sign is followed by decimal digits in groups; [None] stands
    for [ValueError]. *)
Definition int_of_str (s : string) : option Z :=
  match rstrip (lstrip s) with
  | String "-"%char rest => Z.opp <$> grouped_value rest 0 false
  | String "+"%char rest => grouped_value rest 0 false
  | stripped => grouped_value stripped 0 false
  end.

(** [needle in hay] for strings: substring test. *)
Fixpoint contains (needle hay : string) : bool :=
  String.prefix needle hay ||
  match hay with
  | EmptyString => false
  | String _ rest => contains needle rest
  end.

(** Python slicing [l[start:end]] on a list, with negative indices
    counted from the end and both bounds clamped. *)
Definition clamp_index (len i : Z) : Z :=
  if i <? 0 then Z.max 0 (len + i) else Z.min i len.

Definition slice {A} (l : list A) (start stop : Z) : list A :=
  let len := Z.of_nat (length l) in
  let a := clamp_index len start in
  let b := clamp_index len stop in
  take (Z.to_nat (b - a)) (drop (Z.to_nat a) l).

End Py.

Import Py.

(** ** Floats *)

Module PyFloat.

(** A Python [float] is an IEEE 754 binary64 value.  [spec_float] gives
    the values (signed zeros, finite values [m * 2^e] with a canonical
    mantissa, infinities and one NaN) and the correctly rounded
    operations. *)
Definition pyfloat : Type := spec_float.

Definition prec : Z := 53.
Definition emax : Z := 1024.

Definition NaN : pyfloat := S754_nan.
Definition Inf (negative : bool) : pyfloat := S754_infinity negative.

(** [float(n)]: the double nearest to the integer [n].  (It is used on
    list lengths and small constants; from 2^1024 on, where [float]
    raises [OverflowError], it gives an infinity.) *)
Definition of_int (n : Z) : pyfloat := binary_normalize prec emax n 0 false.

(** The double nearest to the quotient [n / d] of two integers, [d]
    non-zero; a quotient beyond the largest double gives an infinity. *)
Definition ratio (n d : Z) : pyfloat :=
  match n, d with
  | _, Z0 => NaN
  | Z0, _ => S754_zero (d <? 0)
  | _, _ =>
      SFdiv prec emax (S754_finite (n <? 0) (Z.to_pos (Z.abs n)) 0)
                      (S754_finite (d <? 0) (Z.to_pos (Z.abs d)) 0)
  end.

(** [n / d] on integers, which is correctly rounded whatever their
    size. *)
Definition truediv (n d : Z) : outcome pyfloat :=
  if d =? 0 then Raise ZeroDivisionError
  else
    match ratio n d with
    | S754_infinity _ => Raise OverflowError
    | q => Ret q
    end.

Definition add (x y : pyfloat) : pyfloat := SFadd prec emax x y.

Definition mul (x y : pyfloat) : pyfloat := SFmul prec emax x y.

(** [x / n] for a positive integer [n] (a list length). *)
Definition div_len (x : pyfloat) (n : nat) : pyfloat :=
  SFdiv prec emax x (of_int (Z.of_nat n)).

(** [x < y]; every comparison with NaN is false. *)
Definition ltb (x y : pyfloat) : bool := SFltb x y.

(** The magnitude of a finite value as an exact rational. *)
Definition magnitude (m : positive) (e : Z) : Q :=
  (inject_Z (Z.pos m) * Qpower 2 e)%Q.

(** The exact value of a float; 0 for an infinity and for NaN. *)
Definition to_Q (x : pyfloat) : Q :=
  match x with
  | S754_finite s m e => if s then Qopp (magnitude m e) else magnitude m e
  | _ => 0%Q
  end.

(** [round(x, ndigits)] with [scale = 10 ^ ndigits]: the exact value of
    [x] is rounded to the nearest multiple of [1 / scale], a tie going to
    the even multiple, and the result is the double nearest to that
    decimal; a result of zero keeps the sign of [x].  Zeros, infinities
    and NaN are returned as they are. *)
Definition round_scaled (scale : positive) (x : pyfloat) : pyfloat :=
  match x with
  | S754_finite s m e =>
      match round_half_even (magnitude m e * inject_Z (Z.pos scale)) with
      | Z.pos k => SFdiv prec emax (S754_finite s k 0) (S754_finite false scale 0)
      | _ => S754_zero s
      end
  | other => other
  end.

Definition round3 (x : pyfloat) : pyfloat := round_scaled 1000 x.

Definition round2 (x : pyfloat) : pyfloat := round_scaled 100 x.

(** [format(x, '.1f')]: the decimal with one digit behind the point that
    is nearest to the exact value of [x], a tie going to the even digit,
    under the sign of [x]. *)
Definition format_1f (x : pyfloat) : string :=
  match x with
  | S754_nan => "nan"
  | S754_infinity s => if s then "-inf" else "inf"
  | S754_zero s => if s then "-0.0" else "0.0"
  | S754_finite s m e =>
      let tenths := round_half_even (magnitude m e * 10) in
      (if s then "-" else "") ++ str (tenths / 10) ++ "." ++ str (tenths mod 10)
  end.

(** [sum(vals)]: the values are added from left to right, each addition
    rounded, starting from the integer [0] (CPython up to 3.11; later
    versions compensate the rounding errors of the partial sums). *)
Definition sum (vals : list pyfloat) : pyfloat :=
  fold_left add vals (of_int 0).

(** [min(vals)] and [max(vals)]: keep the first element unless a later
    one compares strictly smaller (resp. larger). *)
Definition min_list (vals : list pyfloat) : option pyfloat :=
  match vals with
  | [] => None
  | v :: rest => Some (fold_left (fun cur x => if ltb x cur then x else cur) rest v)
  end.

Definition max_list (vals : list pyfloat) : option pyfloat :=
  match vals with
  | [] => None
  | v :: rest => Some (fold_left (fun cur x => if ltb cur x then x else cur) rest v)
  end.

(** The arithmetic mean as the flusher computes it,
    [sum(vals) / len(vals)]. *)
Definition mean (vals : list pyfloat) : pyfloat :=
  div_len (sum vals) (length vals).

End PyFloat.

Import PyFloat.

(** ** Base64 ([base64.b64encode] / [base64.b64decode]) *)

Module Base64.

Local Open Scope N_scope.

(** A byte from a number, as a store into an [unsigned char]. *)
Definition byte_of (n : N) : byte :=
  match Byte.of_N (n mod 256) with
  | Some b => b
  | None => x00
  end.

(** Sextet to alphabet character (the standard alphabet). *)
Definition b2a (s : N) : ascii :=
  ascii_of_N (if s <? 26 then s + 65
              else if s <? 52 then s + 71
              else if s <? 62 then s - 4
              else if s =? 62 then 43 else 47).

(** Alphabet character to sextet; [None] for any other character. *)
Definition a2b (c : ascii) : option N :=
  let n := N_of_ascii c in
  if (65 <=? n) && (n <=? 90) then Some (n - 65)
  else if (97 <=? n) && (n <=? 122) then Some (n - 71)
  else if (48 <=? n) && (n <=? 57) then Some (n + 4)
  else if n =? 43 then Some 62
  else if n =? 47 then Some 63
  else None.

Definition pad : ascii := "="%char.

(** The four sextets of a full three-byte group, and the shorter tails. *)
Definition sextet0 (x : N) : N := N.shiftr x 2.
Definition sextet1 (x y : N) : N := N.lor (N.shiftl (N.land x 3) 4) (N.shiftr y 4).
Definition sextet2 (y z : N) : N := N.lor (N.shiftl (N.land y 15) 2) (N.shiftr z 6).
Definition sextet3 (z : N) : N := N.land z 63.

(** [b64encode]: three bytes become four characters; a tail of one or
    two bytes is padded with [=]. *)
Fixpoint b64encode_chars (bs : list byte) : list ascii :=
  match bs with
  | [] => []
  | [a] =>
      let x := Byte.to_N a in
      [b2a (sextet0 x); b2a (sextet1 x 0); pad; pad]
  | [a; b] =>
      let x := Byte.to_N a in
      let y := Byte.to_N b in
      [b2a (sextet0 x); b2a (sextet1 x y); b2a (sextet2 y 0); pad]
  | a :: b :: c :: rest =>
      let x := Byte.to_N a in
      let y := Byte.to_N b in
      let z := Byte.to_N c in
      b2a (sextet0 x) :: b2a (sextet1 x y) :: b2a (sextet2 y z)
        :: b2a (sextet3 z) :: b64encode_chars rest
  end.

Definition b64encode (bs : list byte) : list byte :=
  map byte_of_ascii (b64encode_chars bs).

(** [b64decode] in its default, non-validating mode: the scanner of
    [binascii.a2b_base64].  Characters outside the alphabet are skipped,
    a pad sequence that completes a quad ends the scan, and input that
    stops inside a quad is an error ([None]).  [acc] holds the decoded
    bytes in reverse. *)
Fixpoint a2b_scan (cs : list ascii) (quad_pos leftchar pads : N)
    (acc : list byte) : option (list byte) :=
  match cs with
  | [] => if quad_pos =? 0 then Some (rev acc) else None
  | ch :: rest =>
      if Ascii.eqb ch pad then
        if (2 <=? quad_pos) && (4 <=? quad_pos + (pads + 1)) then Some (rev acc)
        else a2b_scan rest quad_pos leftchar
               (if 2 <=? quad_pos then pads + 1 else pads) acc
      else
        match a2b ch with
        | None => a2b_scan rest quad_pos leftchar pads acc
        | Some this_ch =>
            match quad_pos with
            | 0 => a2b_scan rest 1 this_ch 0 acc
            | 1 => a2b_scan rest 2 (N.land this_ch 15) 0
                     (byte_of (N.lor (N.shiftl leftchar 2) (N.shiftr this_ch 4)) :: acc)
            | 2 => a2b_scan rest 3 (N.land this_ch 3) 0
                     (byte_of (N.lor (N.shiftl leftchar 4) (N.shiftr this_ch 2)) :: acc)
            | _ => a2b_scan rest 0 0 0
                     (byte_of (N.lor (N.shiftl leftchar 6) this_ch) :: acc)
            end
        end
  end.

(** A [str] argument must be pure ASCII ([ValueError] otherwise). *)
Definition is_ascii (c : ascii) : bool := N_of_ascii c <? 128.

Definition b64decode (s : string) : option (list byte) :=
  let cs := list_ascii_of_string s in
  if forallb is_ascii cs then a2b_scan cs 0 0 0 [] else None.

(** The numbers below [n], for exhaustive checks by computation. *)
Definition below (n : nat) : list N := map N.of_nat (seq 0 n).

End Base64.

(** ** Wire formats and shared state *)

(** The secured envelope the server issues (field names as on the wire). *)
Record envelope : Type := Envelope {
nonce : Z;
timestamp : Z;
encrypted : bool;
payload : string;
mac : string
}.

(** A JSON object received as a request body, read at the wire types of the
  envelope; a key that is absent is [None]. *)
Record envelope_json : Type := EnvelopeJson {
j_nonce : option Z;
j_timestamp : option Z;
j_encrypted : option bool;
j_payload : option string;
j_mac : option string
}.

(** What a handler reads from a request. *)
Record request : Type := Request {
req_path : string;
req_device_id : option string;       (* the Device-ID header *)
req_arg_device_id : option string;   (* the device_id query argument *)
req_nonce : option string;           (* X-Nonce *)
req_timestamp : option string;       (* X-Timestamp *)
req_mac : option string;             (* X-MAC *)
req_content_type : option string;    (* Content-Type *)
req_json : option envelope_json;     (* get_json(force=True); None when it raises *)
req_data : list byte                 (* request.data *)
}.

(** An entry of [NONCE_STORE].  [verify_request_security] stores the
  dictionary [{'nonce': n, 'timestamp': t}]; [upload] and [check_nonce]
  store the bare nonce. *)
Inductive nonce_entry : Type :=
| NInt (n : Z)
| NDict (last_nonce : Z) (last_seen : Q).

(** [if nonce_data:] on a stored entry. *)
Definition entry_truthy (e : nonce_entry) : bool :=
match e with
| NInt n => negb (n =? 0)
| NDict _ _ => true
end.

Record sec_event : Type := SecEvent {
ev_timestamp : Q;
ev_device_id : string;
ev_type : string;
ev_details : string
}.

(** The module-level state of the security layer. *)
Record security : Type := Security {
NONCE_STORE : gmap string nonce_entry;
SERVER_NONCE_COUNTER : Z;
SECURITY_LOGS : list sec_event
}.

Definition set_store (f : gmap string nonce_entry -> gmap string nonce_entry)
  (st : security) : security :=
Security (f (NONCE_STORE st)) (SERVER_NONCE_COUNTER st) (SECURITY_LOGS st).

Definition set_counter (c : Z) (st : security) : security :=
Security (NONCE_STORE st) c (SECURITY_LOGS st).

Definition log_security_event (device_id event_type details : string) (now : Q)
  (st : security) : security :=
Security (NONCE_STORE st) (SERVER_NONCE_COUNTER st)
  (SECURITY_LOGS st ++ [SecEvent now device_id event_type details])%list.

Definition SECURITY_ENABLED : bool := true.
Definition NONCE_WINDOW : Z := 100.
Definition NONCE_EXPIRY_SECONDS : Q := 75.
Definition FLUSH_INTERVAL_SEC : Q := 15.

(** [bytes.fromhex("c41716a1...29b3")], the 256-bit pre-shared key. *)
Definition PSK : list byte :=
[xc4; x17; x16; xa1; x34; x16; x8f; x52; xfb; xd4; xbe; x33; x02; xfa; x5a; x88;
 x12; x7d; xdd; xe7; x49; x50; x1a; x19; x96; x07; xb4; xc2; x86; xad; x29; xb3].
Definition PRE_SHARED_KEY : list byte := PSK.

(** A value held in a [FOTA_STATUS] entry.  [PTime] is a time stamp
    ([datetime.now().isoformat()], a non-empty string in the source), kept
    as the clock reading it renders. *)
Inductive pyval : Type :=
| PNone
| PBool (b : bool)
| PInt (n : Z)
| PStr (s : string)
| PTime (t : Q).

Definition truthy (v : pyval) : bool :=
  match v with
  | PNone => false
  | PBool b => b
  | PInt n => negb (n =? 0)
  | PStr s => truthy_str (Some s)
  | PTime _ => true
  end.

Definition of_opt_int (o : option Z) : pyval :=
  match o with Some n => PInt n | None => PNone end.
Definition of_opt_bool (o : option bool) : pyval :=
  match o with Some b => PBool b | None => PNone end.
Definition of_opt_str (o : option string) : pyval :=
  match o with Some s => PStr s | None => PNone end.

(** [FIRMWARE_MANIFEST]. *)
Record manifest : Type := Manifest {
  version : string;
  size_bytes : Z;                      (* the key 'size' *)
  hash : string;
  chunk_size : Z;
  uploaded_at : Q
}.

(** An entry of [FIRMWARE_CHUNKS]. *)
Record chunk : Type := Chunk {
  chunk_number : Z;
  data : string;
  chunk_mac : string;
  chunk_len : Z
}.

(** The detail text of a FOTA log line.  The progress line
    ["Chunk c/n (p%)"] is kept as its three parts; [progress] is the text
    [p] that the format [:.1f] prints. *)
Inductive fota_details : Type :=
| Text (s : string)
| ChunkProgress (chunk_received total_chunks : Z) (progress : string).

(** An entry of [FOTA_LOGS]: an event written by [log_fota_event], or the
    request record appended by [trigger_fota_rollback]. *)
Inductive fota_log : Type :=
| FotaEvent (timestamp : Q) (device_id event_type : string) (details : fota_details)
| RollbackRequested (timestamp : Q) (device_id : string) (reason : string).

(** The module-level state of the firmware distribution manager. *)
Record fota : Type := Fota {
  FIRMWARE_MANIFEST : option manifest;
  FIRMWARE_CHUNKS : gmap Z chunk;
  FOTA_STATUS : gmap string (gmap string pyval);
  FOTA_LOGS : list fota_log
}.

(** Body of [POST /api/cloud/fota/upload]: a JSON object whose fields,
    where present, have the types of the route's documentation (strings
    for version, hash and data, integers for size and chunk size); an
    absent key is [None].  Bodies that are not objects, and fields of
    other JSON types, are not in this type: on those the handler raises
    ([AttributeError] at line 991 on a body without [get], [TypeError] at
    lines 1029 and 1033 on a chunk size that is null, a string or a
    float, the latter after the manifest has been replaced). *)
Record firmware_upload : Type := FirmwareUpload {
  fw_version : option string;
  fw_size : option Z;
  fw_hash : option string;
  fw_chunk_size : option Z;
  fw_data : option string
}.

(** The [fota_status] object of [POST /api/inverter/fota/status]; an
    absent key is [None]. *)
Record fota_report : Type := FotaReport {
  chunk_received : option Z;
  verified : option bool;
  boot_status : option string;
  rollback : option bool;
  error : option string
}.

(** Body of [POST /api/cloud/fota/rollback]. *)
Record rollback_request : Type := RollbackRequest {
  rb_device_id : option string;
  rb_reason : option string
}.

(** Responses of the handlers that are modelled. *)
Inductive response : Type :=
| Unauthorized (details : option string)          (* 401 *)
| BadRequest (error : string)                     (* 400 *)
| UploadAck (received : Z)                        (* 200, /api/upload *)
| Secured (e : envelope)                          (* 200, secured envelope *)
| FirmwareUploaded (m : option manifest) (total_chunks : Z)
| StatusSuccess                                   (* {'status': 'success'} *)
| RollbackAccepted (device_id reason : string)
| RollbackStatus (rollback_required : bool) (reason : option pyval)
| Unhandled (e : exn).                            (* exception left the handler: 500 *)

Definition status_code (r : response) : Z :=
  match r with
  | Unauthorized _ => 401
  | BadRequest _ => 400
  | Unhandled _ => 500
  | _ => 200
  end.

(** [s.isascii()]. *)
Definition isascii (s : string) : bool :=
  forallb Base64.is_ascii (list_ascii_of_string s).

(** ** Authentication gate and envelope codec *)

(** [hmac.compare_digest(calculated, received)], where [calculated] is a
    hexadecimal digest.  The call raises [TypeError] when one of its
    arguments holds a non-ASCII character; the digest holds none, so it
    raises exactly when [received] does, and such a string differs from
    the digest. *)
Definition compare_digest (calculated received : string) : outcome bool :=
  if String.eqb calculated received then Ret true
  else if isascii received then Ret false
  else Raise TypeError.

Section Gate.

(** [hmac.new(key, msg, hashlib.sha256).hexdigest()]. *)
Variable hmac_sha256_hex : list byte -> list byte -> string.

(** A JSON-serialisable response dictionary and [json.dumps]. *)
Variable json : Type.
Variable json_dumps : json -> string.

(** [{"status": "no_config", "nonce": n, "message": ...}]. *)
Variable no_config_payload : Z -> json.

(** Lines 143-160 of [create_secured_response], for the value [encrypted]
    of its local flag: serialise, encode when the flag is set, MAC over
    nonce, timestamp, flag bit and encoded payload in that order. *)
Definition seal (encrypted : bool) (nonce timestamp : Z) (payload_dict : json)
    : envelope :=
  let payload_str := json_dumps payload_dict in
  let payload_str :=
    if encrypted then decode (Base64.b64encode (encode payload_str))
    else payload_str in
  let hmac_input :=
    str nonce ++ str timestamp ++ (if encrypted then "1" else "0") ++ payload_str in
  let mac := hmac_sha256_hex PSK (encode hmac_input) in
  Envelope nonce timestamp encrypted payload_str mac.

(** [create_secured_response(payload_dict, device_id)].  Subscripting a
    stored entry that is a bare integer raises [TypeError]. *)
Definition create_secured_response (payload_dict : json)
    (device_id : option string) (now : Q) (st : security)
    : outcome envelope * security :=
  let synced : outcome Z :=
    match device_id with
    | Some (String c d) =>
        match NONCE_STORE st !! String c d with
        | Some nonce_data =>
            if entry_truthy nonce_data then
              match nonce_data with
              | NDict device_last_nonce _ =>
                  if device_last_nonce <? 50
                  then Ret (Z.max 1 (Z.min 50 (device_last_nonce + 1)))
                  else Ret (Z.max (SERVER_NONCE_COUNTER st) (device_last_nonce + 1))
              | NInt _ => Raise TypeError
              end
            else Ret 1
        | None => Ret 1
        end
    | _ =>
        if 50 <? SERVER_NONCE_COUNTER st then Ret 1 else Ret (SERVER_NONCE_COUNTER st)
    end in
  match synced with
  | Raise e => (Raise e, st)
  | Ret counter =>
      let counter := counter + 1 in
      let nonce := counter in
      let timestamp := int_of_float now in
      let encrypted := true in
      (Ret (seal encrypted nonce timestamp payload_dict), set_counter counter st)
  end.

(** [verify_request_security(device_id)] for the request [req] at clock
    reading [now]. *)
Definition verify_request_security (device_id : string) (req : request)
    (now : Q) (st : security) : outcome (bool * option string) * security :=
  if negb SECURITY_ENABLED then (Ret (true, None), st) else
  let nonce := req_nonce req in
  let timestamp := req_timestamp req in
  let received_mac := req_mac req in
  match nonce, timestamp, received_mac with
  | Some (String n0 n1), Some (String t0 t1), Some (String m0 m1) =>
      let nonce := String n0 n1 in
      let timestamp := String t0 t1 in
      let received_mac := String m0 m1 in
      match int_of_str nonce with
      | None =>
          let msg := "Invalid nonce format: " ++ nonce in
          (Ret (false, Some msg),
           log_security_event device_id "invalid_nonce" msg now st)
      | Some nonce_int =>
          let current_time := now in
          (* replay protection with expiry handling: either an early
             return, or the state with which the MAC check goes on *)
          let checked : (outcome (bool * option string) * security) + security :=
            match NONCE_STORE st !! device_id with
            | Some nonce_data =>
                if entry_truthy nonce_data then
                  match nonce_data with
                  | NDict last_nonce last_seen =>
                      if Qlt_le_dec NONCE_EXPIRY_SECONDS (current_time - last_seen)
                      then inr (set_store (delete device_id) st)
                      else if nonce_int <=? last_nonce then
                        let msg := "Replay attack detected: nonce " ++ str nonce_int
                                   ++ " <= " ++ str last_nonce in
                        inl (Ret (false, Some msg),
                             log_security_event device_id "replay_attack" msg now st)
                      else inr st
                  | NInt _ => inl (Raise TypeError, st)
                  end
                else inr st
            | None => inr st
            end in
          match checked with
          | inl early => early
          | inr st =>
              let hmac_input := req_path req ++ nonce ++ timestamp in
              let calculated_mac := hmac_sha256_hex PSK (encode hmac_input) in
              match compare_digest calculated_mac received_mac with
              | Raise e => (Raise e, st)
              | Ret false =>
                  let msg := "HMAC verification failed" in
                  (Ret (false, Some msg),
                   log_security_event device_id "hmac_failed" msg now st)
              | Ret true =>
                  let st := set_store <[device_id := NDict nonce_int current_time]> st in
                  (Ret (true, None),
                   log_security_event device_id "hmac_verified"
                     ("Nonce: " ++ str nonce_int) now st)
              end
          end
      end
  | _, _, _ =>
      let msg := "Missing security headers: nonce=" ++ str_opt nonce
                 ++ ", ts=" ++ str_opt timestamp
                 ++ ", mac=" ++ str_opt received_mac in
      (Ret (false, Some msg),
       log_security_event device_id "missing_headers" msg now st)
  end.

(** [check_nonce(device_id, nonce)]: comparing an [int] with a stored
    dictionary raises [TypeError]. *)
Definition check_nonce (device_id : string) (nonce : Z) (now : Q)
    (st : security) : outcome bool * security :=
  match default (NInt 0) (NONCE_STORE st !! device_id) with
  | NInt last_nonce =>
      if nonce <=? last_nonce then
        (Ret false,
         log_security_event device_id "replay_attack"
           ("Nonce " ++ str nonce ++ " <= " ++ str last_nonce) now st)
      else (Ret true, set_store <[device_id := NInt nonce]> st)
  | NDict _ _ => (Raise TypeError, st)
  end.

(** [GET /api/inverter/config]: the polling route behind the header
    check. *)
Definition get_device_config (PENDING_CONFIGS : gmap string json)
    (req : request) (now : Q) (st : security) : response * security :=
  let device_id :=
    first_truthy [req_device_id req; req_arg_device_id req] "EcoWatt001" in
  match verify_request_security device_id req now st with
  | (Raise e, st) => (Unhandled e, st)
  | (Ret (false, error_msg), st) => (Unauthorized error_msg, st)
  | (Ret (true, _), st) =>
      let (payload_dict, st) :=
        match PENDING_CONFIGS !! device_id with
        | Some pending => (pending, st)
        | None =>
            let st := set_counter (SERVER_NONCE_COUNTER st + 1) st in
            (no_config_payload (SERVER_NONCE_COUNTER st), st)
        end in
      match create_secured_response payload_dict (Some device_id) now st with
      | (Ret e, st) => (Secured e, st)
      | (Raise e, st) => (Unhandled e, st)
      end
  end.

(** The authentication prologue of [POST /api/upload] (lines 400-447):
    either the response of an early return, or the bytes that go on to be
    decoded as telemetry.  Any exception inside the [try] block is caught
    and the raw request body is used instead. *)
Definition upload_auth (device_id : string) (req : request) (now : Q)
    (st : security) : (response + list byte) * security :=
  let content_type := default "" (req_content_type req) in
  if contains "application/json" content_type && SECURITY_ENABLED then
    match req_json req with
    | None => (inr (req_data req), st)
    | Some envelope =>
        match j_payload envelope, j_nonce envelope, j_mac envelope with
        | Some payload_str, Some nonce, Some received_mac =>
            let timestamp := default 0 (j_timestamp envelope) in
            let encrypted_flag := default false (j_encrypted envelope) in
            let hmac_input :=
              str nonce ++ str timestamp
              ++ (if encrypted_flag then "1" else "0") ++ payload_str in
            let calculated_mac := hmac_sha256_hex PSK (encode hmac_input) in
            match compare_digest calculated_mac received_mac with
            | Raise _ =>
                (* caught by the handler's [except Exception]: raw body *)
                (inr (req_data req), st)
            | Ret false =>
                (inl (Unauthorized (Some "HMAC verification failed")),
                 log_security_event device_id "hmac_failed"
                   "Upload HMAC mismatch" now st)
            | Ret true =>
                match default (NInt 0) (NONCE_STORE st !! device_id) with
                | NInt last_nonce =>
                    if nonce <=? last_nonce then
                      (inl (Unauthorized (Some "Replay attack detected")),
                       log_security_event device_id "replay_attack"
                         ("Upload nonce " ++ str nonce ++ " <= " ++ str last_nonce)
                         now st)
                    else
                      let st := set_store <[device_id := NInt nonce]> st in
                      let st := log_security_event device_id "hmac_verified"
                                  ("Upload authenticated, nonce: " ++ str nonce)
                                  now st in
                      match Base64.b64decode payload_str with
                      | Some compressed_payload => (inr compressed_payload, st)
                      | None => (inl (BadRequest "Invalid payload encoding"), st)
                      end
                | NDict _ _ =>
                    (* [nonce <= last_nonce] raises TypeError; the handler's
                       [except Exception] falls back to the raw body *)
                    (inr (req_data req), st)
                end
            end
        | _, _, _ => (inr (req_data req), st)
        end
    end
  else (inr (req_data req), st).

End Gate.

(** ** Telemetry aggregator *)

(** A decoded sample of the binary upload format. *)
Record sample : Type := Sample {
  s_timestamp : Z;
  s_reg_addr : Z;
  s_value : pyfloat
}.

(** [BUFFERS[device_id]]. *)
Record buffer : Type := Buffer {
  reg_values : gmap Z (list pyfloat);
  received_bytes : Z;
  last_seen : Q
}.

Record averaged_sample : Type := AveragedSample {
  as_timestamp : Z;
  as_reg_addr : Z;
  as_value : pyfloat
}.

(** An entry of [UPLOADS]. *)
Record upload_record : Type := UploadRecord {
  ur_timestamp : Q;
  ur_device_id : string;
  ur_bytes : Z;
  ur_samples : list averaged_sample
}.

Record benchmark : Type := Benchmark {
  num_samples : Z;
  original_size : Z;
  compressed_size : Z;
  compression_ratio : option pyfloat;   (* [None] is the string "N/A" *)
  bm_min : option pyfloat;
  bm_avg : option pyfloat;
  bm_max : option pyfloat
}.

(** The body posted to the downstream sink. *)
Record push_payload : Type := PushPayload {
  pp_device_id : string;
  pp_timestamp : Q;
  pp_benchmark : benchmark;
  pp_samples : list pyfloat
}.

(** Aggregator state: the buffers, the append-only record log and what has
    been handed to the sink (delivery is best effort). *)
Record aggregator : Type := Aggregator {
  BUFFERS : gmap string buffer;
  UPLOADS : list upload_record;
  PUSHED : list push_payload
}.

(** Little-endian unsigned integer of a byte string. *)
Fixpoint le_uint (bs : list byte) : Z :=
  match bs with
  | [] => 0
  | b :: rest => Z.of_N (Byte.to_N b) + 256 * le_uint rest
  end.

(** The value of an IEEE-754 binary32 bit pattern, as [struct.unpack]
    hands it over after widening to a Python float. *)
Definition float32_of_bits (bits : Z) : pyfloat :=
  let sign := Z.testbit bits 31 in
  let e := Z.land (Z.shiftr bits 23) 255 in
  let m := Z.land bits 8388607 in
  if e =? 255 then (if m =? 0 then Inf sign else NaN)
  else
    let significand := if e =? 0 then m else 8388608 + m in
    let exponent := if e =? 0 then -149 else e - 150 in
    binary_normalize prec emax (if sign then - significand else significand)
      exponent sign.

(** [decompress_delta_payload(data)]: nine bytes per sample, decoded while
    at least nine bytes remain. *)
Fixpoint decompress_delta_payload (data : list byte) : list sample :=
  match data with
  | t0 :: t1 :: t2 :: t3 :: r :: v0 :: v1 :: v2 :: v3 :: rest =>
      let ts := le_uint [t0; t1; t2; t3] in
      let reg_addr := le_uint [r] in
      let value := float32_of_bits (le_uint [v0; v1; v2; v3]) in
      Sample ts reg_addr (round3 value) :: decompress_delta_payload rest
  | _ => []
  end.

(** [buf["reg_values"].setdefault(reg, []).append(float(val))]. *)
Definition append_value (rv : gmap Z (list pyfloat)) (s : sample)
    : gmap Z (list pyfloat) :=
  <[s_reg_addr s := (default [] (rv !! s_reg_addr s) ++ [s_value s])%list]> rv.

(** Lines 459-474 of [upload]: accumulate into the debounce buffer. *)
Definition ingest (device_id : string) (samples : list sample) (nbytes : Z)
    (now : Q) (agg : aggregator) : aggregator :=
  let buf := default (Buffer ∅ 0 now) (BUFFERS agg !! device_id) in
  let rv := fold_left append_value samples (reg_values buf) in
  let buf := Buffer rv (received_bytes buf + nbytes) now in
  Aggregator (<[device_id := buf]> (BUFFERS agg)) (UPLOADS agg) (PUSHED agg).

(** Lines 449-477 of [upload]: decode, accumulate, acknowledge. *)
Definition upload_ingest (device_id : string) (compressed_payload : list byte)
    (now : Q) (agg : aggregator) : response * aggregator :=
  let samples := decompress_delta_payload compressed_payload in
  let nbytes := Z.of_nat (length compressed_payload) in
  (UploadAck nbytes, ingest device_id samples nbytes now agg).

(** [any(len(vals) for vals in reg_values.values())]. *)
Definition has_any (rv : gmap Z (list pyfloat)) : bool :=
  existsb (fun kv => negb (length kv.2 =? 0)%nat) (map_to_list rv).

(** The order of [sorted] on dictionary items: the keys are distinct, so
    it is the order of the register addresses. *)
Definition item_le (a b : Z * list pyfloat) : Prop := a.1 <= b.1.

#[global] Instance item_le_dec : RelDecision item_le :=
  fun a b => decide (a.1 <= b.1).

#[local] Instance item_le_total : Total item_le.
Proof. intros a b. unfold item_le. lia. Qed.

#[local] Instance item_le_trans : Transitive item_le.
Proof. intros a b c. unfold item_le. lia. Qed.

(** [sorted(reg_values.items())]. *)
Definition sorted_items (rv : gmap Z (list pyfloat)) : list (Z * list pyfloat) :=
  merge_sort item_le (map_to_list rv).

(** One iteration of the averaging loop (lines 264-273), on the pair of
    accumulators [(averaged_samples, values_flat)]. *)
Definition average_step (now : Q)
    (acc : list averaged_sample * list pyfloat) (item : Z * list pyfloat)
    : list averaged_sample * list pyfloat :=
  let (reg, vals) := item in
  match vals with
  | [] => acc
  | _ =>
      let avg_val := mean vals in
      ((acc.1 ++ [AveragedSample (int_of_float now) reg (round3 avg_val)])%list,
       (acc.2 ++ vals)%list)
  end.

(** [_flush_device_unlocked(device_id)], all of whose clock readings
    return [now]. *)
Definition _flush_device_unlocked (device_id : string) (now : Q)
    (agg : aggregator) : option upload_record * aggregator :=
  match BUFFERS agg !! device_id with
  | None => (None, agg)
  | Some buf =>
      let reg_values := reg_values buf in
      let received_bytes := received_bytes buf in
      if negb (has_any reg_values) then
        (None,
         Aggregator (<[device_id := Buffer ∅ 0 (last_seen buf)]> (BUFFERS agg))
           (UPLOADS agg) (PUSHED agg))
      else
        let flush_dt := now in
        let (averaged_samples, values_flat) :=
          fold_left (average_step now) (sorted_items reg_values) ([], []) in
        let upload_record :=
          UploadRecord flush_dt device_id received_bytes averaged_samples in
        let num_samples := Z.of_nat (length averaged_samples) in
        let original_size := num_samples * 4 * 3 in
        let compressed_size := received_bytes in
        (* a quotient of sizes, far inside the range of floats: register
           addresses are single bytes, so there are at most 256 samples *)
        let compression_ratio :=
          if 0 <? compressed_size
          then Some (round2 (ratio original_size compressed_size))
          else None in
        let min_v := min_list values_flat in
        let max_v := max_list values_flat in
        let avg_v :=
          match values_flat with
          | [] => None
          | _ => Some (round2 (mean values_flat))
          end in
        let benchmark :=
          Benchmark num_samples original_size compressed_size compression_ratio
            min_v avg_v max_v in
        let flask_push_payload :=
          PushPayload device_id flush_dt benchmark (map as_value averaged_samples) in
        (Some upload_record,
         Aggregator (<[device_id := Buffer ∅ 0 now]> (BUFFERS agg))
           (UPLOADS agg ++ [upload_record])%list
           (PUSHED agg ++ [flask_push_payload])%list)
  end.

(** The test of the flusher loop on a snapshot entry (line 346). *)
Definition flush_due (now : Q) (buf : buffer) : bool :=
  has_any (reg_values buf)
  && (if Qlt_le_dec (now - last_seen buf) FLUSH_INTERVAL_SEC then false else true).

(** One visit of the flusher loop to a snapshot entry. *)
Definition visit (now : Q) (agg : aggregator) (item : string * buffer)
    : aggregator :=
  let (device_id, buf) := item in
  if flush_due now buf then (_flush_device_unlocked device_id now agg).2 else agg.

(** One pass of the loop of [_flusher_loop], after its one-second sleep:
    snapshot the buffers, then visit every entry.  (The visits touch
    distinct devices; the snapshot is walked in the order of
    [map_to_list].) *)
Definition _flusher_loop_pass (now : Q) (agg : aggregator) : aggregator :=
  let items := map_to_list (BUFFERS agg) in
  fold_left (visit now) items agg.

(** ** Firmware distribution manager *)

Definition log_fota_event (device_id event_type : string) (details : fota_details)
    (now : Q) (f : fota) : fota :=
  Fota (FIRMWARE_MANIFEST f) (FIRMWARE_CHUNKS f) (FOTA_STATUS f)
    (FOTA_LOGS f ++ [FotaEvent now device_id event_type details])%list.

Definition set_status (g : gmap string (gmap string pyval) -> gmap string (gmap string pyval))
    (f : fota) : fota :=
  Fota (FIRMWARE_MANIFEST f) (FIRMWARE_CHUNKS f) (g (FOTA_STATUS f)) (FOTA_LOGS f).

Section Firmware.

Variable sha256_hex : list byte -> string.
Variable hmac_sha256_hex : list byte -> list byte -> string.

(** The chunk stored under index [i] by the loop of lines 1033-1047. *)
Definition make_chunk (firmware_data : list byte) (chunk_size i : Z) : chunk :=
  let start := i * chunk_size in
  let stop := Z.min (start + chunk_size) (Z.of_nat (length firmware_data)) in
  let chunk_data := slice firmware_data start stop in
  let chunk_b64 := decode (Base64.b64encode chunk_data) in
  let mac := hmac_sha256_hex PRE_SHARED_KEY chunk_data in
  Chunk i chunk_b64 mac (Z.of_nat (length chunk_data)).

(** [upload_firmware()] on the parsed request body.  (The text of the
    decoding exception, which the source appends to "Invalid base64", is
    not modelled.) *)
Definition upload_firmware (req : firmware_upload) (now : Q) (f : fota)
    : response * fota :=
  match fw_version req, fw_size req, fw_hash req, fw_data req with
  | Some (String v0 v1), Some size, Some (String h0 h1), Some (String d0 d1) =>
      if size =? 0 then
        (BadRequest "Missing required fields",
         log_fota_event "cloud" "upload_failed" (Text "Missing required fields") now f)
      else
      let version := String v0 v1 in
      let fw_hash := String h0 h1 in
      let firmware_data_b64 := String d0 d1 in
      let chunk_size := default 1024 (fw_chunk_size req) in
      match Base64.b64decode firmware_data_b64 with
      | None =>
          (BadRequest "Invalid base64",
           log_fota_event "cloud" "upload_failed" (Text "Invalid base64") now f)
      | Some firmware_data =>
          let len := Z.of_nat (length firmware_data) in
          let f := log_fota_event "cloud" "firmware_decoded"
                     (Text ("Size: " ++ str len ++ " bytes")) now f in
          let calculated_hash := sha256_hex firmware_data in
          if negb (String.eqb calculated_hash fw_hash) then
            (BadRequest "Hash mismatch",
             log_fota_event "cloud" "upload_failed"
               (Text ("Hash mismatch: expected " ++ fw_hash ++ ", got " ++ calculated_hash))
               now f)
          else
            let f := log_fota_event "cloud" "firmware_hash_verified"
                       (Text ("Hash: " ++ fw_hash)) now f in
            let new_manifest := Manifest version size fw_hash chunk_size now in
            (* FIRMWARE_MANIFEST = {...}; FIRMWARE_CHUNKS.clear() *)
            let f := Fota (Some new_manifest) ∅ (FOTA_STATUS f) (FOTA_LOGS f) in
            if chunk_size =? 0 then (Unhandled ZeroDivisionError, f)
            else
              let num_chunks := (len + chunk_size - 1) / chunk_size in
              let f := log_fota_event "cloud" "chunking_started"
                         (Text ("Creating " ++ str num_chunks ++ " chunks of "
                                ++ str chunk_size ++ " bytes")) now f in
              let chunks :=
                fold_left (fun table i => <[i := make_chunk firmware_data chunk_size i]> table)
                  (seqZ 0 num_chunks) (FIRMWARE_CHUNKS f) in
              let f := Fota (FIRMWARE_MANIFEST f) chunks (FOTA_STATUS f) (FOTA_LOGS f) in
              let f := log_fota_event "cloud" "firmware_uploaded"
                         (Text ("Version: " ++ version ++ ", Size: " ++ str size
                                ++ " bytes, Chunks: " ++ str num_chunks
                                ++ ", Hash: " ++ fw_hash)) now f in
              (FirmwareUploaded (FIRMWARE_MANIFEST f) num_chunks, f)
      end
  | _, _, _, _ =>
      (BadRequest "Missing required fields",
       log_fota_event "cloud" "upload_failed" (Text "Missing required fields") now f)
  end.

End Firmware.

(** The progress figure of line 1113,
    [(chunk_received + 1) / total_chunks * 100 if total_chunks > 0 else 0]:
    the quotient of the two integers is a float, and the division raises
    [OverflowError] when it is beyond the largest float.  (With an empty
    chunk table the figure is the integer 0, which [:.1f] prints like the
    float.) *)
Definition progress_percent (chunk_received total_chunks : Z) : outcome pyfloat :=
  if 0 <? total_chunks then
    match truediv (chunk_received + 1) total_chunks with
    | Ret quotient => Ret (mul quotient (of_int 100))
    | Raise e => Raise e
    end
  else Ret (of_int 0).

(** [receive_fota_status()] for the device [device_id] (the Device-ID
    header, or "EcoWatt001") and the parsed [fota_status] object. *)
Definition receive_fota_status (device_id : string) (r : fota_report) (now : Q)
    (f : fota) (st : security) : response * fota * security :=
  let chunk_received := chunk_received r in
  let verified := verified r in
  let boot_status := boot_status r in
  let rollback := default false (rollback r) in
  let error := error r in
  let entry : gmap string pyval :=
    <["chunk_received" := of_opt_int chunk_received]>
    (<["verified" := of_opt_bool verified]>
    (<["boot_status" := of_opt_str boot_status]>
    (<["rollback" := PBool rollback]>
    (<["error" := of_opt_str error]>
    (<["last_update" := PTime now]> ∅))))) in
  let f := set_status <[device_id := entry]> f in
  let logged : outcome fota :=
    match chunk_received with
    | Some chunk_received =>
        let total_chunks := Z.of_nat (size (FIRMWARE_CHUNKS f)) in
        match progress_percent chunk_received total_chunks with
        | Ret progress =>
            Ret (log_fota_event device_id "chunk_received"
                   (ChunkProgress chunk_received total_chunks (format_1f progress))
                   now f)
        | Raise e => Raise e
        end
    | None => Ret f
    end in
  match logged with
  | Raise e => (Unhandled e, f, st)        (* the registry entry is written *)
  | Ret f =>
  let f :=
    match verified with
    | Some true =>
        log_fota_event device_id "firmware_verified"
          (Text "Hash verification successful") now f
    | Some false =>
        log_fota_event device_id "verification_failed"
          (Text ("Error: " ++ str_opt error)) now f
    | None => f
    end in
  let (f, st) :=
    if rollback then
      (log_fota_event device_id "rollback_triggered"
         (Text ("Reason: " ++ (if truthy_str error then str_opt error
                               else "Verification/Boot failure"))) now f,
       log_security_event device_id "fota_rollback"
         ("Rolled back due to: " ++ str_opt error) now st)
    else (f, st) in
  let f :=
    if truthy_str boot_status then
      let status := str_opt boot_status in
      let f := log_fota_event device_id "boot_status"
                 (Text ("Status: " ++ status)) now f in
      if String.eqb status "success" then
        log_fota_event device_id "fota_completed"
          (Text "New firmware booted successfully") now f
      else if String.eqb status "failed" then
        log_fota_event device_id "boot_failed"
          (Text "Boot failed, rollback initiated") now f
      else f
    else f in
  (StatusSuccess, f, st)
  end.

(** [trigger_fota_rollback()] on the parsed request body. *)
Definition trigger_fota_rollback (req : rollback_request) (now : Q) (f : fota)
    : response * fota :=
  let device_id := default "all" (rb_device_id req) in
  let reason := default "Manual rollback requested" (rb_reason req) in
  let f := Fota (FIRMWARE_MANIFEST f) (FIRMWARE_CHUNKS f) (FOTA_STATUS f)
             (FOTA_LOGS f ++ [RollbackRequested now device_id reason])%list in
  let entry := default ∅ (FOTA_STATUS f !! device_id) in
  let entry := <["rollback_requested" := PBool true]> entry in
  let entry := <["rollback_reason" := PStr reason]> entry in
  let entry := <["rollback_timestamp" := PTime now]> entry in
  (RollbackAccepted device_id reason, set_status <[device_id := entry]> f).

(** [check_rollback_status()] for a request whose Device-ID header is
    [header] ([None] when the header is absent). *)
Definition check_rollback_status (header : option string) (f : fota)
    : response * fota :=
  let device_id := default "unknown" header in
  match FOTA_STATUS f !! device_id with
  | Some entry =>
      if truthy (default PNone (entry !! "rollback_requested")) then
        let rollback_reason := default (PStr "Unknown") (entry !! "rollback_reason") in
        let entry := <["rollback_requested" := PBool false]> entry in
        (RollbackStatus true (Some rollback_reason),
         set_status <[device_id := entry]> f)
      else (RollbackStatus false None, f)
  | None => (RollbackStatus false None, f)
  end.

(** ** The upload route *)

Section Upload.

Variable hmac_sha256_hex : list byte -> list byte -> string.

(** [POST /api/upload]: authentication prologue, then decoding and
    buffering. *)
Definition upload (req : request) (now : Q) (st : security) (agg : aggregator)
    : response * security * aggregator :=
  (* header names are case-insensitive: both lookups read Device-ID *)
  let device_id :=
    first_truthy [req_device_id req; req_device_id req] "Unknown-Device" in
  match upload_auth hmac_sha256_hex device_id req now st with
  | (inl early, st) => (early, st, agg)
  | (inr compressed_payload, st) =>
      let (ack, agg) := upload_ingest device_id compressed_payload now agg in
      (ack, st, agg)
  end.

End Upload.

(** ** Runs of the aggregator *)

(** The two kinds of step that touch the buffers: an upload that reached
    the buffering stage, and a wake-up of the flusher. *)
Inductive event : Type :=
| Ingest (device_id : string) (compressed_payload : list byte) (now : Q)
| Sweep (now : Q).

Definition step (agg : aggregator) (e : event) : aggregator :=
  match e with
  | Ingest device_id compressed_payload now =>
      (upload_ingest device_id compressed_payload now agg).2
  | Sweep now => _flusher_loop_pass now agg
  end.

(** The state at start-up: no buffers, no records. *)
Definition startup : aggregator := Aggregator ∅ [] [].

Definition run (trace : list event) : aggregator := fold_left step trace startup.

(** Clock reading of the latest [Ingest] of a device in a trace. *)
Fixpoint last_ingest (device_id : string) (trace : list event) (seen : option Q)
    : option Q :=
  match trace with
  | [] => seen
  | Ingest d _ now :: rest =>
      last_ingest device_id rest (if String.eqb d device_id then Some now else seen)
  | Sweep _ :: rest => last_ingest device_id rest seen
  end.

(** The flushed records of one device. *)
Definition records_of (device_id : string) (agg : aggregator) : list upload_record :=
  filter (fun r => ur_device_id r = device_id) (UPLOADS agg).

(** ** Runs of the rollback registry *)

(** The three operations that write [FOTA_STATUS]. *)
Inductive fota_op : Type :=
| RequestRollback (req : rollback_request) (now : Q)
| CheckRollback (header : option string)
| ReportStatus (device_id : string) (r : fota_report) (now : Q).

Definition fota_step (s : fota * security) (op : fota_op) : fota * security :=
  match op with
  | RequestRollback req now => ((trigger_fota_rollback req now s.1).2, s.2)
  | CheckRollback header => ((check_rollback_status header s.1).2, s.2)
  | ReportStatus device_id r now =>
      let '(_, f, st) := receive_fota_status device_id r now s.1 s.2 in (f, st)
  end.

(** ** Firmware queries *)

(** [get_fota_chunk()] for the parsed query argument: lines 1078-1082.
    [None] is the answer 404 "Chunk not found". *)
Definition get_fota_chunk (chunk_num : Z) (f : fota) : option chunk :=
  FIRMWARE_CHUNKS f !! chunk_num.

(** [last_chunk + 1] on a stored value: only integers (and booleans, which
    are integers) can be added to. *)
Definition plus_one (v : pyval) : outcome Z :=
  match v with
  | PInt n => Ret (n + 1)
  | PBool b => Ret ((if b then 1 else 0) + 1)
  | _ => Raise TypeError
  end.

(** The answer of [device_status()]: the keys that are present. *)
Record status_reply (json command : Type) : Type := StatusReply {
  sr_config_update : option json;
  sr_command : option command;
  sr_fota : option (manifest * Z)       (* manifest and next_chunk *)
}.
Arguments StatusReply {json command} _ _ _.
Arguments sr_config_update {json command} _.
Arguments sr_command {json command} _.
Arguments sr_fota {json command} _.

(** [device_status()] for the request body's [device_id] ([None] when the
    key is absent). *)
Definition device_status {json command : Type}
    (PENDING_CONFIGS : gmap string json) (PENDING_COMMANDS : gmap string command)
    (device_id : option string) (f : fota) : outcome (status_reply json command) :=
  let device_id := default "EcoWatt001" device_id in
  let config_update := PENDING_CONFIGS !! device_id in
  let command := PENDING_COMMANDS !! device_id in
  match FIRMWARE_MANIFEST f with
  | Some m =>
      let device_fota := default ∅ (FOTA_STATUS f !! device_id) in
      let last_chunk := default (PInt (-1)) (device_fota !! "chunk_received") in
      match plus_one last_chunk with
      | Raise e => Raise e
      | Ret next_chunk =>
          if next_chunk <? Z.of_nat (size (FIRMWARE_CHUNKS f))
          then Ret (StatusReply config_update command (Some (m, next_chunk)))
          else Ret (StatusReply config_update command None)
      end
  | None => Ret (StatusReply config_update command None)
  end.

(** ** Log queries *)

(** [logs[-limit:]]. *)
Definition last_entries {A} (logs : list A) (limit : Z) : list A :=
  slice logs (- limit) (Z.of_nat (length logs)).

(** [get_security_logs()] for the query arguments [device_id] and the
    parsed [limit]: the total and the entries returned. *)
Definition get_security_logs (device_id : option string) (limit : Z)
    (st : security) : Z * list sec_event :=
  let logs :=
    if truthy_str device_id
    then filter (fun log => ev_device_id log = default "" device_id) (SECURITY_LOGS st)
    else SECURITY_LOGS st in
  (Z.of_nat (length logs), last_entries logs limit).

(** The [device_id] key of a FOTA log entry. *)
Definition log_device (log : fota_log) : string :=
  match log with
  | FotaEvent _ device_id _ _ => device_id
  | RollbackRequested _ device_id _ => device_id
  end.

(** [get_fota_logs()], likewise. *)
Definition get_fota_logs (device_id : option string) (limit : Z) (f : fota)
    : Z * list fota_log :=
  let logs :=
    if truthy_str device_id
    then filter (fun log => log_device log = default "" device_id) (FOTA_LOGS f)
    else FOTA_LOGS f in
  (Z.of_nat (length logs), last_entries logs limit).

(** ** Modbus simulator *)

(** [bytes.fromhex] and [bytes.hex().upper()]. *)
Module Hex.

Local Open Scope N_scope.

(** ASCII white space, which [fromhex] skips between bytes. *)
Definition is_space (c : ascii) : bool :=
  let n := N_of_ascii c in
  (n =? 32) || ((9 <=? n) && (n <=? 13)).

Definition digit_value (c : ascii) : option N :=
  let n := N_of_ascii c in
  if (48 <=? n) && (n <=? 57) then Some (n - 48)
  else if (97 <=? n) && (n <=? 102) then Some (n - 87)
  else if (65 <=? n) && (n <=? 70) then Some (n - 55)
  else None.

(** Two hexadecimal digits per byte, white space allowed only between
    bytes; [None] is [ValueError]. *)
Fixpoint fromhex_chars (cs : list ascii) : option (list byte) :=
  match cs with
  | [] => Some []
  | c :: rest =>
      if is_space c then fromhex_chars rest
      else
        match digit_value c with
        | None => None
        | Some top =>
            match rest with
            | [] => None
            | d :: rest' =>
                match digit_value d with
                | None => None
                | Some bot =>
                    cons (Base64.byte_of (N.shiftl top 4 + bot)) <$> fromhex_chars rest'
                end
            end
        end
  end.

Definition fromhex (s : string) : option (list byte) :=
  fromhex_chars (list_ascii_of_string s).

Definition upper_digit (n : N) : ascii :=
  ascii_of_N (if n <? 10 then 48 + n else 55 + n).

Fixpoint hex_upper_chars (bs : list byte) : list ascii :=
  match bs with
  | [] => []
  | b :: rest =>
      upper_digit (N.shiftr (Byte.to_N b) 4) :: upper_digit (N.land (Byte.to_N b) 15)
        :: hex_upper_chars rest
  end.

(** [bs.hex().upper()]. *)
Definition hex_upper (bs : list byte) : string :=
  string_of_list_ascii (hex_upper_chars bs).

End Hex.

(** The value of a byte, as indexing a [bytes] object gives it. *)
Definition byte_value (b : byte) : Z := Z.of_N (Byte.to_N b).

(** One turn of the inner loop of [compute_crc]. *)
Definition crc_shift (crc : Z) : Z :=
  if Z.testbit crc 0 then Z.lxor (Z.shiftr crc 1) 0xA001 else Z.shiftr crc 1.

(** One turn of its outer loop: fold a byte in, then eight shifts. *)
Definition crc_update (crc : Z) (b : byte) : Z :=
  Nat.iter 8 crc_shift (Z.lxor crc (byte_value b)).

(** [compute_crc(data)]. *)
Definition compute_crc (data : list byte) : Z :=
  Z.land (fold_left crc_update data 0xFFFF) 0xFFFF.

(** [bytearray.append(x)]: [None] is the [ValueError] for a value outside
    [range(0, 256)]. *)
Definition append_byte (payload : list byte) (x : Z) : option (list byte) :=
  if (0 <=? x) && (x <? 256)
  then Some (payload ++ [Base64.byte_of (Z.to_N x)])%list
  else None.

(** The two trailing bytes of a frame: low byte of the CRC first. *)
Definition crc_trailer (crc : Z) : list byte :=
  [Base64.byte_of (Z.to_N (Z.land crc 0xFF));
   Base64.byte_of (Z.to_N (Z.land (Z.shiftr crc 8) 0xFF))].

(** Answers of the simulator routes. *)
Inductive sim_reply : Type :=
| Frame (hex : string)                 (* 200 {'frame': ...} *)
| SimError (error : string)            (* 400 {'error': ...} *)
| SimValueError.                       (* ValueError left the handler: 500 *)

(** The body of a request to a simulator route, as
    [request.get_json(silent=True)] returns it: [NoJson] for a body that
    is missing or does not parse, else the JSON value.  Of a value that is
    not a string only the distinction the routes make is kept. *)
Inductive json_value : Type :=
| JStr (s : string)
| JOther.                               (* null, a number, an array, ... *)

Inductive sim_body : Type :=
| NoJson
| JsonNull
| JsonBool (b : bool)
| JsonNumber (is_zero : bool)
| JsonString (s : string)
| JsonArray (items : list json_value)
| JsonObject (fields : gmap string json_value).

Global Instance json_value_eq_dec : EqDecision json_value.
Proof. solve_decision. Defined.

(** Lines 500-503 and 569-572: [if not j or 'frame' not in j] answers
    'no frame provided' ([Ret None] here), else the frame is [j['frame']].
    On a body that is no object the membership test or the subscript
    raises [TypeError]: a number or [true] is not iterable, and a string
    or an array that contains 'frame' is subscripted with a string. *)
Definition frame_of_body (j : sim_body) : outcome (option json_value) :=
  match j with
  | NoJson | JsonNull => Ret None
  | JsonBool b => if b then Raise TypeError else Ret None
  | JsonNumber is_zero => if is_zero then Ret None else Raise TypeError
  | JsonString s => if contains "frame" s then Raise TypeError else Ret None
  | JsonArray items =>
      if bool_decide (JStr "frame" ∈ items) then Raise TypeError else Ret None
  | JsonObject fields => Ret (fields !! "frame")
  end.

(** [inverter_write()] from line 573 on, for the frame of the request:
    [None] stands for the answer of line 571, given to a falsy body and
    to an object without the key. *)
Definition inverter_write (frame : option string) : sim_reply :=
  match frame with
  | None => SimError "no frame provided"
  | Some hex_frame =>
      match Hex.fromhex hex_frame with
      | None => SimError "invalid hex"
      | Some data =>
          if 6 <=? Z.of_nat (length data) then
            let core := slice data 0 (-2) in
            let crc := compute_crc core in
            let resp := (core ++ crc_trailer crc)%list in
            Frame (Hex.hex_upper resp)
          else SimError "frame too short"
      end
  end.

(** The value the simulator gives a register that was never configured
    (lines 536-557); [i] is the position in the request. *)
Definition default_register (addr i : Z) : Z :=
  if addr =? 0 then 2300
  else if addr =? 1 then 25
  else if addr =? 2 then 5000
  else if addr =? 3 then 3200
  else if addr =? 4 then 3150
  else if addr =? 5 then 85
  else if addr =? 6 then 82
  else if addr =? 7 then 350
  else if addr =? 8 then 75
  else if addr =? 9 then 1850
  else (i + 1) * 10.

(** The two bytes appended for the register at position [i]. *)
Definition register_bytes (SIM_REGISTERS : gmap Z Z) (start_addr i : Z) : list byte :=
  let addr := start_addr + i in
  let val := default (default_register addr i) (SIM_REGISTERS !! addr) in
  [Base64.byte_of (Z.to_N (Z.land (Z.shiftr val 8) 0xFF));
   Base64.byte_of (Z.to_N (Z.land val 0xFF))].

(** [data[k]] once the length check has passed. *)
Definition byte_at (data : list byte) (k : nat) : Z :=
  byte_value (nth k data x00).

(** [inverter_read()] from line 504 on, likewise, on the simulator's
    register map and exception set. *)
Definition inverter_read (SIM_REGISTERS : gmap Z Z) (SIM_EXCEPTIONS : gset Z)
    (frame : option string) : sim_reply :=
  match frame with
  | None => SimError "no frame provided"
  | Some hex_frame =>
      match Hex.fromhex hex_frame with
      | None => SimError "invalid hex"
      | Some data =>
          if Z.of_nat (length data) <? 8 then SimError "frame too short"
          else
            let slave := nth 0 data x00 in
            let func := byte_at data 1 in
            if func =? 3 then
              let num_regs := Z.lor (Z.shiftl (byte_at data 4) 8) (byte_at data 5) in
              let start_addr := Z.lor (Z.shiftl (byte_at data 2) 8) (byte_at data 3) in
              if bool_decide (start_addr ∈ SIM_EXCEPTIONS) then
                let payload := [slave; x83; x02] in
                Frame (Hex.hex_upper (payload ++ crc_trailer (compute_crc payload)))
              else
                let byte_count := num_regs * 2 in
                match append_byte [slave; x03] byte_count with
                | None => SimValueError
                | Some payload =>
                    let payload :=
                      (payload ++ flat_map (register_bytes SIM_REGISTERS start_addr)
                                    (seqZ 0 num_regs))%list in
                    Frame (Hex.hex_upper (payload ++ crc_trailer (compute_crc payload)))
                end
            else SimError "unsupported function in sim"
      end
  end.

(** The two routes on the parsed body.  On a frame that is not a string
    [bytes.fromhex] raises [TypeError], which the handler catches and
    answers like hex text that does not parse. *)
Definition inverter_write_route (j : sim_body) : outcome sim_reply :=
  match frame_of_body j with
  | Raise e => Raise e
  | Ret None => Ret (inverter_write None)
  | Ret (Some (JStr hex_frame)) => Ret (inverter_write (Some hex_frame))
  | Ret (Some JOther) => Ret (SimError "invalid hex")
  end.

Definition inverter_read_route (SIM_REGISTERS : gmap Z Z) (SIM_EXCEPTIONS : gset Z)
    (j : sim_body) : outcome sim_reply :=
  match frame_of_body j with
  | Raise e => Raise e
  | Ret None => Ret (inverter_read SIM_REGISTERS SIM_EXCEPTIONS None)
  | Ret (Some (JStr hex_frame)) =>
      Ret (inverter_read SIM_REGISTERS SIM_EXCEPTIONS (Some hex_frame))
  | Ret (Some JOther) => Ret (SimError "invalid hex")
  end.

(** ** The demonstration client ([security_demo.py]) *)

Definition DEVICE_ID : string := "EcoWatt001".

Section Client.

Variable hmac_sha256_hex : list byte -> list byte -> string.

(** [create_hmac_signature(endpoint, nonce, timestamp)]. *)
Definition create_hmac_signature (endpoint : string) (nonce timestamp : Z) : string :=
  let hmac_input := endpoint ++ str nonce ++ str timestamp in
  hmac_sha256_hex PSK (encode hmac_input).

(** The request [make_authenticated_request] sends, as the server reads
    it; [endpoint] is a path without query string. *)
Definition make_authenticated_request (endpoint : string) (nonce timestamp : Z)
    : request :=
  let mac := create_hmac_signature endpoint nonce timestamp in
  Request endpoint (Some DEVICE_ID) None (Some (str nonce)) (Some (str timestamp))
    (Some mac) None None [].

End Client.

(** ** Nonce recovery of the device ([test_recovery_nonce.py]) *)

(** [simulate_recovery_nonce(current_nonce, uptime_ms)]. *)
Definition simulate_recovery_nonce (current_nonce uptime_ms : Z) : Z :=
  let recovery_base := current_nonce in
  let recovery_base :=
    if 60000 <? uptime_ms then
      let estimated_requests := uptime_ms / 30000 + 1 in
      Z.max recovery_base estimated_requests
    else recovery_base in
  let recovery_base := recovery_base + 50 in
  if 100 <? current_nonce then current_nonce + 10 else recovery_base.

(** [is_nonce_valid_enhanced(nonce, last_received, window, max_first_sync)]. *)
Definition is_nonce_valid_enhanced (nonce last_received window max_first_sync : Z)
    : bool :=
  if last_received =? 0 then (0 <? nonce) && (nonce <=? max_first_sync)
  else (last_received <? nonce) && (nonce <=? last_received + window).

(** ** Server status *)

(** The answer of [get_server_status()]. *)
Record server_status : Type := ServerStatus {
  security_enabled : bool;
  nonce_window : Z;
  nonce_expiry_seconds : Q;
  device_nonces : gmap string Z;
  server_nonce_counter : Z;
  total_security_events : Z;
  total_devices_active : Z
}.

(** [v['nonce']]: subscripting a bare integer raises [TypeError]. *)
Definition is_session (e : nonce_entry) : bool :=
  match e with NDict _ _ => true | NInt _ => false end.

Definition session_nonce (e : nonce_entry) : option Z :=
  match e with NDict n _ => Some n | NInt _ => None end.

(** [get_server_status()]; the dictionary comprehension over
    [NONCE_STORE] raises as soon as it meets a bare integer. *)
Definition get_server_status (st : security) : outcome server_status :=
  if bool_decide (map_Forall (fun _ e => is_session e = true) (NONCE_STORE st)) then
    Ret (ServerStatus SECURITY_ENABLED NONCE_WINDOW NONCE_EXPIRY_SECONDS
           (omap session_nonce (NONCE_STORE st))
           (SERVER_NONCE_COUNTER st)
           (Z.of_nat (length (SECURITY_LOGS st)))
           (Z.of_nat (size (NONCE_STORE st))))
  else Raise TypeError.

(** ** Command forwarding *)

(** [command_data]: the action with its target register and value, which
    are JSON numbers ([None] is JSON null or an absent key). *)
Record command_data : Type := CommandData {
  cd_action : string;
  cd_target_register : option Z;
  cd_value : option Q
}.

(** What a pending command carries besides nonce and MAC: the command in
    the clear, or the encrypted payload. *)
Inductive command_body : Type :=
| PlainCommand (c : command_data)
| EncryptedCommand (ciphertext : string).

(** An entry of [PENDING_COMMANDS]. *)
Record command : Type := Command {
  cmd_nonce : Z;
  cmd_body : command_body;
  cmd_mac : string
}.


(** Body of [POST /api/inverter/command/result]; the last four fields are
    the keys of its [command_result] object. *)
Record command_result : Type := CommandResult {
  res_nonce : option Z;
  res_status : option string;
  res_executed_at : option string;
  res_modbus_response : option string;
  res_modbus_frame : option string
}.

(** An entry of [COMMAND_RESULTS]: the body with the two keys the handler
    adds. *)
Record stored_result : Type := StoredResult {
  kept_result : command_result;
  kept_device_id : string;
  kept_received_at : Q
}.

(** An entry of [COMMAND_HISTORY]; [h_outcome] holds the keys
    [executed_at] and [modbus_response] once a result has been matched. *)
Record history_entry : Type := HistoryEntry {
  h_device_id : string;
  h_timestamp : Q;
  h_nonce : Z;
  h_command : command_data;
  h_status : string;
  h_encrypted : bool;
  h_outcome : option (option string * string)
}.

(** The detail text of a command log line, kept as the values it prints. *)
Inductive command_details : Type :=
| QueuedDetails (c : command_data) (encrypted : bool)
| ResultDetails (nonce : option Z) (executed_at : option string) (modbus_response : string)
| FrameDetails (frame : string)
| CompletedDetails (nonce : option Z) (status : string).

(** An entry of [COMMAND_LOGS]. *)
Record command_event : Type := CommandEvent {
  ce_timestamp : Q;
  ce_device_id : string;
  ce_type : string;
  ce_details : command_details
}.

(** The module-level state of command forwarding. *)
Record commands : Type := Commands {
  PENDING_COMMANDS : gmap string command;
  COMMAND_RESULTS : list stored_result;
  COMMAND_HISTORY : list history_entry;
  COMMAND_LOGS : list command_event
}.

(** Answers of the command routes. *)
Inductive command_response : Type :=
| CommandQueued (nonce : Z) (encrypted : bool)    (* 200 *)
| ResultReceived                                  (* 200 *)
| ResultRefused                                   (* 403, replay *)
| EncryptionFailed                                (* encrypt_payload raised: 500 *)
| CommandUnhandled (e : exn).                     (* exception left the handler: 500 *)

Definition log_command_event (device_id event_type : string)
    (details : command_details) (now : Q) (cs : commands) : commands :=
  Commands (PENDING_COMMANDS cs) (COMMAND_RESULTS cs) (COMMAND_HISTORY cs)
    (COMMAND_LOGS cs ++ [CommandEvent now device_id event_type details])%list.

(** The loop of lines 940-945: the first history entry of the device with
    the nonce takes the result; a result without nonce matches none. *)
Fixpoint mark_first (device_id : string) (nonce : option Z)
    (update : history_entry -> history_entry) (history : list history_entry)
    : list history_entry :=
  match history with
  | [] => []
  | entry :: rest =>
      if String.eqb (h_device_id entry) device_id
         && match nonce with Some n => h_nonce entry =? n | None => false end
      then update entry :: rest
      else entry :: mark_first device_id nonce update rest
  end.

Section Commands.

Variable hmac_sha256_hex : list byte -> list byte -> string.

(** [json.dumps(command_data)]. *)
Variable json_dumps_command : command_data -> string.


End Commands.


(** [receive_command_result()] for the Device-ID header [header] and the
    parsed body. *)
Definition receive_command_result (header : option string) (result : command_result)
    (now : Q) (st : security) (cs : commands)
    : command_response * security * commands :=
  let device_id := first_truthy [header] "EcoWatt001" in
  let nonce := res_nonce result in
  let checked : outcome bool * security :=
    match nonce with
    | Some n => if n =? 0 then (Ret true, st) else check_nonce device_id n now st
    | None => (Ret true, st)
    end in
  match checked with
  | (Raise e, st) => (CommandUnhandled e, st, cs)
  | (Ret false, st) =>
      (ResultRefused,
       log_security_event device_id "replay_attack_command_result"
         ("Nonce: " ++ from_option str "None" nonce) now st,
       cs)
  | (Ret true, st) =>
      let status := default "unknown" (res_status result) in
      let executed_at := res_executed_at result in
      let modbus_response := default "N/A" (res_modbus_response result) in
      let modbus_frame := default "N/A" (res_modbus_frame result) in
      let update (entry : history_entry) :=
        HistoryEntry (h_device_id entry) (h_timestamp entry) (h_nonce entry)
          (h_command entry) status (h_encrypted entry)
          (Some (executed_at, modbus_response)) in
      let cs := Commands (PENDING_COMMANDS cs)
                  (COMMAND_RESULTS cs ++ [StoredResult result device_id now])%list
                  (mark_first device_id nonce update (COMMAND_HISTORY cs))
                  (COMMAND_LOGS cs) in
      let cs := log_command_event device_id ("command_result_" ++ status)
                  (ResultDetails nonce executed_at modbus_response) now cs in
      let cs := if String.eqb modbus_frame "N/A" then cs
                else log_command_event device_id "modbus_frame_sent"
                       (FrameDetails modbus_frame) now cs in
      let cs :=
        match PENDING_COMMANDS cs !! device_id with
        | Some pending =>
            if match nonce with Some n => cmd_nonce pending =? n | None => false end
            then
              log_command_event device_id "command_completed"
                (CompletedDetails nonce status) now
                (Commands (delete device_id (PENDING_COMMANDS cs)) (COMMAND_RESULTS cs)
                   (COMMAND_HISTORY cs) (COMMAND_LOGS cs))
            else cs
        | None => cs
        end in
      (ResultReceived, st, cs)
  end.

(** ** Stand-ins for running examples *)

(** A keyed digest and a hash that can be evaluated; they stand in for
    HMAC-SHA256 and SHA-256 where a statement is run on concrete data. *)
Definition toy_hmac (key msg : list byte) : string :=
  "mac:" ++ decode msg.

Definition toy_sha256 (msg : list byte) : string :=
  "sha:" ++ str (Z.of_nat (length msg)).

(** ** Vocabulary of the statements *)

(** Well-formed security headers: all three present and non-empty, the
    nonce a decimal integer. *)
Definition headers_of (req : request) (ns ts ms : string) (n : Z) : Prop :=
  req_nonce req = Some ns /\ req_timestamp req = Some ts /\ req_mac req = Some ms
  /\ int_of_str ns = Some n /\ ts <> "" /\ ms <> "".

(** A device whose stored session is a bare non-zero nonce, as the upload
    route and [check_nonce] write it. *)
Definition bare_session (device : option string) (st : security) : bool :=
  match device with
  | Some (String c d) =>
      match NONCE_STORE st !! String c d with
      | Some (NInt k) => negb (k =? 0)
      | _ => false
      end
  | _ => false
  end.

(** A string without any of the characters that [int] strips. *)
Fixpoint no_space (s : string) : bool :=
  match s with
  | EmptyString => true
  | String c rest => negb (is_int_space c) && no_space rest
  end.


(** Result of opening an envelope. *)
Inductive opened : Type :=
| Verified (payload : string)
| Failed (reason : string).

Section Wire.

Variable hmac_sha256_hex : list byte -> list byte -> string.

(** The MAC the header check expects. *)
Definition header_mac (req : request) (ns ts : string) : string :=
  hmac_sha256_hex PSK (encode (req_path req ++ ns ++ ts)).

(** The MAC an upload envelope must carry. *)
Definition envelope_mac (nonce timestamp : Z) (encrypted : bool) (payload : string)
    : string :=
  hmac_sha256_hex PSK (encode (str nonce ++ str timestamp
                    ++ (if encrypted then "1" else "0") ++ payload)).

(** A secured upload as a device sends it, with a correct MAC. *)
Definition secured_upload (device_id : string) (nonce timestamp : Z)
    (payload : string) (body : list byte) : request :=
  Request "/api/upload" (Some device_id) None None None None
    (Some "application/json")
    (Some (EnvelopeJson (Some nonce) (Some timestamp) (Some false) (Some payload)
             (Some (envelope_mac nonce timestamp false payload))))
    body.

(** Modelled from the spec: [Open] of the envelope codec (section 4.1),
    whose implementation is on the device and not among the Python
    sources.  The MAC is recomputed over nonce, timestamp, flag bit and
    encoded payload in that order and compared; only on a match is the
    payload decoded, from base64 when the encryption flag is set. *)
Definition open_envelope (e : envelope) : opened :=
  let expected := envelope_mac (nonce e) (timestamp e) (encrypted e) (payload e) in
  if String.eqb expected (mac e) then
    if encrypted e then
      match Base64.b64decode (payload e) with
      | Some bs => Verified (decode_utf8 bs)
      | None => Failed "undecodable payload"
      end
    else Verified (payload e)
  else Failed "MAC mismatch".

End Wire.

(** A poll with nonce 5 and a correct MAC, sent at t = 1100. *)
Definition stale_poll : request :=
  Request "/api/inverter/config" (Some "D") None (Some "5") (Some "1100")
    (Some (toy_hmac PSK (encode ("/api/inverter/config" ++ "5" ++ "1100"))))
    None None [].

(** The record that the averaging loop emits for one item. *)
Definition averaged (now : Q) (item : Z * list pyfloat) : option averaged_sample :=
  match item.2 with
  | [] => None
  | _ => Some (AveragedSample (int_of_float now) item.1 (round3 (mean item.2)))
  end.

(** The two samples of the worked example: register 5, values 12.0 and
    14.0, one second apart. *)
Definition two_samples (t0 : Z) : list sample :=
  [Sample t0 5 (of_int 12); Sample (t0 + 1) 5 (of_int 14)].

(** What one device can observe of the aggregator: its buffer and its
    flushed records. *)
Definition view (d : string) (agg : aggregator) : option buffer * list upload_record :=
  (BUFFERS agg !! d, records_of d agg).

(** [seen] is the clock reading of the device's latest ingest whenever its
    buffer holds data. *)
Definition tracks (d : string) (seen : option Q) (agg : aggregator) : Prop :=
  forall b, BUFFERS agg !! d = Some b -> has_any (reg_values b) = true ->
            seen = Some (last_seen b).

(** The rollback flag of a device, as [check_rollback_status] reads it. *)
Definition flag_set (d : string) (f : fota) : bool :=
  match FOTA_STATUS f !! d with
  | Some entry => truthy (default PNone (entry !! "rollback_requested"))
  | None => false
  end.

(** Operations that leave a device's registry entry alone: requests and
    reports addressed to other devices, and polls of other devices. *)
Definition leaves_alone (d : string) (op : fota_op) : Prop :=
  match op with
  | RequestRollback req _ => default "all" (rb_device_id req) <> d
  | CheckRollback header => default "unknown" header <> d
  | ReportStatus device_id _ _ => device_id <> d
  end.

(** A chunk table of four chunks. *)
Definition four_chunks : fota :=
  Fota None (list_to_map ((fun i => (i, Chunk i "" "" 0)) <$> [0; 1; 2; 3])) ∅ [].

(** A poll of the configuration route with a correct MAC. *)
Definition signed_poll (hmac_sha256_hex : list byte -> list byte -> string)
    (device_id ns ts : string) : request :=
  Request "/api/inverter/config" (Some device_id) None (Some ns) (Some ts)
    (Some (hmac_sha256_hex PSK (encode ("/api/inverter/config" ++ ns ++ ts))))
    None None [].

(** The record a flush of the buffer [b] writes at [now]. *)
Definition flushed_record (d : string) (now : Q) (b : buffer) : upload_record :=
  UploadRecord now d (received_bytes b)
    (omap (averaged now) (sorted_items (reg_values b))).

(** Bytes a trace has ingested for a device. *)
Fixpoint ingested_bytes (d : string) (trace : list event) : Z :=
  match trace with
  | [] => 0
  | Ingest k payload _ :: rest =>
      (if String.eqb k d then Z.of_nat (length payload) else 0) + ingested_bytes d rest
  | Sweep _ :: rest => ingested_bytes d rest
  end.

(** Bytes waiting in a device's buffer, and bytes accounted for by its
    flushed records. *)
Definition buffered_bytes (d : string) (agg : aggregator) : Z :=
  from_option received_bytes 0 (BUFFERS agg !! d).

Definition flushed_bytes (d : string) (agg : aggregator) : Z :=
  foldr Z.add 0 (ur_bytes <$> records_of d agg).

(** The values buffered for a register of a device, in buffer order. *)
Definition buffered_values (d : string) (r : Z) (agg : aggregator) : list pyfloat :=
  default [] (BUFFERS agg !! d ≫= fun b => reg_values b !! r).

(** What a device obtains that fetches the chunks [indices] in turn,
    decodes each and appends the bytes; [None] when a chunk is missing or
    does not decode. *)
Fixpoint download (f : fota) (indices : list Z) : option (list byte) :=
  match indices with
  | [] => Some []
  | i :: rest =>
      match get_fota_chunk i f with
      | Some c =>
          match Base64.b64decode (data c), download f rest with
          | Some bs, Some tail => Some (bs ++ tail)%list
          | _, _ => None
          end
      | None => None
      end
  end.

(** * Properties *)

(** ** Base64 round trip *)

Module Base64Facts.

Import Base64.
Local Open Scope N_scope.

Lemma forall_below (n : nat) (P : N -> bool) :
  forallb P (below n) = true ->
  forall s, s < N.of_nat n -> P s = true.
Proof.
  intros H s Hs. rewrite forallb_forall in H. apply H.
  unfold below. apply in_map_iff. exists (N.to_nat s). split.
  - apply N2Nat.id.
  - apply in_seq. lia.
Qed.

(** A boolean property checked on all pairs of byte values holds of
    any two bytes. *)
Lemma forall_bytes2 (P : N -> N -> bool) :
  forallb (fun x => forallb (P x) (below 256)) (below 256) = true ->
  forall a b : byte, P (Byte.to_N a) (Byte.to_N b) = true.
Proof.
  intros H a b.
  pose proof (Byte.to_N_bounded a). pose proof (Byte.to_N_bounded b).
  apply (forall_below 256); [|lia].
  apply (forall_below 256 (fun x => forallb (P x) (below 256))); [exact H|lia].
Qed.

Lemma byte_of_to_N (b : byte) : byte_of (Byte.to_N b) = b.
Proof.
  unfold byte_of. pose proof (Byte.to_N_bounded b).
  rewrite N.mod_small by lia. now rewrite Byte.of_to_N.
Qed.

Lemma a2b_b2a (s : N) : s < 64 -> a2b (b2a s) = Some s.
Proof.
  intros Hs.
  pose proof (forall_below 64
    (fun s => match a2b (b2a s) with Some t => t =? s | None => false end)
    ltac:(vm_compute; reflexivity) s Hs) as H.
  cbv beta in H. destruct (a2b (b2a s)) as [t|]; [|discriminate H].
  apply N.eqb_eq in H. now subst t.
Qed.

Lemma b2a_is_ascii (s : N) : s < 64 -> is_ascii (b2a s) = true.
Proof.
  intros Hs.
  exact (forall_below 64 (fun s => is_ascii (b2a s))
           ltac:(vm_compute; reflexivity) s Hs).
Qed.

Lemma b2a_not_pad (s : N) : s < 64 -> Ascii.eqb (b2a s) pad = false.
Proof.
  intros Hs. apply Ascii.eqb_neq. intros E.
  pose proof (a2b_b2a s Hs) as H. rewrite E in H. discriminate H.
Qed.

(** Facts about the sextets of arbitrary byte values, each checked on
    all 65536 pairs. *)
Lemma sextets_small (a b : byte) :
  let x := Byte.to_N a in
  let y := Byte.to_N b in
  sextet0 x < 64 /\ sextet1 x y < 64 /\ sextet2 x y < 64 /\ sextet3 x < 64.
Proof.
  pose proof (forall_bytes2
    (fun x y => (sextet0 x <? 64) && (sextet1 x y <? 64)
                && (sextet2 x y <? 64) && (sextet3 x <? 64))) as H.
  specialize (H ltac:(vm_compute; reflexivity) a b). cbv beta in H.
  repeat (apply andb_prop in H; destruct H as [H ?]).
  repeat split; now apply N.ltb_lt.
Qed.

Lemma first_byte (a b : byte) :
  let x := Byte.to_N a in
  let y := Byte.to_N b in
  N.lor (N.shiftl (sextet0 x) 2) (N.shiftr (sextet1 x y) 4) = x.
Proof.
  pose proof (forall_bytes2
    (fun x y => N.lor (N.shiftl (sextet0 x) 2) (N.shiftr (sextet1 x y) 4) =? x)) as H.
  specialize (H ltac:(vm_compute; reflexivity) a b). now apply N.eqb_eq in H.
Qed.

Lemma second_left (a b : byte) :
  let x := Byte.to_N a in
  let y := Byte.to_N b in
  N.land (sextet1 x y) 15 = N.shiftr y 4.
Proof.
  pose proof (forall_bytes2
    (fun x y => N.land (sextet1 x y) 15 =? N.shiftr y 4)) as H.
  specialize (H ltac:(vm_compute; reflexivity) a b). now apply N.eqb_eq in H.
Qed.

Lemma second_byte (b c : byte) :
  let y := Byte.to_N b in
  let z := Byte.to_N c in
  N.lor (N.shiftl (N.shiftr y 4) 4) (N.shiftr (sextet2 y z) 2) = y.
Proof.
  pose proof (forall_bytes2
    (fun y z => N.lor (N.shiftl (N.shiftr y 4) 4) (N.shiftr (sextet2 y z) 2) =? y)) as H.
  specialize (H ltac:(vm_compute; reflexivity) b c). now apply N.eqb_eq in H.
Qed.

Lemma third_byte (b c : byte) :
  let y := Byte.to_N b in
  let z := Byte.to_N c in
  N.lor (N.shiftl (N.land (sextet2 y z) 3) 6) (sextet3 z) = z.
Proof.
  pose proof (forall_bytes2
    (fun y z => N.lor (N.shiftl (N.land (sextet2 y z) 3) 6) (sextet3 z) =? z)) as H.
  specialize (H ltac:(vm_compute; reflexivity) b c). now apply N.eqb_eq in H.
Qed.

(** One scanner step on an alphabet character, by quad position. *)
Lemma scan_char (s : N) rest quad_pos leftchar pads acc :
  s < 64 ->
  a2b_scan (b2a s :: rest) quad_pos leftchar pads acc =
  match quad_pos with
  | 0 => a2b_scan rest 1 s 0 acc
  | 1 => a2b_scan rest 2 (N.land s 15) 0
           (byte_of (N.lor (N.shiftl leftchar 2) (N.shiftr s 4)) :: acc)
  | 2 => a2b_scan rest 3 (N.land s 3) 0
           (byte_of (N.lor (N.shiftl leftchar 4) (N.shiftr s 2)) :: acc)
  | _ => a2b_scan rest 0 0 0 (byte_of (N.lor (N.shiftl leftchar 6) s) :: acc)
  end.
Proof.
  intros Hs. cbn [a2b_scan].
  now rewrite (b2a_not_pad s Hs), (a2b_b2a s Hs).
Qed.

Lemma list_ind3 {A} (P : list A -> Prop) :
  P [] ->
  (forall a, P [a]) ->
  (forall a b, P [a; b]) ->
  (forall a b c l, P l -> P (a :: b :: c :: l)) ->
  forall l, P l.
Proof.
  intros H0 H1 H2 H3.
  fix IH 1. intros [|a [|b [|c l]]].
  - exact H0.
  - apply H1.
  - apply H2.
  - apply H3, IH.
Qed.

Lemma scan_encode (bs : list byte) :
  forall acc, a2b_scan (b64encode_chars bs) 0 0 0 acc = Some (rev acc ++ bs)%list.
Proof.
  induction bs as [|a|a b|a b c l IH] using list_ind3; intros acc.
  - cbn. now rewrite app_nil_r.
  - cbn [b64encode_chars].
    destruct (sextets_small a x00) as (S0 & S1 & _ & _). cbn zeta in S0, S1.
    change (Byte.to_N x00) with 0 in S1.
    rewrite scan_char by exact S0. rewrite scan_char by exact S1.
    pose proof (first_byte a x00) as F. cbn zeta in F.
    change (Byte.to_N x00) with 0 in F. rewrite F, byte_of_to_N.
    reflexivity.
  - cbn [b64encode_chars].
    destruct (sextets_small a b) as (S0 & S1 & _ & _). cbn zeta in S0, S1.
    destruct (sextets_small b x00) as (_ & _ & S2 & _). cbn zeta in S2.
    change (Byte.to_N x00) with 0 in S2.
    rewrite scan_char by exact S0. rewrite scan_char by exact S1.
    rewrite scan_char by exact S2.
    rewrite (first_byte a b), byte_of_to_N, (second_left a b).
    pose proof (second_byte b x00) as F. cbn zeta in F.
    change (Byte.to_N x00) with 0 in F. rewrite F, byte_of_to_N.
    cbn. now rewrite <- !app_assoc.
  - cbn [b64encode_chars].
    destruct (sextets_small a b) as (S0 & S1 & _ & _). cbn zeta in S0, S1.
    destruct (sextets_small b c) as (_ & _ & S2 & _). cbn zeta in S2.
    destruct (sextets_small c c) as (_ & _ & _ & S3). cbn zeta in S3.
    rewrite scan_char by exact S0. rewrite scan_char by exact S1.
    rewrite scan_char by exact S2. rewrite scan_char by exact S3.
    rewrite (first_byte a b), byte_of_to_N, (second_left a b).
    rewrite (second_byte b c), byte_of_to_N.
    rewrite (third_byte b c), byte_of_to_N.
    rewrite IH. cbn [rev]. now rewrite <- !app_assoc.
Qed.

Lemma encode_is_ascii (bs : list byte) :
  forallb is_ascii (b64encode_chars bs) = true.
Proof.
  induction bs as [|a|a b|a b c l IH] using list_ind3.
  - reflexivity.
  - destruct (sextets_small a x00) as (S0 & S1 & _ & _). cbn zeta in S0, S1.
    cbn [b64encode_chars forallb].
    now rewrite !b2a_is_ascii.
  - destruct (sextets_small a b) as (S0 & S1 & _ & _). cbn zeta in S0, S1.
    destruct (sextets_small b x00) as (_ & _ & S2 & _). cbn zeta in S2.
    cbn [b64encode_chars forallb].
    now rewrite !b2a_is_ascii.
  - destruct (sextets_small a b) as (S0 & S1 & _ & _). cbn zeta in S0, S1.
    destruct (sextets_small b c) as (_ & _ & S2 & _). cbn zeta in S2.
    destruct (sextets_small c c) as (_ & _ & _ & S3). cbn zeta in S3.
    cbn [b64encode_chars forallb].
    now rewrite !b2a_is_ascii, IH.
Qed.

Lemma chars_of_encoding (bs : list byte) :
  list_ascii_of_string (Py.decode (b64encode bs)) = b64encode_chars bs.
Proof.
  unfold Py.decode, b64encode, string_of_list_byte.
  rewrite list_ascii_of_string_of_list_ascii, map_map.
  erewrite map_ext; [apply map_id|].
  intros c. apply ascii_of_byte_of_ascii.
Qed.

(** Decoding an encoding gives the bytes back. *)
Lemma b64decode_b64encode (bs : list byte) :
  b64decode (Py.decode (b64encode bs)) = Some bs.
Proof.
  unfold b64decode.
  rewrite chars_of_encoding, encode_is_ascii.
  apply scan_encode.
Qed.

Example b64encode_Man : Py.decode (b64encode (Py.encode "Man")) = "TWFu".
Proof. reflexivity. Qed.

Example b64encode_Ma : Py.decode (b64encode (Py.encode "Ma")) = "TWE=".
Proof. reflexivity. Qed.

Example b64decode_skips : b64decode "T W.E=" = Some (Py.encode "Ma").
Proof. reflexivity. Qed.

Example b64decode_truncated : b64decode "TWF" = None.
Proof. reflexivity. Qed.


End Base64Facts.

(** ** Authentication gate *)

Section GateFacts.

Variable hmac : list byte -> list byte -> string.


Lemma int_of_str_nonempty (s : string) (n : Z) : int_of_str s = Some n -> s <> "".
Proof. intros H ->. discriminate H. Qed.

Lemma compare_digest_refl (m : string) : compare_digest m m = Ret true.
Proof. unfold compare_digest. now rewrite String.eqb_refl. Qed.

Lemma compare_digest_neq (m ms : string) :
  ms <> m ->
  compare_digest m ms = if isascii ms then Ret false else Raise TypeError.
Proof.
  intros Hne. unfold compare_digest.
  now rewrite (proj2 (String.eqb_neq m ms)) by congruence.
Qed.

Ltac open_headers H :=
  destruct H as (Hn & Ht & Hm & Hint & Hts & Hms);
  pose proof (int_of_str_nonempty _ _ Hint) as Hns;
  unfold verify_request_security; cbn [SECURITY_ENABLED negb];
  rewrite Hn, Ht, Hm;
  match goal with
  | Hns : ?ns <> "", Hts : ?ts <> "", Hms : ?ms <> "" |- _ =>
      destruct ns as [|n0 n1]; [congruence|];
      destruct ts as [|t0 t1]; [congruence|];
      destruct ms as [|m0 m1]; [congruence|]
  end;
  rewrite Hint.

(** A replayed nonce on a live session: failure result, and nothing but
    the security log changes. *)
Lemma verify_live_replay dev req now st last seen ns ts ms n :
  NONCE_STORE st !! dev = Some (NDict last seen) ->
  (now - seen <= NONCE_EXPIRY_SECONDS)%Q ->
  headers_of req ns ts ms n ->
  n <= last ->
  exists msg,
    verify_request_security hmac dev req now st
    = (Ret (false, Some msg), log_security_event dev "replay_attack" msg now st).
Proof.
  intros Hs Hlive Hh Hle. open_headers Hh.
  rewrite Hs. cbn [entry_truthy].
  destruct (Qlt_le_dec NONCE_EXPIRY_SECONDS (now - seen)) as [Hexp|_].
  - exfalso. apply (Qlt_not_le _ _ Hexp Hlive).
  - assert (E : (n <=? last) = true) by (apply Z.leb_le; exact Hle).
    rewrite E. eexists. reflexivity.
Qed.

(** A larger nonce on a live session with the right MAC: success, and the
    session becomes [(nonce, now)], however far ahead the nonce is. *)
Lemma verify_live_fresh dev req now st last seen ns ts n :
  NONCE_STORE st !! dev = Some (NDict last seen) ->
  (now - seen <= NONCE_EXPIRY_SECONDS)%Q ->
  headers_of req ns ts (header_mac hmac req ns ts) n ->
  last < n ->
  exists st',
    verify_request_security hmac dev req now st = (Ret (true, None), st')
    /\ NONCE_STORE st' = <[dev := NDict n now]> (NONCE_STORE st).
Proof.
  intros Hs Hlive Hh Hlt.
  pose proof Hh as (_ & _ & _ & _ & _ & Hmac).
  unfold header_mac in Hh, Hmac.
  remember (hmac PSK (encode (req_path req ++ ns ++ ts))) as m eqn:Em.
  open_headers Hh.
  rewrite Hs. cbn [entry_truthy].
  destruct (Qlt_le_dec NONCE_EXPIRY_SECONDS (now - seen)) as [Hexp|_].
  - exfalso. apply (Qlt_not_le _ _ Hexp Hlive).
  - assert (E : (n <=? last) = false) by (apply Z.leb_gt; exact Hlt).
    rewrite E. rewrite <- Em, compare_digest_refl.
    eexists. split; [reflexivity|]. reflexivity.
Qed.

(** First contact: with no stored session any nonce with the right MAC
    establishes one. *)
Lemma verify_first_contact dev req now st ns ts n :
  NONCE_STORE st !! dev = None ->
  headers_of req ns ts (header_mac hmac req ns ts) n ->
  exists st',
    verify_request_security hmac dev req now st = (Ret (true, None), st')
    /\ NONCE_STORE st' = <[dev := NDict n now]> (NONCE_STORE st).
Proof.
  intros Hs Hh.
  pose proof Hh as (_ & _ & _ & _ & _ & Hmac).
  unfold header_mac in Hh, Hmac.
  remember (hmac PSK (encode (req_path req ++ ns ++ ts))) as m eqn:Em.
  open_headers Hh.
  rewrite Hs. rewrite <- Em, compare_digest_refl.
  eexists. split; reflexivity.
Qed.

(** A header check that meets a bare stored nonce raises. *)
Lemma verify_raises_on_bare_nonce dev req now st k ns ts ms n :
  NONCE_STORE st !! dev = Some (NInt k) ->
  k <> 0 ->
  headers_of req ns ts ms n ->
  verify_request_security hmac dev req now st = (Raise TypeError, st).
Proof.
  intros Hs Hk Hh. open_headers Hh.
  rewrite Hs. cbn [entry_truthy].
  assert (E : (k =? 0) = false) by (apply Z.eqb_neq; exact Hk).
  rewrite E. reflexivity.
Qed.

(** X30.  On a session of the shape the header check writes itself, or
    on none, and for an X-MAC header that is ASCII text or absent, the
    header check raises nothing: it returns success, or a failure
    together with its message. *)
Lemma verify_returns_on_dictionary_sessions dev req now st :
  (forall k, NONCE_STORE st !! dev <> Some (NInt k)) ->
  from_option isascii true (req_mac req) = true ->
  exists b msg st',
    verify_request_security hmac dev req now st = (Ret (b, msg), st')
    /\ (b = false -> is_Some msg).
Proof.
  intros Hdict Hascii. unfold verify_request_security. cbn [SECURITY_ENABLED negb].
  destruct (req_nonce req) as [[|n0 n1]|]; destruct (req_timestamp req) as [[|t0 t1]|];
    destruct (req_mac req) as [[|m0 m1]|];
    try (eexists _, _, _; split; [reflexivity | intros _; eexists; reflexivity]).
  destruct (int_of_str (String n0 n1)) as [n|];
    [|eexists _, _, _; split; [reflexivity | intros _; eexists; reflexivity]].
  cbn [from_option] in Hascii. unfold compare_digest. rewrite Hascii.
  destruct (NONCE_STORE st !! dev) as [[k|last seen]|] eqn:Hs.
  - exfalso. exact (Hdict k eq_refl).
  - cbn [entry_truthy]. destruct (Qlt_le_dec _ _); [|destruct (n <=? last)];
      try destruct (String.eqb _ _);
      eexists _, _, _; (split; [reflexivity | intros H; try discriminate H; eexists; reflexivity]).
  - destruct (String.eqb _ _);
      eexists _, _, _; (split; [reflexivity | intros H; try discriminate H; eexists; reflexivity]).
Qed.

(** Sessions written by the header check expire.  Such a session, last
    seen more than the 75-second expiry window ago, is dropped before the
    request is validated.  With the right MAC the request is accepted whatever its
    nonce, also one that is not above the nonce that was stored, and the
    session becomes (nonce, now).  With a wrong MAC the stale session is
    gone all the same: the request fails when the X-MAC header is ASCII,
    and [hmac.compare_digest] raises TypeError when it is not. *)
Lemma expired_session_accepts_any_nonce dev req now st last seen ns ts ms n :
  NONCE_STORE st !! dev = Some (NDict last seen) ->
  (NONCE_EXPIRY_SECONDS < now - seen)%Q ->
  headers_of req ns ts ms n ->
  let r := verify_request_security hmac dev req now st in
  (ms = header_mac hmac req ns ts ->
   r.1 = Ret (true, None)
   /\ NONCE_STORE r.2 = <[dev := NDict n now]> (delete dev (NONCE_STORE st)))
  /\ (ms <> header_mac hmac req ns ts -> isascii ms = true ->
      r.1 = Ret (false, Some "HMAC verification failed")
      /\ NONCE_STORE r.2 = delete dev (NONCE_STORE st))
  /\ (ms <> header_mac hmac req ns ts -> isascii ms = false ->
      r.1 = Raise TypeError
      /\ NONCE_STORE r.2 = delete dev (NONCE_STORE st)).
Proof.
  intros Hs Hexp Hh. cbv zeta.
  unfold header_mac in *.
  open_headers Hh.
  rewrite Hs. cbn [entry_truthy].
  destruct (Qlt_le_dec NONCE_EXPIRY_SECONDS (now - seen)) as [_|Hlive];
    [|exfalso; apply (Qlt_not_le _ _ Hexp Hlive)].
  split; [|split].
  - intros <-. rewrite compare_digest_refl. split; reflexivity.
  - intros Hne Ha. rewrite (compare_digest_neq _ _ Hne), Ha. split; reflexivity.
  - intros Hne Ha. rewrite (compare_digest_neq _ _ Hne), Ha. split; reflexivity.
Qed.

(** On sessions that hold a bare nonce the upload route does reject
    replays and accept larger nonces. *)
Lemma upload_auth_bare_session dev nonce ts payload body now st last :
  default (NInt 0) (NONCE_STORE st !! dev) = NInt last ->
  (nonce <= last ->
   exists st', upload_auth hmac dev (secured_upload hmac dev nonce ts payload body) now st
               = (inl (Unauthorized (Some "Replay attack detected")), st')
               /\ NONCE_STORE st' = NONCE_STORE st)
  /\ (last < nonce ->
      exists r st', upload_auth hmac dev (secured_upload hmac dev nonce ts payload body) now st
                    = (r, st')
                    /\ NONCE_STORE st' = <[dev := NInt nonce]> (NONCE_STORE st)).
Proof.
  intros Hs. unfold upload_auth, secured_upload, envelope_mac.
  cbn -[Base64.b64decode str encode compare_digest].
  rewrite compare_digest_refl. rewrite Hs. split; intros H.
  - assert (E : (nonce <=? last) = true) by (apply Z.leb_le; exact H).
    rewrite E. eexists. split; reflexivity.
  - assert (E : (nonce <=? last) = false) by (apply Z.leb_gt; exact H).
    rewrite E. destruct (Base64.b64decode payload); eexists _, _; split; reflexivity.
Qed.

(** C1.  Two runs of the upload route against the claim.  A device whose
    live session [(10, 1000.0)] was set by the header check uploads, ten
    seconds later, an envelope with the replayed nonce 5 and a correct MAC:
    the comparison with the stored dictionary raises, the handler falls
    back to the raw body and acknowledges the upload, with the session
    untouched.  And a first secured upload with nonce 7 is accepted but
    leaves the bare nonce in the store, not the pair (nonce, now). *)
Theorem upload_replay_on_live_session_is_acknowledged (body : list byte) :
  let live := Security {["D" := NDict 10 1000]} 300 [] in
  let fresh := Security ∅ 300 [] in
  let replayed := upload hmac (secured_upload hmac "D" 5 1005 "AAAA" body) 1010 live startup in
  let first := upload hmac (secured_upload hmac "D" 7 1005 "AAAA" body) 1010 fresh startup in
  replayed.1.1 = UploadAck (Z.of_nat (length body))
  /\ status_code replayed.1.1 = 200
  /\ replayed.1.2 = live
  /\ status_code first.1.1 = 200
  /\ NONCE_STORE first.1.2 !! "D" = Some (NInt 7).
Proof.
  cbv zeta. unfold upload, upload_auth, secured_upload, envelope_mac.
  cbn -[Base64.b64decode str encode compare_digest upload_ingest].
  rewrite !compare_digest_refl.
  repeat split.
Qed.

(** C3.  A run against the claim.  Device "D" makes a secured upload with
    nonce 7 at time 1000; it is accepted and leaves the bare nonce, with no
    time of its own, in the store.  Whatever the clock reads at the
    device's next poll, also long after the 75-second window, that session
    is not discarded: the header check raises on the stored integer before
    it looks at the nonce or the MAC of the poll, and leaves the store as
    it is; and an upload that repeats nonce 7 is still refused as a
    replay. *)
Theorem session_written_by_upload_never_expires (body : list byte) (later : Q)
    (Hmac : hmac PSK (encode ("/api/inverter/config" ++ "8" ++ "2000")) <> "") :
  let st0 := Security ∅ 300 [] in
  let st1 := (upload hmac (secured_upload hmac "D" 7 1000 "AAAA" body) 1000 st0
                startup).1.2 in
  let poll := signed_poll hmac "D" "8" "2000" in
  NONCE_STORE st1 !! "D" = Some (NInt 7)
  /\ verify_request_security hmac "D" poll later st1 = (Raise TypeError, st1)
  /\ (upload hmac (secured_upload hmac "D" 7 2000 "AAAA" body) later st1
        startup).1.1
     = Unauthorized (Some "Replay attack detected").
Proof.
  cbv zeta.
  assert (Hup : (upload hmac (secured_upload hmac "D" 7 1000 "AAAA" body) 1000
                   (Security ∅ 300 []) startup).1.2
                = log_security_event "D" "hmac_verified"
                    ("Upload authenticated, nonce: " ++ str 7) 1000
                    (set_store <["D" := NInt 7]> (Security ∅ 300 []))).
  { unfold upload, upload_auth, secured_upload, envelope_mac.
    cbn -[Base64.b64decode str encode compare_digest upload_ingest].
    rewrite compare_digest_refl. reflexivity. }
  rewrite Hup. split; [reflexivity|]. split.
  - unfold verify_request_security, signed_poll.
    cbn [SECURITY_ENABLED negb req_nonce req_timestamp req_mac].
    destruct (hmac PSK (encode ("/api/inverter/config" ++ "8" ++ "2000"))) as [|m0 m1];
      [congruence|].
    reflexivity.
  - unfold upload, upload_auth, secured_upload, envelope_mac.
    cbn -[Base64.b64decode str encode compare_digest upload_ingest].
    rewrite compare_digest_refl. reflexivity.
Qed.

Section Polling.

Variable json : Type.
Variable json_dumps : json -> string.
Variable no_config_payload : Z -> json.
Variable PENDING_CONFIGS : gmap string json.

(** What the polling route does with the three results of the header
    check. *)
Lemma get_device_config_unauthorized req now st msg st' :
  verify_request_security hmac
    (first_truthy [req_device_id req; req_arg_device_id req] "EcoWatt001") req now st
  = (Ret (false, msg), st') ->
  get_device_config hmac json json_dumps no_config_payload PENDING_CONFIGS req now st
  = (Unauthorized msg, st').
Proof. intros H. unfold get_device_config. now rewrite H. Qed.

(** C2.  A run that mixes the two authentication surfaces.  Device "D"
    makes a secured upload with nonce 5, which is accepted and leaves the
    bare nonce in the store; its next poll replays nonce 3 in the headers.
    The header check subscripts the stored integer: it raises instead of
    returning a failure, and the polling route answers 500, not 401.  The
    converse mix fails as well: [check_nonce] on a session written by the
    header check raises. *)
Theorem header_check_raises_after_secured_upload (body : list byte) :
  let st0 := Security ∅ 300 [] in
  let uploaded := upload hmac (secured_upload hmac "D" 5 1000 "AAAA" body) 1000 st0 startup in
  let st1 := uploaded.1.2 in
  let poll := Request "/api/inverter/config" (Some "D") None
                (Some "3") (Some "1001") (Some "00") None None [] in
  uploaded.1.1 = UploadAck 3
  /\ NONCE_STORE st1 !! "D" = Some (NInt 5)
  /\ verify_request_security hmac "D" poll 1001 st1 = (Raise TypeError, st1)
  /\ get_device_config hmac json json_dumps no_config_payload PENDING_CONFIGS poll 1001 st1
     = (Unhandled TypeError, st1)
  /\ check_nonce "D" 3 1001 (Security {["D" := NDict 10 1000]} 300 [])
     = (Raise TypeError, Security {["D" := NDict 10 1000]} 300 []).
Proof.
  cbv zeta. unfold upload, upload_auth, secured_upload, envelope_mac.
  cbn -[Base64.b64decode str encode compare_digest upload_ingest verify_request_security
        get_device_config].
  rewrite !compare_digest_refl.
  change (Base64.b64decode "AAAA") with (Some [x00; x00; x00]).
  cbn -[verify_request_security get_device_config str].
  repeat split.
Qed.

End Polling.

Section Codec.

Variable json : Type.
Variable json_dumps : json -> string.

Lemma decode_utf8_encode_char (c : ascii) (rest : list byte) :
  decode_utf8 (encode_char c ++ rest) = String c (decode_utf8 rest).
Proof.
  destruct c as [[] [] [] [] [] [] [] []]; try reflexivity; destruct rest; reflexivity.
Qed.

Lemma decode_encode (s : string) : decode_utf8 (encode s) = s.
Proof.
  unfold encode. induction s as [|c s IH]; [reflexivity|].
  cbn [list_ascii_of_string flat_map]. now rewrite decode_utf8_encode_char, IH.
Qed.

(** The envelope that [create_secured_response] returns is sealed with the
    flag set and the clock reading truncated to seconds. *)
Lemma create_secured_response_seals p device now st :
  match (create_secured_response hmac json json_dumps p device now st).1 with
  | Ret e => e = seal hmac json json_dumps true (nonce e) (int_of_float now) p
  | Raise _ => True
  end.
Proof.
  unfold create_secured_response.
  destruct device as [[|c d]|]; cbn [fst].
  - destruct (50 <? SERVER_NONCE_COUNTER st); reflexivity.
  - destruct (NONCE_STORE st !! String c d) as [[k|last seen]|]; cbn [entry_truthy].
    + destruct (negb (k =? 0)); [exact I | reflexivity].
    + destruct (last <? 50); reflexivity.
    + reflexivity.
  - destruct (50 <? SERVER_NONCE_COUNTER st); reflexivity.
Qed.

(** C4.  For either value of the encryption flag a sealed envelope carries
    the HMAC of str(nonce) + str(timestamp) + flag bit + encoded payload
    under the pre-shared key, decoding its payload field (from base64 when
    the flag is set) gives back the serialised payload, and so [Open]
    verifies it and returns that payload.  [create_secured_response]
    produces such an envelope, with the flag set and stamped with the
    clock reading in whole seconds, for every payload, device and state
    but one: it raises when the device's stored session is a bare non-zero
    nonce. *)
Theorem seal_open_round_trip (flag : bool) (n ts : Z) (p : json)
    (device : option string) (now : Q) (st : security) :
  let e := seal hmac json json_dumps flag n ts p in
  mac e = hmac PSK (encode (str n ++ str ts ++ (if flag then "1" else "0") ++ payload e))
  /\ (nonce e, timestamp e, encrypted e) = (n, ts, flag)
  /\ (if flag then Base64.b64decode (payload e) = Some (encode (json_dumps p))
      else payload e = json_dumps p)
  /\ open_envelope hmac e = Verified (json_dumps p)
  /\ (let r := create_secured_response hmac json json_dumps p device now st in
      if bare_session device st then r.1 = Raise TypeError
      else exists e',
             r.1 = Ret e'
             /\ e' = seal hmac json json_dumps true (nonce e') (int_of_float now) p
             /\ mac e' = hmac PSK (encode (str (nonce e') ++ str (int_of_float now)
                                             ++ "1" ++ payload e'))
             /\ Base64.b64decode (payload e') = Some (encode (json_dumps p))
             /\ open_envelope hmac e' = Verified (json_dumps p)).
Proof.
  assert (Hopen : forall flag n ts,
            open_envelope hmac (seal hmac json json_dumps flag n ts p)
            = Verified (json_dumps p)).
  { intros f k t. unfold open_envelope, seal, envelope_mac.
    cbn [nonce timestamp encrypted payload mac].
    rewrite String.eqb_refl. destruct f.
    - now rewrite Base64Facts.b64decode_b64encode, decode_encode.
    - reflexivity. }
  assert (Hsealed : forall k,
            exists e',
              Ret (seal hmac json json_dumps true k (int_of_float now) p) = Ret e'
              /\ e' = seal hmac json json_dumps true (nonce e') (int_of_float now) p
              /\ mac e' = hmac PSK (encode (str (nonce e') ++ str (int_of_float now)
                                              ++ "1" ++ payload e'))
              /\ Base64.b64decode (payload e') = Some (encode (json_dumps p))
              /\ open_envelope hmac e' = Verified (json_dumps p)).
  { intros k. eexists. split; [reflexivity|]. split; [reflexivity|].
    split; [reflexivity|]. split; [apply Base64Facts.b64decode_b64encode | apply Hopen]. }
  cbv zeta. repeat split.
  - destruct flag; [apply Base64Facts.b64decode_b64encode | reflexivity].
  - apply Hopen.
  - unfold bare_session, create_secured_response.
    destruct device as [[|c d]|].
    + destruct (50 <? SERVER_NONCE_COUNTER st); apply Hsealed.
    + destruct (NONCE_STORE st !! String c d) as [[k|last seen]|]; cbn [entry_truthy].
      * destruct (negb (k =? 0)); [reflexivity | apply Hsealed].
      * destruct (last <? 50); apply Hsealed.
      * apply Hsealed.
    + destruct (50 <? SERVER_NONCE_COUNTER st); apply Hsealed.
Qed.

End Codec.

End GateFacts.

Lemma session_written_by_upload_never_expires_witness :
  let st0 := Security ∅ 300 [] in
  let st1 := (upload toy_hmac (secured_upload toy_hmac "D" 7 1000 "AAAA" []) 1000 st0
                startup).1.2 in
  let poll := signed_poll toy_hmac "D" "8" "2000" in
  NONCE_STORE st1 !! "D" = Some (NInt 7)
  /\ verify_request_security toy_hmac "D" poll 2000 st1 = (Raise TypeError, st1)
  /\ (upload toy_hmac (secured_upload toy_hmac "D" 7 2000 "AAAA" []) 2000 st1
        startup).1.1
     = Unauthorized (Some "Replay attack detected").
Proof.
  refine (session_written_by_upload_never_expires toy_hmac [] 2000 _).
  discriminate.
Defined.

(** The same poll against a session that the header check wrote at the
    same time is accepted, although its nonce is below the stored one. *)
Lemma expired_session_example :
  let st := Security {["D" := NDict 200 1000]} 300 [] in
  let r := verify_request_security toy_hmac "D" stale_poll 1100 st in
  r.1 = Ret (true, None)
  /\ NONCE_STORE r.2 = <["D" := NDict 5 1100]> (delete "D" (NONCE_STORE st)).
Proof.
  refine (proj1 (expired_session_accepts_any_nonce toy_hmac "D" stale_poll 1100
                   (Security {["D" := NDict 200 1000]} 300 []) 200 1000 "5" "1100"
                   (header_mac toy_hmac stale_poll "5" "1100") 5 _ _ _) eq_refl).
  - reflexivity.
  - reflexivity.
  - unfold headers_of. repeat split; discriminate.
Qed.

(** ** Rounding of floats *)




(** ** Telemetry aggregator *)

Lemma average_fold now items acc :
  (fold_left (average_step now) items acc).1 = (acc.1 ++ omap (averaged now) items)%list.
Proof.
  revert acc. induction items as [|[reg vals] items IH]; intros acc.
  - cbn. now rewrite app_nil_r.
  - cbn [fold_left]. rewrite IH. unfold average_step.
    destruct vals as [|v vals]; cbn -[mean round3 int_of_float].
    + reflexivity.
    + now rewrite <- app_assoc.
Qed.


Lemma NoDup_sorted_keys rv : NoDup (sorted_items rv).*1.
Proof.
  unfold sorted_items. rewrite merge_sort_Permutation.
  apply NoDup_fst_map_to_list.
Qed.

Lemma averaged_reg now item s : averaged now item = Some s -> as_reg_addr s = item.1.
Proof.
  unfold averaged. destruct item.2; [discriminate|]. now intros [= <-].
Qed.


Lemma has_any_spec rv :
  has_any rv = true <-> exists reg vals, rv !! reg = Some vals /\ vals <> [].
Proof.
  unfold has_any. rewrite existsb_exists. split.
  - intros ([reg vals] & Hin & Hlen). exists reg, vals. split.
    + apply elem_of_map_to_list. now apply list_elem_of_In.
    + cbn in Hlen. intros ->. discriminate Hlen.
  - intros (reg & vals & Hl & Hne). exists (reg, vals). split.
    + apply list_elem_of_In. now apply elem_of_map_to_list.
    + cbn. destruct vals; [congruence | reflexivity].
Qed.

(** What a flush of a buffer that holds data returns. *)
Lemma flush_returns device_id now agg buf :
  BUFFERS agg !! device_id = Some buf ->
  has_any (reg_values buf) = true ->
  let rec := UploadRecord now device_id (received_bytes buf)
               (omap (averaged now) (sorted_items (reg_values buf))) in
  (_flush_device_unlocked device_id now agg).1 = Some rec
  /\ UPLOADS (_flush_device_unlocked device_id now agg).2 = (UPLOADS agg ++ [rec])%list
  /\ BUFFERS (_flush_device_unlocked device_id now agg).2
     = <[device_id := Buffer ∅ 0 now]> (BUFFERS agg).
Proof.
  intros Hb Hany. unfold _flush_device_unlocked. rewrite Hb, Hany. cbn [negb].
  pose proof (average_fold now (sorted_items (reg_values buf)) ([], [])) as Hf.
  destruct (fold_left (average_step now) (sorted_items (reg_values buf)) ([], []))
    as [averaged_samples values_flat].
  cbn in Hf. subst averaged_samples. cbn. repeat split.
Qed.



(** The same example through the wire format: 19 bytes, two samples and a
    trailing byte that is dropped. *)
Example upload_then_flush_13 :
  let payload := [x01; x00; x00; x00; x05; x00; x00; x40; x41;
                  x02; x00; x00; x00; x05; x00; x00; x60; x41; x00] in
  let agg := (upload_ingest "EcoWatt001" payload 100 startup).2 in
  UPLOADS (_flusher_loop_pass 115 agg)
  = [UploadRecord 115 "EcoWatt001" 19 [AveragedSample 115 5 (of_int 13)]].
Proof. reflexivity. Qed.


(** *** Debounce *)

Lemma has_any_empty : has_any ∅ = false.
Proof. reflexivity. Qed.

Lemma records_of_app d agg rec :
  ur_device_id rec <> d ->
  filter (fun r => ur_device_id r = d) (UPLOADS agg ++ [rec])%list = records_of d agg.
Proof.
  intros Hne. unfold records_of. rewrite filter_app.
  rewrite (filter_cons_False _ rec []) by exact Hne.
  rewrite filter_nil. apply app_nil_r.
Qed.

(** A flush of another device is invisible. *)
Lemma flush_other d k now agg :
  k <> d -> view d (_flush_device_unlocked k now agg).2 = view d agg.
Proof.
  intros Hne. unfold _flush_device_unlocked, view.
  destruct (BUFFERS agg !! k) as [buf|]; [|reflexivity].
  destruct (negb (has_any (reg_values buf))).
  - cbn. now rewrite lookup_insert_ne.
  - destruct (fold_left _ _ _) as [averaged_samples values_flat].
    cbn [snd BUFFERS]. rewrite lookup_insert_ne by exact Hne.
    unfold records_of at 1. cbn [UPLOADS].
    now rewrite records_of_app.
Qed.

(** After a flush the device's buffer, if any, holds no data. *)
Lemma flush_leaves_no_data d now agg :
  BUFFERS (_flush_device_unlocked d now agg).2 !! d = BUFFERS agg !! d
  \/ exists b, BUFFERS (_flush_device_unlocked d now agg).2 !! d = Some b
               /\ reg_values b = ∅.
Proof.
  unfold _flush_device_unlocked.
  destruct (BUFFERS agg !! d) as [buf|] eqn:Hb; [|left; exact Hb].
  right. destruct (negb (has_any (reg_values buf))).
  - eexists. cbn. rewrite lookup_insert_eq. split; reflexivity.
  - destruct (fold_left _ _ _) as [averaged_samples values_flat].
    eexists. cbn. rewrite lookup_insert_eq. split; reflexivity.
Qed.

(** A walk over snapshot entries none of which makes [d] due leaves the
    view of [d] alone. *)
Lemma visits_keep_view d now items :
  (forall b, (d, b) ∈ items -> flush_due now b = false) ->
  forall agg, view d (fold_left (visit now) items agg) = view d agg.
Proof.
  induction items as [|[k b] items IH]; intros Hdue agg; [reflexivity|].
  cbn [fold_left]. rewrite IH.
  - unfold visit. destruct (flush_due now b) eqn:E; [|reflexivity].
    apply flush_other. intros ->.
    rewrite (Hdue b) in E by (apply list_elem_of_here). discriminate E.
  - intros b' Hin. apply Hdue. now apply list_elem_of_further.
Qed.

Lemma visits_leave_no_data d now items :
  forall agg,
    BUFFERS (fold_left (visit now) items agg) !! d = BUFFERS agg !! d
    \/ exists b, BUFFERS (fold_left (visit now) items agg) !! d = Some b
                 /\ reg_values b = ∅.
Proof.
  induction items as [|[k b] items IH]; intros agg; [now left|].
  cbn [fold_left].
  destruct (IH (visit now agg (k, b))) as [Heq|Hempty]; [|now right].
  rewrite Heq. unfold visit. destruct (flush_due now b); [|now left].
  destruct (decide (k = d)) as [->|Hne].
  - apply flush_leaves_no_data.
  - left. exact (f_equal fst (flush_other d k now agg Hne)).
Qed.

(** A sweep does not flush a device whose snapshot entry is not due. *)
Lemma sweep_keeps_view d now agg :
  (forall b, BUFFERS agg !! d = Some b -> flush_due now b = false) ->
  view d (_flusher_loop_pass now agg) = view d agg.
Proof.
  intros Hdue. unfold _flusher_loop_pass. apply visits_keep_view.
  intros b Hin. apply Hdue. now apply elem_of_map_to_list.
Qed.

(** Every ingest resets the device's idle clock to the time of the call. *)
Lemma ingest_resets_clock d payload now agg :
  exists b, BUFFERS (step agg (Ingest d payload now)) !! d = Some b /\ last_seen b = now.
Proof.
  cbn. unfold ingest. cbn. rewrite lookup_insert_eq. eexists. split; reflexivity.
Qed.

Lemma ingest_records d k payload now agg :
  records_of d (step agg (Ingest k payload now)) = records_of d agg.
Proof. reflexivity. Qed.

Lemma step_tracks d seen agg e :
  tracks d seen agg ->
  tracks d (last_ingest d [e] seen) (step agg e).
Proof.
  intros Htr. destruct e as [k payload now|now]; cbn [last_ingest].
  - destruct (String.eqb_spec k d) as [->|Hne]; intros b Hb Hany.
    + destruct (ingest_resets_clock d payload now agg) as (b' & Hb' & Hls).
      rewrite Hb in Hb'. injection Hb' as <-. now rewrite Hls.
    + apply Htr; [|exact Hany].
      cbn in Hb. unfold ingest in Hb. cbn in Hb.
      now rewrite lookup_insert_ne in Hb.
  - intros b Hb Hany. cbn [step] in Hb. unfold _flusher_loop_pass in Hb.
    destruct (visits_leave_no_data d now (map_to_list (BUFFERS agg)) agg)
      as [Heq|(b' & Hb' & Hempty)].
    + rewrite Heq in Hb. now apply Htr.
    + rewrite Hb in Hb'. injection Hb' as <-.
      rewrite Hempty, has_any_empty in Hany. discriminate Hany.
Qed.

Lemma last_ingest_app d tr1 tr2 seen :
  last_ingest d (tr1 ++ tr2) seen = last_ingest d tr2 (last_ingest d tr1 seen).
Proof.
  revert seen. induction tr1 as [|[k p now|now] tr1 IH]; intros seen; cbn; auto.
Qed.

Lemma steps_track d trace :
  forall seen agg, tracks d seen agg ->
                   tracks d (last_ingest d trace seen) (fold_left step trace agg).
Proof.
  induction trace as [|e trace IH]; intros seen agg Htr; [exact Htr|].
  cbn [fold_left]. change (e :: trace) with ([e] ++ trace)%list.
  rewrite last_ingest_app. apply IH. now apply step_tracks.
Qed.

Lemma run_tracks d trace : tracks d (last_ingest d trace None) (run trace).
Proof.
  apply steps_track. intros b Hb. cbn in Hb. rewrite lookup_empty in Hb. discriminate Hb.
Qed.

Lemma run_app tr1 tr2 : run (tr1 ++ tr2) = fold_left step tr2 (run tr1).
Proof. apply fold_left_app. Qed.

Lemma run_snoc tr e : run (tr ++ [e]) = step (run tr) e.
Proof. now rewrite run_app. Qed.

Lemma last_ingest_sweeps d times seen :
  last_ingest d (Sweep <$> times) seen = seen.
Proof. induction times as [|s times IH]; [reflexivity | exact IH]. Qed.

Lemma last_ingest_snoc d trace payload now :
  last_ingest d (trace ++ [Ingest d payload now]) None = Some now.
Proof. rewrite last_ingest_app. cbn. now rewrite String.eqb_refl. Qed.

(** A sweep inside the window of the latest ingest flushes nothing of the
    device. *)
Lemma sweep_inside_window trace d t now :
  last_ingest d trace None = Some t ->
  (now - t < FLUSH_INTERVAL_SEC)%Q ->
  view d (step (run trace) (Sweep now)) = view d (run trace).
Proof.
  intros Hlast Hwin. cbn [step]. apply sweep_keeps_view. intros b Hb.
  unfold flush_due. destruct (has_any (reg_values b)) eqn:Hany; [|reflexivity].
  pose proof (run_tracks d trace b Hb Hany) as Htr.
  rewrite Hlast in Htr. injection Htr as ->.
  cbn [andb]. destruct (Qlt_le_dec (now - last_seen b) FLUSH_INTERVAL_SEC) as [_|Hge].
  - reflexivity.
  - exfalso. apply (Qlt_not_le _ _ Hwin Hge).
Qed.

(** A sweep that does flush the device comes a full window after its
    latest ingest. *)
Lemma flush_only_after_window trace d now :
  records_of d (step (run trace) (Sweep now)) <> records_of d (run trace) ->
  exists t, last_ingest d trace None = Some t /\ (FLUSH_INTERVAL_SEC <= now - t)%Q.
Proof.
  intros Hchanged.
  destruct (BUFFERS (run trace) !! d) as [b|] eqn:Hb.
  - destruct (flush_due now b) eqn:Hdue.
    + unfold flush_due in Hdue. apply andb_prop in Hdue as [Hany Hlate].
      exists (last_seen b). split.
      * exact (run_tracks d trace b Hb Hany).
      * destruct (Qlt_le_dec (now - last_seen b) FLUSH_INTERVAL_SEC) as [_|Hge];
          [discriminate Hlate | exact Hge].
    + exfalso. apply Hchanged.
      refine (f_equal snd (sweep_keeps_view d now (run trace) _)).
      intros b' Hb'. rewrite Hb in Hb'. now injection Hb' as <-.
  - exfalso. apply Hchanged.
    refine (f_equal snd (sweep_keeps_view d now (run trace) _)).
    intros b' Hb'. rewrite Hb in Hb'. discriminate Hb'.
Qed.

(** Sweeps that all fall inside the window of an ingest flush nothing of
    the device. *)
Lemma sweeps_inside_window trace d payload t times :
  Forall (fun s => (s - t < FLUSH_INTERVAL_SEC)%Q) times ->
  view d (run ((trace ++ [Ingest d payload t]) ++ (Sweep <$> times)))
  = view d (run (trace ++ [Ingest d payload t])).
Proof.
  induction times as [|s times IH] using rev_ind; intros Hall.
  - now rewrite app_nil_r.
  - apply Forall_app in Hall as [Hall Hs]. apply Forall_inv in Hs.
    rewrite fmap_app, app_assoc. cbn [fmap list_fmap]. rewrite run_snoc.
    rewrite <- (IH Hall). apply (sweep_inside_window _ d t s); [|exact Hs].
    rewrite last_ingest_app, last_ingest_sweeps. apply last_ingest_snoc.
Qed.

(** C6.  Over runs made of ingests and flusher sweeps, started from the
    empty aggregator: a sweep that comes less than 15 seconds after a
    device's latest ingest leaves that device's buffer and flushed records
    as they are; a sweep that does flush the device comes at least 15
    seconds after its latest ingest; every ingest sets the device's idle
    clock to the time of the call; and between two ingests of a device
    that are less than 15 seconds apart no sweep flushes it. *)
Theorem no_flush_inside_debounce_window (trace : list event) (d : string) (now : Q) :
  (forall t, last_ingest d trace None = Some t ->
             (now - t < FLUSH_INTERVAL_SEC)%Q ->
             view d (step (run trace) (Sweep now)) = view d (run trace))
  /\ (records_of d (step (run trace) (Sweep now)) <> records_of d (run trace) ->
      exists t, last_ingest d trace None = Some t
                /\ (FLUSH_INTERVAL_SEC <= now - t)%Q)
  /\ (forall payload,
        exists b, BUFFERS (step (run trace) (Ingest d payload now)) !! d = Some b
                  /\ last_seen b = now)
  /\ (forall p1 t1 p2 t2 times,
        (t2 - t1 < FLUSH_INTERVAL_SEC)%Q ->
        Forall (fun s => (s <= t2)%Q) times ->
        records_of d (run (trace ++ Ingest d p1 t1 :: (Sweep <$> times)
                                 ++ [Ingest d p2 t2]))
        = records_of d (run trace)).
Proof.
  split; [|split; [|split]].
  - intros t. apply sweep_inside_window.
  - apply flush_only_after_window.
  - intros payload. apply ingest_resets_clock.
  - intros p1 t1 p2 t2 times Hclose Hbefore.
    change (Ingest d p1 t1 :: (Sweep <$> times) ++ [Ingest d p2 t2])
      with ([Ingest d p1 t1] ++ (Sweep <$> times) ++ [Ingest d p2 t2])%list.
    rewrite !app_assoc, run_snoc, ingest_records.
    assert (Hall : Forall (fun s => (s - t1 < FLUSH_INTERVAL_SEC)%Q) times).
    { eapply Forall_impl; [exact Hbefore|]. cbv beta. intros s Hs.
      unfold FLUSH_INTERVAL_SEC in *. lra. }
    pose proof (f_equal snd (sweeps_inside_window trace d p1 t1 times Hall)) as Hv.
    unfold view in Hv. cbn [snd] in Hv. rewrite Hv.
    rewrite run_snoc. apply ingest_records.
Qed.

Lemma no_flush_inside_debounce_window_witness :
  let payload := [x01; x00; x00; x00; x05; x00; x00; x40; x41;
                  x02; x00; x00; x00; x05; x00; x00; x60; x41] in
  let trace := [Ingest "D" payload 100] in
  BUFFERS (run trace) !! "D" = Some (Buffer {[5 := [of_int 12; of_int 14]]} 18 100)
  /\ view "D" (step (run trace) (Sweep 114)) = view "D" (run trace)
  /\ records_of "D" (step (run trace) (Sweep 115))
     = [UploadRecord 115 "D" 18 [AveragedSample 115 5 (of_int 13)]]
  /\ exists t, last_ingest "D" trace None = Some t /\ (FLUSH_INTERVAL_SEC <= 115 - t)%Q.
Proof.
  split; [reflexivity|]. split; [|split; [reflexivity|]].
  - exact (proj1 (no_flush_inside_debounce_window
                    [Ingest "D" [x01; x00; x00; x00; x05; x00; x00; x40; x41;
                                 x02; x00; x00; x00; x05; x00; x00; x60; x41] 100]
                    "D" 114)
             100%Q eq_refl eq_refl).
  - refine (proj1 (proj2 (no_flush_inside_debounce_window
                     [Ingest "D" [x01; x00; x00; x00; x05; x00; x00; x40; x41;
                                  x02; x00; x00; x00; x05; x00; x00; x60; x41] 100]
                     "D" 115)) _).
    vm_compute. discriminate.
Defined.

(** ** Firmware distribution manager *)

Section FirmwareFacts.

Variable sha256_hex : list byte -> string.
Variable hmac : list byte -> list byte -> string.

(** Writing a log line leaves manifest, chunk table and status registry
    alone. *)
Lemma log_fota_event_firmware device_id event_type details now f :
  let f' := log_fota_event device_id event_type details now f in
  FIRMWARE_MANIFEST f' = FIRMWARE_MANIFEST f
  /\ FIRMWARE_CHUNKS f' = FIRMWARE_CHUNKS f
  /\ FOTA_STATUS f' = FOTA_STATUS f.
Proof. repeat split. Qed.

(** C7.  An upload with all required fields whose image decodes but whose
    recomputed SHA-256 differs from the declared hash is answered with the
    hash-mismatch error (status 400), and manifest, chunk table and status
    registry are what they were before the request. *)
Theorem hash_mismatch_leaves_firmware_unchanged
    req now f fw_version_s size_n declared data_b64 image :
  fw_version req = Some fw_version_s -> fw_version_s <> "" ->
  fw_size req = Some size_n -> size_n <> 0 ->
  fw_hash req = Some declared -> declared <> "" ->
  fw_data req = Some data_b64 -> data_b64 <> "" ->
  Base64.b64decode data_b64 = Some image ->
  sha256_hex image <> declared ->
  let r := upload_firmware sha256_hex hmac req now f in
  r.1 = BadRequest "Hash mismatch"
  /\ status_code r.1 = 400
  /\ FIRMWARE_MANIFEST r.2 = FIRMWARE_MANIFEST f
  /\ FIRMWARE_CHUNKS r.2 = FIRMWARE_CHUNKS f
  /\ FOTA_STATUS r.2 = FOTA_STATUS f.
Proof.
  intros Hv Hv' Hs Hs' Hh Hh' Hd Hd' Hdec Hneq. cbv zeta.
  unfold upload_firmware. rewrite Hv, Hs, Hh, Hd.
  destruct fw_version_s as [|v0 v1]; [congruence|].
  destruct declared as [|h0 h1]; [congruence|].
  destruct data_b64 as [|d0 d1]; [congruence|].
  assert (E : (size_n =? 0) = false) by (apply Z.eqb_neq; exact Hs').
  rewrite E, Hdec.
  assert (E' : String.eqb (sha256_hex image) (String h0 h1) = false)
    by (apply String.eqb_neq; exact Hneq).
  rewrite E'. cbn [negb]. repeat split.
Qed.

(** X27.  Every upload that is answered with status 400 leaves manifest
    and chunk table as they were: a refused upload changes nothing but the
    log. *)
Lemma rejected_upload_changes_nothing req now f :
  let r := upload_firmware sha256_hex hmac req now f in
  status_code r.1 = 400 ->
  FIRMWARE_MANIFEST r.2 = FIRMWARE_MANIFEST f /\ FIRMWARE_CHUNKS r.2 = FIRMWARE_CHUNKS f.
Proof.
  cbv zeta. unfold upload_firmware.
  destruct (fw_version req) as [[|v0 v1]|]; try (intros _; split; reflexivity).
  destruct (fw_size req) as [size_n|]; try (intros _; split; reflexivity).
  destruct (fw_hash req) as [[|h0 h1]|]; try (intros _; split; reflexivity).
  destruct (fw_data req) as [[|d0 d1]|]; try (intros _; split; reflexivity).
  destruct (size_n =? 0); [intros _; split; reflexivity|].
  destruct (Base64.b64decode _) as [image|]; [|intros _; split; reflexivity].
  destruct (negb _); [intros _; split; reflexivity|].
  destruct (_ =? 0); cbn; intros H; discriminate H.
Qed.

End FirmwareFacts.

Lemma hash_mismatch_leaves_firmware_unchanged_witness :
  let req := FirmwareUpload (Some "1.0.5") (Some 3) (Some "deadbeef") (Some 1024)
               (Some "AAAA") in
  let f := Fota None ∅ ∅ [] in
  let r := upload_firmware toy_sha256 toy_hmac req 1000 f in
  r.1 = BadRequest "Hash mismatch"
  /\ status_code r.1 = 400
  /\ FIRMWARE_MANIFEST r.2 = FIRMWARE_MANIFEST f
  /\ FIRMWARE_CHUNKS r.2 = FIRMWARE_CHUNKS f
  /\ FOTA_STATUS r.2 = FOTA_STATUS f.
Proof.
  refine (hash_mismatch_leaves_firmware_unchanged toy_sha256 toy_hmac
            (FirmwareUpload (Some "1.0.5") (Some 3) (Some "deadbeef") (Some 1024)
               (Some "AAAA"))
            1000 (Fota None ∅ ∅ []) "1.0.5" 3 "deadbeef" "AAAA" [x00; x00; x00]
            eq_refl _ eq_refl _ eq_refl _ eq_refl _ eq_refl _); discriminate.
Defined.

(** The spec's chunking example: a 10000-byte image in 4096-byte chunks. *)
Example ten_thousand_bytes_three_chunks :
  let image := repeat x00 (Z.to_nat 10000) in
  let req := FirmwareUpload (Some "1.0.5") (Some 10000) (Some (toy_sha256 image))
               (Some 4096) (Some (decode (Base64.b64encode image))) in
  let r := upload_firmware toy_sha256 toy_hmac req 1000 (Fota None ∅ ∅ []) in
  r.1 = FirmwareUploaded (FIRMWARE_MANIFEST r.2) 3
  /\ (fun i => chunk_len <$> FIRMWARE_CHUNKS r.2 !! i) <$> [0; 1; 2; 3]
     = [Some 4096; Some 4096; Some 1808; None].
Proof. vm_compute. split; reflexivity. Qed.

(** ** Rollback signalling and status reports *)

(** The registry after a rollback request: the three rollback keys are
    written into the device's entry, which is created when missing. *)
Lemma trigger_registry req now f :
  FOTA_STATUS (trigger_fota_rollback req now f).2
  = <[default "all" (rb_device_id req) :=
        <["rollback_timestamp" := PTime now]>
        (<["rollback_reason" := PStr (default "Manual rollback requested" (rb_reason req))]>
        (<["rollback_requested" := PBool true]>
           (default ∅ (FOTA_STATUS f !! default "all" (rb_device_id req)))))]>
    (FOTA_STATUS f).
Proof. reflexivity. Qed.

Lemma check_when_set d f entry :
  FOTA_STATUS f !! d = Some entry ->
  entry !! "rollback_requested" = Some (PBool true) ->
  check_rollback_status (Some d) f
  = (RollbackStatus true (Some (default (PStr "Unknown") (entry !! "rollback_reason"))),
     set_status <[d := <["rollback_requested" := PBool false]> entry]> f).
Proof.
  intros He Hflag. unfold check_rollback_status.
  change (default "unknown" (Some d)) with d.
  now rewrite He, Hflag.
Qed.

Lemma check_when_clear d f :
  flag_set d f = false ->
  check_rollback_status (Some d) f = (RollbackStatus false None, f).
Proof.
  unfold flag_set, check_rollback_status.
  change (default "unknown" (Some d)) with d.
  destruct (FOTA_STATUS f !! d) as [entry|]; [|reflexivity].
  now intros ->.
Qed.

(** The entry a rollback request leaves for its device. *)
Lemma trigger_entry req now f :
  exists e1,
    FOTA_STATUS (trigger_fota_rollback req now f).2 !! default "all" (rb_device_id req)
    = Some e1
    /\ e1 !! "rollback_requested" = Some (PBool true)
    /\ e1 !! "rollback_reason"
       = Some (PStr (default "Manual rollback requested" (rb_reason req))).
Proof.
  rewrite trigger_registry, lookup_insert_eq. eexists. split; [reflexivity|].
  split.
  - rewrite lookup_insert_ne by discriminate.
    rewrite lookup_insert_ne by discriminate. apply lookup_insert_eq.
  - rewrite lookup_insert_ne by discriminate. apply lookup_insert_eq.
Qed.

(** X28.  A rollback request followed at once by the device's poll: the
    poll returns the flag with the stored reason, and a second poll
    returns false, so a request is delivered once. *)
Lemma rollback_consumed_once req now f :
  let d := default "all" (rb_device_id req) in
  let reason := default "Manual rollback requested" (rb_reason req) in
  let f1 := (trigger_fota_rollback req now f).2 in
  let f2 := (check_rollback_status (Some d) f1).2 in
  (check_rollback_status (Some d) f1).1 = RollbackStatus true (Some (PStr reason))
  /\ (check_rollback_status (Some d) f2).1 = RollbackStatus false None.
Proof.
  cbv zeta. destruct (trigger_entry req now f) as (e1 & He1 & Hflag & Hreason).
  rewrite (check_when_set _ _ e1 He1 Hflag), Hreason. cbn [fst snd default].
  split; [reflexivity|].
  rewrite check_when_clear; [reflexivity|].
  unfold flag_set, set_status. cbn [FOTA_STATUS].
  now rewrite !lookup_insert_eq.
Qed.

Lemma log_fota_event_status device_id event_type details now f :
  FOTA_STATUS (log_fota_event device_id event_type details now f) = FOTA_STATUS f.
Proof. reflexivity. Qed.

(** Case analysis along the branches of [receive_fota_status]. *)
Ltac report_cases r :=
  unfold receive_fota_status;
  destruct (chunk_received r) as [c|];
  [destruct (progress_percent c _) as [p|e]|];
  destruct (verified r) as [[|]|];
  destruct (default false (rollback r)); destruct (truthy_str (boot_status r)).

(** The registry after a status report: the device's entry is the report,
    every other entry is as before. *)
Lemma receive_fota_status_registry device_id r now f st :
  FOTA_STATUS (receive_fota_status device_id r now f st).1.2
  = <[device_id :=
        <["chunk_received" := of_opt_int (chunk_received r)]>
        (<["verified" := of_opt_bool (verified r)]>
        (<["boot_status" := of_opt_str (boot_status r)]>
        (<["rollback" := PBool (default false (rollback r))]>
        (<["error" := of_opt_str (error r)]>
        (<["last_update" := PTime now]> ∅)))))]> (FOTA_STATUS f).
Proof.
  report_cases r; cbn -[insert]; try reflexivity;
    destruct (String.eqb _ "success"); try reflexivity;
    destruct (String.eqb _ "failed"); reflexivity.
Qed.

Lemma step_leaves_alone d op s :
  leaves_alone d op -> FOTA_STATUS (fota_step s op).1 !! d = FOTA_STATUS s.1 !! d.
Proof.
  destruct op as [req now|header|device_id r now]; cbn [leaves_alone fota_step]; intros Hne.
  - unfold trigger_fota_rollback. cbn. now rewrite lookup_insert_ne.
  - unfold check_rollback_status.
    destruct (FOTA_STATUS s.1 !! default "unknown" header) as [entry|]; [|reflexivity].
    destruct (truthy _); [|reflexivity]. cbn. now rewrite lookup_insert_ne.
  - pose proof (receive_fota_status_registry device_id r now s.1 s.2) as H.
    destruct (receive_fota_status device_id r now s.1 s.2) as [[resp f'] st'].
    cbn in H |- *. rewrite H. now rewrite lookup_insert_ne.
Qed.

(** X29.  The rollback flag stays set, with its reason, for as long as
    nothing addresses the device: requests, polls and status reports of
    other devices leave it alone, and it never expires on its own. *)
Lemma rollback_flag_persists req now f st ops :
  let d := default "all" (rb_device_id req) in
  let reason := default "Manual rollback requested" (rb_reason req) in
  Forall (leaves_alone d) ops ->
  (check_rollback_status (Some d)
     (fold_left fota_step ops ((trigger_fota_rollback req now f).2, st)).1).1
  = RollbackStatus true (Some (PStr reason)).
Proof.
  cbv zeta. intros Hops.
  destruct (trigger_entry req now f) as (e1 & He1 & Hflag & Hreason).
  set (d := default "all" (rb_device_id req)) in *.
  assert (Hsame : forall s, FOTA_STATUS s.1 !! d = Some e1 ->
            FOTA_STATUS (fold_left fota_step ops s).1 !! d = Some e1).
  { induction ops as [|op ops IH]; intros s Hs; [exact Hs|].
    apply Forall_cons in Hops as [Hop Hops]. cbn [fold_left]. apply IH; [exact Hops|].
    now rewrite step_leaves_alone. }
  rewrite (check_when_set d _ e1 (Hsame (_, st) He1) Hflag), Hreason.
  reflexivity.
Qed.

(** C8.  A run against the claim.  The operator requests a rollback of
    "EcoWatt001"; the device then posts a status report (chunk 3
    received); its next poll is answered rollback_required = false.  The
    report replaced the device's registry entry, and the pending flag and
    reason with it.  Without the report the same poll returns the flag and
    the reason. *)
Theorem status_report_drops_pending_rollback :
  let f0 := Fota None ∅ ∅ [] in
  let st0 := Security ∅ 300 [] in
  let request := RequestRollback (RollbackRequest (Some "EcoWatt001") (Some "bad build")) 1000 in
  let report := ReportStatus "EcoWatt001" (FotaReport (Some 3) None None None None) 1001 in
  let requested := fold_left fota_step [request] (f0, st0) in
  let reported := fold_left fota_step [request; report] (f0, st0) in
  (check_rollback_status (Some "EcoWatt001") requested.1).1
  = RollbackStatus true (Some (PStr "bad build"))
  /\ (check_rollback_status (Some "EcoWatt001") reported.1).1
     = RollbackStatus false None
  /\ flag_set "EcoWatt001" requested.1 = true
  /\ flag_set "EcoWatt001" reported.1 = false.
Proof. vm_compute. repeat split. Qed.

(** C9, the claim as stated fails: with four chunks in the table a report
    of chunk 0 is logged with progress 25.0, while 0 / 4 as a percentage
    is printed 0.0. *)
Lemma progress_counts_the_reported_chunk :
  FOTA_LOGS (receive_fota_status "EcoWatt001" (FotaReport (Some 0) None None None None)
               1000 four_chunks (Security ∅ 300 [])).1.2
  = [FotaEvent 1000 "EcoWatt001" "chunk_received" (ChunkProgress 0 4 "25.0")]
  /\ format_1f (mul (ratio 0 4) (of_int 100)) = "0.0"
  /\ "25.0" <> "0.0".
Proof. split; [reflexivity|]. split; [reflexivity | discriminate]. Qed.

(** A report with a chunk index whose progress figure can be computed:
    the first line it adds to the FOTA log. *)
Lemma receive_fota_status_logs device_id r now f st c progress :
  chunk_received r = Some c ->
  let total := Z.of_nat (size (FIRMWARE_CHUNKS f)) in
  progress_percent c total = Ret progress ->
  (receive_fota_status device_id r now f st).1.1 = StatusSuccess
  /\ exists rest,
       FOTA_LOGS (receive_fota_status device_id r now f st).1.2
       = (FOTA_LOGS f ++ FotaEvent now device_id "chunk_received"
                           (ChunkProgress c total (format_1f progress)) :: rest)%list.
Proof.
  intros Hc total Hp. unfold receive_fota_status. rewrite Hc.
  cbn [set_status FIRMWARE_CHUNKS]. fold total. rewrite Hp.
  destruct (verified r) as [[|]|]; destruct (default false (rollback r));
    destruct (truthy_str (boot_status r));
    cbn -[insert format_1f size]; rewrite <- ?app_assoc;
    try (split; [reflexivity | eexists; reflexivity]);
    destruct (String.eqb _ "success");
    cbn -[insert format_1f size]; rewrite <- ?app_assoc;
    try (split; [reflexivity | eexists; reflexivity]);
    destruct (String.eqb _ "failed");
    cbn -[insert format_1f size]; rewrite <- ?app_assoc;
    (split; [reflexivity | eexists; reflexivity]).
Qed.

(** A report whose progress figure cannot be computed: the exception
    leaves the handler before anything is logged. *)
Lemma receive_fota_status_raises device_id r now f st c e :
  chunk_received r = Some c ->
  progress_percent c (Z.of_nat (size (FIRMWARE_CHUNKS f))) = Raise e ->
  (receive_fota_status device_id r now f st).1.1 = Unhandled e
  /\ FOTA_LOGS (receive_fota_status device_id r now f st).1.2 = FOTA_LOGS f.
Proof.
  intros Hc Hp. unfold receive_fota_status. rewrite Hc.
  cbn [set_status FIRMWARE_CHUNKS]. rewrite Hp. split; reflexivity.
Qed.

(** C9 as amended.  For a report with a chunk index [c] and a non-empty
    chunk table of [total] chunks, the first line the report adds to the
    FOTA log records the progress [(c + 1) / total * 100], computed in
    floating point and printed with one decimal; when the quotient is
    beyond the largest float the division raises [OverflowError], the
    handler answers 500 and logs nothing.  In both cases the fields of the
    report are stored in the device's registry entry.  So one chunk of
    four is logged as 25.0, one, two and three chunks of three as 33.3,
    66.7 and 100.0, and one chunk of eighty as 1.2. *)
Theorem progress_is_next_chunk_over_total device_id r now f st c :
  chunk_received r = Some c ->
  (0 < size (FIRMWARE_CHUNKS f))%nat ->
  let total := Z.of_nat (size (FIRMWARE_CHUNKS f)) in
  let res := receive_fota_status device_id r now f st in
  let f' := res.1.2 in
  match truediv (c + 1) total with
  | Ret quotient =>
      res.1.1 = StatusSuccess
      /\ exists rest,
           FOTA_LOGS f'
           = (FOTA_LOGS f
              ++ FotaEvent now device_id "chunk_received"
                   (ChunkProgress c total (format_1f (mul quotient (of_int 100))))
                 :: rest)%list
  | Raise e =>
      e = OverflowError /\ res.1.1 = Unhandled OverflowError /\ FOTA_LOGS f' = FOTA_LOGS f
  end
  /\ (exists entry,
        FOTA_STATUS f' !! device_id = Some entry
        /\ entry !! "chunk_received" = Some (PInt c)
        /\ entry !! "verified" = Some (of_opt_bool (verified r))
        /\ entry !! "boot_status" = Some (of_opt_str (boot_status r))
        /\ entry !! "rollback" = Some (PBool (default false (rollback r)))
        /\ entry !! "error" = Some (of_opt_str (error r))
        /\ entry !! "last_update" = Some (PTime now))
  /\ (format_1f (mul (ratio 1 4) (of_int 100)) = "25.0"
      /\ format_1f (mul (ratio 1 3) (of_int 100)) = "33.3"
      /\ format_1f (mul (ratio 2 3) (of_int 100)) = "66.7"
      /\ format_1f (mul (ratio 3 3) (of_int 100)) = "100.0"
      /\ format_1f (mul (ratio 1 80) (of_int 100)) = "1.2").
Proof.
  intros Hc Hsize. cbv zeta.
  set (total := Z.of_nat (size (FIRMWARE_CHUNKS f))).
  assert (Hpos : (0 <? total) = true) by (apply Z.ltb_lt; lia).
  assert (Hnz : (total =? 0) = false) by (apply Z.eqb_neq; lia).
  split; [|split].
  - destruct (truediv (c + 1) total) as [quotient|e] eqn:Hq.
    + apply (receive_fota_status_logs device_id r now f st c); [exact Hc|].
      fold total. unfold progress_percent. now rewrite Hpos, Hq.
    + assert (He : e = OverflowError).
      { unfold truediv in Hq. rewrite Hnz in Hq.
        destruct (ratio (c + 1) total); congruence. }
      subst e. split; [reflexivity|].
      apply (receive_fota_status_raises device_id r now f st c); [exact Hc|].
      fold total. unfold progress_percent. now rewrite Hpos, Hq.
  - rewrite receive_fota_status_registry, lookup_insert_eq, Hc.
    eexists. split; [reflexivity|]. repeat split.
  - repeat split.
Qed.

Lemma progress_is_next_chunk_over_total_witness :
  let res := receive_fota_status "EcoWatt001" (FotaReport (Some 0) None None None None)
               1000 four_chunks (Security ∅ 300 []) in
  res.1.1 = StatusSuccess
  /\ exists rest,
       FOTA_LOGS res.1.2
       = (FOTA_LOGS four_chunks
          ++ FotaEvent 1000 "EcoWatt001" "chunk_received" (ChunkProgress 0 4 "25.0")
             :: rest)%list.
Proof.
  refine (proj1 (progress_is_next_chunk_over_total "EcoWatt001"
                   (FotaReport (Some 0) None None None None) 1000 four_chunks
                   (Security ∅ 300 []) 0 eq_refl _)).
  vm_compute. lia.
Defined.

(** C10.  A rollback request for "all" (also the default when the request
    names no device) sets the flag under the key "all" and nowhere else:
    for any other device the registry entry, and so the answer to its
    poll, is what it was before the request; a device without a pending
    request of its own is answered false. *)
Theorem rollback_all_is_a_literal_key req now f d :
  default "all" (rb_device_id req) = "all" ->
  d <> "all" ->
  let f' := (trigger_fota_rollback req now f).2 in
  flag_set "all" f' = true
  /\ FOTA_STATUS f' !! d = FOTA_STATUS f !! d
  /\ (check_rollback_status (Some d) f').1 = (check_rollback_status (Some d) f).1
  /\ (flag_set d f = false ->
      (check_rollback_status (Some d) f').1 = RollbackStatus false None).
Proof.
  intros Hall Hd. cbv zeta.
  assert (Hkeep : FOTA_STATUS (trigger_fota_rollback req now f).2 !! d = FOTA_STATUS f !! d).
  { unfold trigger_fota_rollback. cbn. rewrite Hall. now rewrite lookup_insert_ne. }
  split; [|split; [exact Hkeep|split]].
  - unfold flag_set, trigger_fota_rollback. cbn. rewrite Hall, lookup_insert_eq.
    rewrite lookup_insert_ne by discriminate. rewrite lookup_insert_ne by discriminate.
    now rewrite lookup_insert_eq.
  - unfold check_rollback_status. change (default "unknown" (Some d)) with d.
    rewrite Hkeep. destruct (FOTA_STATUS f !! d) as [entry|]; [|reflexivity].
    now destruct (truthy _).
  - intros Hflag. rewrite check_when_clear; [reflexivity|].
    unfold flag_set in *. now rewrite Hkeep.
Qed.

Lemma rollback_all_is_a_literal_key_witness :
  let f := Fota None ∅ ∅ [] in
  let f' := (trigger_fota_rollback (RollbackRequest None (Some "bad build")) 1000 f).2 in
  flag_set "all" f' = true
  /\ FOTA_STATUS f' !! "EcoWatt001" = FOTA_STATUS f !! "EcoWatt001"
  /\ (check_rollback_status (Some "EcoWatt001") f').1
     = (check_rollback_status (Some "EcoWatt001") f).1
  /\ (flag_set "EcoWatt001" f = false ->
      (check_rollback_status (Some "EcoWatt001") f').1 = RollbackStatus false None).
Proof.
  refine (rollback_all_is_a_literal_key (RollbackRequest None (Some "bad build")) 1000
            (Fota None ∅ ∅ []) "EcoWatt001" eq_refl _).
  discriminate.
Defined.

(** * Further properties of the code *)

(** ** Header check and outbound nonces *)

Section GateMore.

Variable hmac : list byte -> list byte -> string.

(** Case analysis along the branches of [verify_request_security]. *)
Ltac verify_branches dev req st :=
  unfold verify_request_security; cbn [SECURITY_ENABLED negb];
  destruct (req_nonce req) as [[|n0 n1]|]; destruct (req_timestamp req) as [[|t0 t1]|];
  destruct (req_mac req) as [[|m0 m1]|];
  try destruct (int_of_str (String n0 n1)) as [n|] eqn:Hint;
  try (destruct (NONCE_STORE st !! dev) as [[k|last seen]|] eqn:Hs;
       cbn [entry_truthy];
       [ destruct (negb (_ =? 0))
       | destruct (Qlt_le_dec _ _) as [Hexp|Hlive];
         [|match goal with
           | |- context [?a <=? ?b] => destruct (a <=? b) eqn:Hle
           end]
       | ];
       try destruct (compare_digest _ _) as [[|]|e] eqn:Hmac).

Lemma verify_keeps_counter dev req now st :
  SERVER_NONCE_COUNTER (verify_request_security hmac dev req now st).2
  = SERVER_NONCE_COUNTER st.
Proof. verify_branches dev req st; reflexivity. Qed.

(** X1.  Whatever the request, the header check leaves the outbound
    counter and the sessions of all other devices alone.  When it returns
    it has appended exactly one security event, for this device and
    stamped with the time of the call: the event is [hmac_verified] exactly
    when the request is accepted, and the check reports success exactly
    when it gives no message.  When it raises, nothing is logged; the state
    is unchanged, or, when the comparison of the MACs raised on a session
    that had expired, it has lost that stale session and nothing else. *)
Theorem header_check_logs_once_and_keeps_other_sessions
    (dev : string) (req : request) (now : Q) (st : security) :
  let r := verify_request_security hmac dev req now st in
  SERVER_NONCE_COUNTER r.2 = SERVER_NONCE_COUNTER st
  /\ (forall other, other <> dev -> NONCE_STORE r.2 !! other = NONCE_STORE st !! other)
  /\ match r.1 with
     | Ret (ok, msg) =>
         (exists ev, SECURITY_LOGS r.2 = (SECURITY_LOGS st ++ [ev])%list
                     /\ ev_device_id ev = dev /\ ev_timestamp ev = now
                     /\ (ok = true <-> ev_type ev = "hmac_verified"))
         /\ (ok = true <-> msg = None)
     | Raise _ =>
         r.2 = st
         \/ (exists last seen,
               NONCE_STORE st !! dev = Some (NDict last seen)
               /\ (NONCE_EXPIRY_SECONDS < now - seen)%Q
               /\ r.2 = set_store (delete dev) st)
     end.
Proof.
  cbv zeta. verify_branches dev req st;
    cbn [fst snd set_store log_security_event NONCE_STORE SERVER_NONCE_COUNTER SECURITY_LOGS];
    (split;
     [ reflexivity
     | split;
       [ intros other Hne;
         rewrite ?lookup_insert_ne, ?lookup_delete_ne by congruence; reflexivity
       | first
           [ left; reflexivity
           | right; exists last, seen; split; [reflexivity | split; [exact Hexp | reflexivity]]
           | split;
             [ eexists; split; [reflexivity | split; [reflexivity | split; [reflexivity|]]];
               cbn [ev_type]; split; intros H; first [discriminate H | reflexivity]
             | split; intros H; first [discriminate H | reflexivity] ] ] ] ]).
Qed.

(** What an accepted request has gone through: its nonce parsed to an
    integer that is now stored with the time of the call, and a live
    dictionary session, if there was one, held a smaller nonce. *)
Lemma verify_success_inv dev req now st msg st' :
  verify_request_security hmac dev req now st = (Ret (true, msg), st') ->
  exists n,
    NONCE_STORE st' !! dev = Some (NDict n now)
    /\ (forall last seen,
          NONCE_STORE st !! dev = Some (NDict last seen) ->
          (now - seen <= NONCE_EXPIRY_SECONDS)%Q -> last < n).
Proof.
  verify_branches dev req st; intros [= <- <-];
    cbn [set_store log_security_event NONCE_STORE];
    exists n; (split; [apply lookup_insert_eq|]); intros last' seen' Heq Hwin;
    try discriminate Heq.
  - injection Heq as <- <-. exfalso. apply (Qlt_not_le _ _ Hexp Hwin).
  - injection Heq as <- <-. apply Z.leb_gt. exact Hle.
Qed.

(** X2.  Two requests of a device that the header check accepts one after
    the other, the second no more than 75 seconds after the first, carry
    strictly increasing nonces, and after each the session holds that
    request's nonce and time. *)
Theorem accepted_header_nonces_increase dev req1 req2 t1 t2 st st1 st2 msg1 msg2 :
  verify_request_security hmac dev req1 t1 st = (Ret (true, msg1), st1) ->
  verify_request_security hmac dev req2 t2 st1 = (Ret (true, msg2), st2) ->
  (t2 - t1 <= NONCE_EXPIRY_SECONDS)%Q ->
  exists n1 n2,
    NONCE_STORE st1 !! dev = Some (NDict n1 t1)
    /\ NONCE_STORE st2 !! dev = Some (NDict n2 t2)
    /\ n1 < n2.
Proof.
  intros H1 H2 Hwin.
  destruct (verify_success_inv _ _ _ _ _ _ H1) as (n1 & Hst1 & _).
  destruct (verify_success_inv _ _ _ _ _ _ H2) as (n2 & Hst2 & Hgt).
  exists n1, n2. repeat split; [exact Hst1 | exact Hst2 |].
  exact (Hgt n1 t1 Hst1 Hwin).
Qed.

End GateMore.

Lemma accepted_header_nonces_increase_witness :
  let st0 := Security ∅ 300 [] in
  let st1 := (verify_request_security toy_hmac "D" (signed_poll toy_hmac "D" "5" "1000")
                1000 st0).2 in
  let st2 := (verify_request_security toy_hmac "D" (signed_poll toy_hmac "D" "9" "1030")
                1030 st1).2 in
  exists n1 n2,
    NONCE_STORE st1 !! "D" = Some (NDict n1 1000)
    /\ NONCE_STORE st2 !! "D" = Some (NDict n2 1030)
    /\ n1 < n2.
Proof.
  refine (accepted_header_nonces_increase toy_hmac "D"
            (signed_poll toy_hmac "D" "5" "1000") (signed_poll toy_hmac "D" "9" "1030")
            1000 1030 (Security ∅ 300 []) _ _ None None eq_refl eq_refl _).
  unfold Qle. cbn. lia.
Defined.

Section OutboundNonces.

Variable hmac : list byte -> list byte -> string.
Variable json : Type.
Variable json_dumps : json -> string.
Variable no_config_payload : Z -> json.

(** For a device with a dictionary session the response is sealed under
    a nonce above the device's last accepted one. *)
Lemma create_secured_response_above_session
    (p : json) (c : ascii) (d : string) (now : Q) (st : security) (last : Z) (seen : Q) :
  NONCE_STORE st !! String c d = Some (NDict last seen) ->
  exists e st',
    create_secured_response hmac json json_dumps p (Some (String c d)) now st
    = (Ret e, st')
    /\ NONCE_STORE st' = NONCE_STORE st
    /\ last < nonce e.
Proof.
  intros Hs. unfold create_secured_response. rewrite Hs. cbn [entry_truthy].
  destruct (last <? 50) eqn:E; eexists _, _; (split; [reflexivity|]);
    (split; [reflexivity|]); cbn [nonce seal];
    [apply Z.ltb_lt in E | apply Z.ltb_ge in E]; lia.
Qed.

(** X3.  The nonce of an outbound envelope.  When the device has a
    dictionary session the nonce is above the device's last accepted
    nonce: between 2 and 51 when that nonce is below the first-contact
    threshold 50, and above the previous outbound counter otherwise.  For
    a device without session it is 2; without device context it is 2 when
    the counter is above 50 and the counter plus one otherwise.  The
    envelope's nonce is the new value of the outbound counter, the
    sessions are not touched, and a call that raises changes nothing. *)
Theorem outbound_nonce_follows_the_device
    (p : json) (device : option string) (now : Q) (st : security) :
  let r := create_secured_response hmac json json_dumps p device now st in
  match r.1 with
  | Ret e =>
      SERVER_NONCE_COUNTER r.2 = nonce e
      /\ NONCE_STORE r.2 = NONCE_STORE st
      /\ (forall d last seen,
            device = Some d -> d <> "" ->
            NONCE_STORE st !! d = Some (NDict last seen) ->
            last < nonce e
            /\ (last < 50 -> 2 <= nonce e <= 51)
            /\ (50 <= last -> SERVER_NONCE_COUNTER st < nonce e))
      /\ (forall d, device = Some d -> d <> "" -> NONCE_STORE st !! d = None ->
                    nonce e = 2)
      /\ (device = None \/ device = Some "" ->
          nonce e = if 50 <? SERVER_NONCE_COUNTER st then 2
                    else SERVER_NONCE_COUNTER st + 1)
  | Raise _ => r.2 = st
  end.
Proof.
  cbv zeta. unfold create_secured_response.
  destruct device as [[|c d]|].
  - destruct (50 <? SERVER_NONCE_COUNTER st) eqn:E; cbn;
      (repeat split; try reflexivity; intros; congruence).
  - destruct (NONCE_STORE st !! String c d) as [[k|last seen]|] eqn:Hs;
      cbn [entry_truthy].
    + destruct (negb (k =? 0)); cbn; [reflexivity|].
      repeat split; try reflexivity; intros; try congruence.
      destruct H as [H|H]; discriminate H.
    + destruct (last <? 50) eqn:E; cbn;
        (split; [reflexivity|]); (split; [reflexivity|]);
        (split; [|split; [intros d' [= <-] _ H; congruence
                         |intros [H|H]; discriminate H]]);
        intros d' last' seen' [= <-] _ H; rewrite Hs in H; injection H as <- <-;
        [apply Z.ltb_lt in E | apply Z.ltb_ge in E]; lia.
    + cbn. repeat split; try reflexivity; intros; try congruence.
      destruct H as [H|H]; discriminate H.
  - destruct (50 <? SERVER_NONCE_COUNTER st) eqn:E; cbn;
      (repeat split; try reflexivity; intros; congruence).
Qed.

(** Opening what was sealed gives the serialised payload back. *)
Lemma open_seal (flag : bool) (n ts : Z) (p : json) :
  open_envelope hmac (seal hmac json json_dumps flag n ts p) = Verified (json_dumps p).
Proof.
  unfold open_envelope, seal, envelope_mac.
  cbn [nonce timestamp encrypted payload mac].
  rewrite String.eqb_refl. destruct flag.
  - now rewrite Base64Facts.b64decode_b64encode, decode_encode.
  - reflexivity.
Qed.

(** X4.  A poll that passes the header check is always answered with a
    secured envelope, never with an error: the envelope's nonce is above
    the nonce of the poll, the session holds that nonce and the time of
    the poll, and the envelope opens to the device's pending configuration
    or, when there is none, to the no-config payload that carries the
    advanced outbound counter. *)
Theorem accepted_poll_is_answered_with_a_higher_nonce
    (PENDING_CONFIGS : gmap string json) (req : request) (now : Q)
    (st st1 : security) (msg : option string) :
  let dev := first_truthy [req_device_id req; req_arg_device_id req] "EcoWatt001" in
  verify_request_security hmac dev req now st = (Ret (true, msg), st1) ->
  exists e st2 n,
    get_device_config hmac json json_dumps no_config_payload PENDING_CONFIGS req now st
    = (Secured e, st2)
    /\ NONCE_STORE st2 !! dev = Some (NDict n now)
    /\ n < nonce e
    /\ open_envelope hmac e
       = Verified (json_dumps (default (no_config_payload (SERVER_NONCE_COUNTER st + 1))
                                 (PENDING_CONFIGS !! dev))).
Proof.
  cbv zeta. intros Hv.
  set (dev := first_truthy [req_device_id req; req_arg_device_id req] "EcoWatt001") in *.
  destruct (verify_success_inv hmac _ _ _ _ _ _ Hv) as (n & Hst1 & _).
  pose proof (verify_keeps_counter hmac dev req now st) as Hcnt.
  rewrite Hv in Hcnt. cbn [snd] in Hcnt.
  assert (Hdev : dev <> "").
  { subst dev. cbn. destruct (req_device_id req) as [[|c d]|];
      try destruct (req_arg_device_id req) as [[|c' d']|]; discriminate. }
  unfold get_device_config. fold dev. rewrite Hv.
  set (payload := default (no_config_payload (SERVER_NONCE_COUNTER st + 1))
                    (PENDING_CONFIGS !! dev)).
  set (st1' := match PENDING_CONFIGS !! dev with
               | Some _ => st1
               | None => set_counter (SERVER_NONCE_COUNTER st1 + 1) st1
               end).
  assert (Hpair : match PENDING_CONFIGS !! dev with
                  | Some pending => (pending, st1)
                  | None =>
                      let st0 := set_counter (SERVER_NONCE_COUNTER st1 + 1) st1 in
                      (no_config_payload (SERVER_NONCE_COUNTER st0), st0)
                  end = (payload, st1')).
  { subst payload st1'. destruct (PENDING_CONFIGS !! dev); [reflexivity|].
    cbn. now rewrite Hcnt. }
  cbv zeta in Hpair. rewrite Hpair. clear Hpair.
  assert (Hst1' : NONCE_STORE st1' !! dev = Some (NDict n now)).
  { subst st1'. destruct (PENDING_CONFIGS !! dev); exact Hst1. }
  pose proof (create_secured_response_seals hmac json json_dumps payload (Some dev) now st1')
    as Hseal.
  destruct dev as [|c d] eqn:Edev; [congruence|].
  destruct (create_secured_response_above_session payload c d now st1' n now Hst1')
    as (e & st2 & Hc & Hstore & Hlast).
  rewrite Hc in Hseal |- *. cbn [fst] in Hseal.
  exists e, st2, n. split; [reflexivity|]. split; [now rewrite Hstore|].
  split; [exact Hlast|]. rewrite Hseal. apply open_seal.
Qed.

End OutboundNonces.

Lemma accepted_poll_is_answered_with_a_higher_nonce_witness :
  let req := signed_poll toy_hmac "D" "5" "1000" in
  let st := Security ∅ 300 [] in
  exists e st2 n,
    get_device_config toy_hmac string (fun s => s) (fun n => "none:" ++ str n)
      ∅ req 1000 st = (Secured e, st2)
    /\ NONCE_STORE st2 !! "D" = Some (NDict n 1000)
    /\ n < nonce e
    /\ open_envelope toy_hmac e = Verified ("none:" ++ str (300 + 1)).
Proof.
  refine (accepted_poll_is_answered_with_a_higher_nonce toy_hmac string
            (fun s => s) (fun n => "none:" ++ str n) ∅
            (signed_poll toy_hmac "D" "5" "1000") 1000 (Security ∅ 300 [])
            _ _ _).
  unfold verify_request_security, signed_poll. cbn. reflexivity.
Defined.

(** *** Sweeps *)

(** A visit of another device's snapshot entry is invisible. *)
Lemma visit_other d now agg k b :
  k <> d -> view d (visit now agg (k, b)) = view d agg.
Proof.
  intros Hne. unfold visit. destruct (flush_due now b); [|reflexivity].
  now apply flush_other.
Qed.

Lemma visits_other d now items :
  d ∉ items.*1 ->
  forall agg, view d (fold_left (visit now) items agg) = view d agg.
Proof.
  intros Hnotin. apply visits_keep_view. intros b Hin. exfalso. apply Hnotin.
  apply list_elem_of_fmap. now exists (d, b).
Qed.

(** The view of a device after the flush of its buffer that holds data. *)
Lemma flush_view d now agg b :
  BUFFERS agg !! d = Some b -> has_any (reg_values b) = true ->
  view d (_flush_device_unlocked d now agg).2
  = (Some (Buffer ∅ 0 now), (records_of d agg ++ [flushed_record d now b])%list).
Proof.
  intros Hb Hany.
  destruct (flush_returns d now agg b Hb Hany) as (_ & Hup & Hbuf). cbv zeta in *.
  unfold view, records_of. rewrite Hbuf, Hup, lookup_insert_eq.
  rewrite filter_app, (filter_cons_True _ _ []) by reflexivity.
  reflexivity.
Qed.

(** A walk over a snapshot in which the device is due flushes it once. *)
Lemma visits_flush_once d now b items :
  NoDup items.*1 -> (d, b) ∈ items -> flush_due now b = true ->
  forall agg, BUFFERS agg !! d = Some b ->
    view d (fold_left (visit now) items agg)
    = (Some (Buffer ∅ 0 now), (records_of d agg ++ [flushed_record d now b])%list).
Proof.
  intros Hnd Hin Hdue.
  induction items as [|[k bk] items IH]; intros agg Hb; [inversion Hin|].
  cbn in Hnd. apply NoDup_cons in Hnd as [Hk Hnd]. cbn [fold_left].
  destruct (decide (k = d)) as [->|Hne].
  - assert (bk = b) as ->.
    { apply elem_of_cons in Hin as [[= <-]|Hin]; [reflexivity|].
      exfalso. apply Hk. apply list_elem_of_fmap. now exists (d, b). }
    rewrite visits_other by exact Hk.
    unfold visit. rewrite Hdue. apply flush_view; [exact Hb|].
    unfold flush_due in Hdue. now apply andb_prop in Hdue as [? _].
  - apply elem_of_cons in Hin as [[= ? ?]|Hin]; [congruence|].
    pose proof (visit_other d now agg k bk Hne) as Hv.
    assert (Hbuf : BUFFERS (visit now agg (k, bk)) !! d = BUFFERS agg !! d)
      by exact (f_equal fst Hv).
    assert (Hrec : records_of d (visit now agg (k, bk)) = records_of d agg)
      by exact (f_equal snd Hv).
    rewrite IH; [|exact Hnd|exact Hin|now rewrite Hbuf].
    now rewrite Hrec.
Qed.

(** What one pass of the flusher does to a device. *)
Lemma sweep_view d now agg :
  view d (_flusher_loop_pass now agg)
  = match BUFFERS agg !! d with
    | Some b =>
        if flush_due now b
        then (Some (Buffer ∅ 0 now), (records_of d agg ++ [flushed_record d now b])%list)
        else view d agg
    | None => view d agg
    end.
Proof.
  destruct (BUFFERS agg !! d) as [b|] eqn:Hb.
  - destruct (flush_due now b) eqn:Hdue.
    + unfold _flusher_loop_pass. apply visits_flush_once; try assumption.
      * apply NoDup_fst_map_to_list.
      * now apply elem_of_map_to_list.
    + apply sweep_keeps_view. intros b' Hb'. congruence.
  - apply sweep_keeps_view. intros b' Hb'. congruence.
Qed.

(** X5.  One pass of the flusher, seen from any device: a buffer that
    holds data and has been idle for at least 15 seconds is flushed exactly
    once, which appends one record with the buffer's byte count and
    averages and leaves an empty buffer stamped with the time of the pass;
    every other device keeps its buffer and its records. *)
Theorem sweep_flushes_exactly_the_due_buffers (d : string) (now : Q) (agg : aggregator) :
  view d (_flusher_loop_pass now agg)
  = match BUFFERS agg !! d with
    | Some b =>
        if has_any (reg_values b)
           && Qle_bool FLUSH_INTERVAL_SEC (now - last_seen b)
        then (Some (Buffer ∅ 0 now), (records_of d agg ++ [flushed_record d now b])%list)
        else view d agg
    | None => view d agg
    end.
Proof.
  rewrite sweep_view. destruct (BUFFERS agg !! d) as [b|]; [|reflexivity].
  unfold flush_due.
  destruct (Qlt_le_dec (now - last_seen b) FLUSH_INTERVAL_SEC) as [Hlt|Hle].
  - destruct (Qle_bool _ _) eqn:E; [|reflexivity].
    apply Qle_bool_iff in E. exfalso. exact (Qlt_not_le _ _ Hlt E).
  - apply Qle_bool_iff in Hle. now rewrite Hle.
Qed.

(** After a pass no buffer is due at the time of the pass. *)
Lemma sweep_leaves_none_due now agg d b :
  BUFFERS (_flusher_loop_pass now agg) !! d = Some b -> flush_due now b = false.
Proof.
  intros Hb. pose proof (f_equal fst (sweep_view d now agg)) as Hv.
  unfold view in Hv at 1. cbn [fst] in Hv. rewrite Hb in Hv.
  destruct (BUFFERS agg !! d) as [b0|] eqn:Hb0.
  - destruct (flush_due now b0) eqn:Hdue.
    + injection Hv as ->. reflexivity.
    + unfold view in Hv. cbn in Hv. congruence.
  - unfold view in Hv. cbn in Hv. congruence.
Qed.

Lemma visits_none_due now items :
  Forall (fun item => flush_due now item.2 = false) items ->
  forall agg, fold_left (visit now) items agg = agg.
Proof.
  induction 1 as [|[k b] items Hb _ IH]; intros agg; [reflexivity|].
  cbn [fold_left]. rewrite IH. unfold visit. cbn in Hb. now rewrite Hb.
Qed.

(** X6.  A second pass of the flusher at the same clock reading changes
    nothing: buffers, records and what was handed to the sink stay as the
    first pass left them. *)
Theorem sweep_twice_is_sweep_once (now : Q) (agg : aggregator) :
  _flusher_loop_pass now (_flusher_loop_pass now agg) = _flusher_loop_pass now agg.
Proof.
  unfold _flusher_loop_pass at 1. apply visits_none_due.
  apply Forall_forall. intros [d b] Hin. cbn.
  apply elem_of_map_to_list in Hin. exact (sweep_leaves_none_due now agg d b Hin).
Qed.

(** *** Byte accounting *)

Lemma flushed_bytes_snoc d agg rec recs :
  records_of d agg = (recs ++ [rec])%list ->
  flushed_bytes d agg = foldr Z.add 0 (ur_bytes <$> recs) + ur_bytes rec.
Proof.
  unfold flushed_bytes. intros ->. rewrite fmap_app, foldr_app. cbn.
  generalize (ur_bytes <$> recs). intros l. induction l as [|x l IH]; cbn; lia.
Qed.

Lemma step_conserves_bytes d agg e :
  flushed_bytes d (step agg e) + buffered_bytes d (step agg e)
  = flushed_bytes d agg + buffered_bytes d agg + ingested_bytes d [e].
Proof.
  destruct e as [k payload now|now]; cbn [ingested_bytes].
  - unfold flushed_bytes. rewrite ingest_records. fold (flushed_bytes d agg).
    unfold buffered_bytes. cbn. unfold ingest. cbn [BUFFERS].
    destruct (String.eqb_spec k d) as [->|Hne].
    + rewrite lookup_insert_eq. cbn.
      destruct (BUFFERS agg !! d); cbn; lia.
    + rewrite lookup_insert_ne by exact Hne. lia.
  - cbn [step]. pose proof (sweep_view d now agg) as Hv.
    unfold buffered_bytes.
    destruct (BUFFERS agg !! d) as [b|] eqn:Hb.
    + destruct (flush_due now b).
      * injection Hv as Hbuf Hrec. rewrite Hbuf. cbn.
        rewrite (flushed_bytes_snoc d _ _ _ Hrec). cbn. unfold flushed_bytes. lia.
      * unfold view in Hv. injection Hv as Hbuf Hrec. rewrite Hbuf, Hb.
        unfold flushed_bytes. rewrite Hrec. lia.
    + unfold view in Hv. injection Hv as Hbuf Hrec. rewrite Hbuf, Hb.
      unfold flushed_bytes. rewrite Hrec. lia.
Qed.

Lemma ingested_bytes_app d tr1 tr2 :
  ingested_bytes d (tr1 ++ tr2) = ingested_bytes d tr1 + ingested_bytes d tr2.
Proof.
  induction tr1 as [|[k p now|now] tr1 IH]; cbn; rewrite ?IH; lia.
Qed.

(** X7.  No byte is lost or counted twice.  Over any run of uploads and
    flusher passes, the byte counts of a device's flushed records plus the
    count waiting in its buffer add up to the bytes of all payloads the
    device has uploaded, including payloads too short to hold a sample. *)
Theorem bytes_are_conserved (trace : list event) (d : string) :
  flushed_bytes d (run trace) + buffered_bytes d (run trace) = ingested_bytes d trace.
Proof.
  induction trace as [|e trace IH] using rev_ind; [reflexivity|].
  rewrite run_snoc, step_conserves_bytes, IH, ingested_bytes_app. lia.
Qed.

(** *** Wire format of the samples *)

Lemma frames_ind (P : list byte -> Prop) :
  (forall l, (length l < 9)%nat -> P l) ->
  (forall t0 t1 t2 t3 r v0 v1 v2 v3 rest,
      P rest -> P (t0 :: t1 :: t2 :: t3 :: r :: v0 :: v1 :: v2 :: v3 :: rest)) ->
  forall l, P l.
Proof.
  intros Hshort Hframe. fix IH 1. intros l.
  destruct l as [|t0 [|t1 [|t2 [|t3 [|r [|v0 [|v1 [|v2 [|v3 rest]]]]]]]]];
    try (apply Hshort; cbn; lia).
  apply Hframe. apply IH.
Qed.

Lemma decompress_short l : (length l < 9)%nat -> decompress_delta_payload l = [].
Proof.
  intros H. do 9 (destruct l as [|? l]; [reflexivity|]). cbn in H. lia.
Qed.

Lemma byte_value_bound b : 0 <= byte_value b < 256.
Proof.
  unfold byte_value. pose proof (Byte.to_N_bounded b) as H. lia.
Qed.

Lemma le_uint_bound bs : 0 <= le_uint bs < 256 ^ Z.of_nat (length bs).
Proof.
  induction bs as [|b bs IH]; [cbn; lia|].
  cbn [le_uint length]. rewrite Nat2Z.inj_succ, Z.pow_succ_r by lia.
  pose proof (byte_value_bound b) as Hb. unfold byte_value in Hb. lia.
Qed.

(** X8.  The binary upload format.  A payload decodes to one sample per
    complete nine-byte frame; trailing bytes that do not fill a frame are
    dropped; decoding is frame by frame, so a payload that ends on a frame
    boundary followed by another payload decodes to the samples of both;
    and every sample carries a 32-bit time stamp and an 8-bit register
    address. *)
Theorem decompress_delta_payload_frame_by_frame (data : list byte) :
  Z.of_nat (length (decompress_delta_payload data)) = Z.of_nat (length data) / 9
  /\ Forall (fun s => 0 <= s_timestamp s < 2 ^ 32 /\ 0 <= s_reg_addr s < 256)
       (decompress_delta_payload data)
  /\ (forall more,
        Z.of_nat (length data) mod 9 = 0 ->
        decompress_delta_payload (data ++ more)
        = (decompress_delta_payload data ++ decompress_delta_payload more)%list)
  /\ (forall tail,
        Z.of_nat (length data) mod 9 = 0 -> (length tail < 9)%nat ->
        decompress_delta_payload (data ++ tail) = decompress_delta_payload data).
Proof.
  assert (Happ : forall more,
             Z.of_nat (length data) mod 9 = 0 ->
             decompress_delta_payload (data ++ more)
             = (decompress_delta_payload data ++ decompress_delta_payload more)%list).
  { intros more. induction data as [l Hl|t0 t1 t2 t3 r v0 v1 v2 v3 rest IH] using frames_ind.
    - intros Hmod. rewrite Z.mod_small in Hmod by lia.
      destruct l; [reflexivity | discriminate Hmod].
    - intros Hmod. cbn [app decompress_delta_payload]. rewrite IH; [reflexivity|].
      change (length (t0 :: t1 :: t2 :: t3 :: r :: v0 :: v1 :: v2 :: v3 :: rest))
        with (9 + length rest)%nat in Hmod.
      rewrite Nat2Z.inj_add, Z.add_comm in Hmod.
      change (Z.of_nat 9) with (1 * 9) in Hmod.
      now rewrite Z.mod_add in Hmod by lia. }
  split; [|split; [|split]].
  - clear Happ.
    induction data as [l Hl|t0 t1 t2 t3 r v0 v1 v2 v3 rest IH] using frames_ind.
    + rewrite decompress_short by exact Hl. rewrite Z.div_small by lia. reflexivity.
    + change (length (t0 :: t1 :: t2 :: t3 :: r :: v0 :: v1 :: v2 :: v3 :: rest))
        with (9 + length rest)%nat.
      rewrite Nat2Z.inj_add, Z.add_comm. change (Z.of_nat 9) with (1 * 9).
      rewrite Z.div_add by lia. cbn [decompress_delta_payload length].
      rewrite Nat2Z.inj_succ, IH. lia.
  - clear Happ.
    induction data as [l Hl|t0 t1 t2 t3 r v0 v1 v2 v3 rest IH] using frames_ind.
    + rewrite decompress_short by exact Hl. constructor.
    + cbn [decompress_delta_payload]. constructor; [|exact IH].
      cbn [s_timestamp s_reg_addr].
      pose proof (le_uint_bound [t0; t1; t2; t3]) as Ht.
      pose proof (le_uint_bound [r]) as Hr.
      cbn [length] in Ht, Hr. change (256 ^ Z.of_nat 4) with (2 ^ 32) in Ht.
      change (256 ^ Z.of_nat 1) with 256 in Hr. split; assumption.
  - exact Happ.
  - intros tail Hmod Htail. rewrite Happ by exact Hmod.
    rewrite (decompress_short tail Htail). apply app_nil_r.
Qed.

(** *** Buffering *)

Lemma fold_append_value samples rv r :
  default [] (fold_left append_value samples rv !! r)
  = (default [] (rv !! r)
     ++ (s_value <$> filter (fun s => s_reg_addr s = r) samples))%list.
Proof.
  revert rv. induction samples as [|s samples IH]; intros rv.
  - cbn. now rewrite app_nil_r.
  - cbn [fold_left]. rewrite IH. unfold append_value.
    destruct (decide (s_reg_addr s = r)) as [E|E].
    + rewrite filter_cons_True by exact E. rewrite E, lookup_insert_eq.
      cbn. now rewrite <- app_assoc.
    + rewrite filter_cons_False by exact E. now rewrite lookup_insert_ne.
Qed.

(** X9.  Buffering keeps arrival order.  After an upload the values
    buffered for a register of the device are the values that were
    buffered before, followed by the values of the payload's samples for
    that register in payload order; the buffers of other devices are not
    touched, and nothing is flushed by the upload itself. *)
Theorem upload_appends_in_arrival_order
    (d : string) (payload : list byte) (now : Q) (agg : aggregator) (r : Z) :
  let agg' := (upload_ingest d payload now agg).2 in
  buffered_values d r agg'
  = (buffered_values d r agg
     ++ (s_value <$> filter (fun s => s_reg_addr s = r)
                            (decompress_delta_payload payload)))%list
  /\ (forall d', d' <> d -> BUFFERS agg' !! d' = BUFFERS agg !! d')
  /\ UPLOADS agg' = UPLOADS agg
  /\ PUSHED agg' = PUSHED agg.
Proof.
  cbv zeta. unfold upload_ingest, ingest, buffered_values. cbn [snd BUFFERS UPLOADS PUSHED].
  split; [|split; [|split; reflexivity]].
  - rewrite lookup_insert_eq. cbn. rewrite fold_append_value.
    destruct (BUFFERS agg !! d) as [b|]; reflexivity.
  - intros d' Hne. now rewrite lookup_insert_ne.
Qed.

(** *** Order of the flushed samples *)

Lemma sorted_items_increasing rv :
  StronglySorted (fun a b => a.1 < b.1) (sorted_items rv).
Proof.
  pose proof (NoDup_sorted_keys rv) as Hnd.
  assert (Hs : StronglySorted item_le (sorted_items rv))
    by apply (StronglySorted_merge_sort item_le).
  induction Hs as [|a l Hs IH Hall]; [constructor|].
  cbn in Hnd. apply NoDup_cons in Hnd as [Hnotin Hnd].
  constructor; [now apply IH|].
  apply Forall_forall. intros b Hb.
  pose proof (proj1 (Forall_forall _ _) Hall b Hb) as Hle. unfold item_le in Hle.
  assert (a.1 <> b.1).
  { intros E. apply Hnotin. rewrite E. apply list_elem_of_fmap. now exists b. }
  lia.
Qed.

Lemma averaged_increasing now items :
  StronglySorted (fun a b => a.1 < b.1) items ->
  StronglySorted Z.lt (as_reg_addr <$> omap (averaged now) items).
Proof.
  induction 1 as [|a l Hs IH Hall]; [constructor|].
  cbn -[averaged]. destruct (averaged now a) as [s|] eqn:E; [|exact IH].
  cbn -[averaged]. constructor; [exact IH|].
  apply Forall_forall. intros r Hr.
  apply list_elem_of_fmap in Hr as (s' & -> & Hs').
  apply list_elem_of_omap in Hs' as (b & Hb & E').
  rewrite (averaged_reg _ _ _ E), (averaged_reg _ _ _ E').
  exact (proj1 (Forall_forall _ _) Hall b Hb).
Qed.

(** X10.  A flush of a buffer that holds data hands the sink what it
    records: the samples of the record are in strictly increasing register
    order, the payload pushed to the sink carries their values in that
    order, and its benchmark counts them, at twelve bytes each, against
    the bytes received. *)
Theorem flush_pushes_what_it_records device_id now agg buf :
  BUFFERS agg !! device_id = Some buf ->
  has_any (reg_values buf) = true ->
  exists rec p,
    (_flush_device_unlocked device_id now agg).1 = Some rec
    /\ StronglySorted Z.lt (as_reg_addr <$> ur_samples rec)
    /\ PUSHED (_flush_device_unlocked device_id now agg).2 = (PUSHED agg ++ [p])%list
    /\ pp_device_id p = device_id
    /\ pp_samples p = as_value <$> ur_samples rec
    /\ num_samples (pp_benchmark p) = Z.of_nat (length (ur_samples rec))
    /\ original_size (pp_benchmark p) = 12 * num_samples (pp_benchmark p)
    /\ compressed_size (pp_benchmark p) = ur_bytes rec.
Proof.
  intros Hb Hany. unfold _flush_device_unlocked. rewrite Hb, Hany. cbn [negb].
  pose proof (average_fold now (sorted_items (reg_values buf)) ([], [])) as Hf.
  destruct (fold_left (average_step now) (sorted_items (reg_values buf)) ([], []))
    as [averaged_samples values_flat].
  cbn in Hf. subst averaged_samples.
  eexists _, _. cbn [fst snd PUSHED]. split; [reflexivity|].
  split; [apply averaged_increasing, sorted_items_increasing|].
  split; [reflexivity|]. cbn. repeat split. lia.
Qed.

(** *** The averages in floating point *)

Lemma add_nan (x : pyfloat) : add x NaN = NaN.
Proof. destruct x; reflexivity. Qed.

Lemma add_inf_l (s : bool) (y : pyfloat) :
  add (Inf s) y = NaN \/ (add (Inf s) y = Inf s /\ y <> Inf (negb s)).
Proof.
  destruct y as [z|s'| |s' m e]; cbn.
  - right. split; [reflexivity | discriminate].
  - destruct s, s'; cbn; first [left; reflexivity | right; split; [reflexivity | discriminate]].
  - left. reflexivity.
  - right. split; [reflexivity | discriminate].
Qed.

Lemma add_inf_r (x : pyfloat) (s : bool) :
  add x (Inf s) = NaN \/ add x (Inf s) = Inf s.
Proof.
  destruct x as [z|s'| |s' m e]; cbn; try (right; reflexivity); try (left; reflexivity).
  destruct s, s'; cbn; first [left; reflexivity | right; reflexivity].
Qed.

Lemma sum_not_a_number (vals : list pyfloat) :
  forall acc,
    acc = NaN \/ NaN ∈ vals
    \/ (exists s, acc = Inf s /\ Inf (negb s) ∈ vals)
    \/ (Inf false ∈ vals /\ Inf true ∈ vals) ->
    fold_left add vals acc = NaN.
Proof.
  induction vals as [|v vals IH]; intros acc H.
  - destruct H as [H|[H|[(s & _ & H)|[H _]]]]; [exact H | inversion H..].
  - cbn [fold_left]. apply IH. clear IH.
    destruct H as [->|[H|[(s & -> & H)|[H1 H2]]]].
    + left. reflexivity.
    + apply elem_of_cons in H as [<-|H]; [left; apply add_nan | right; left; exact H].
    + apply elem_of_cons in H as [<-|H].
      * left. destruct s; reflexivity.
      * destruct (add_inf_l s v) as [E|[E _]]; [left; exact E|].
        right. right. left. exists s. split; [exact E | exact H].
    + apply elem_of_cons in H1 as [<-|H1]; apply elem_of_cons in H2 as [E2|H2];
        try discriminate E2.
      * destruct (add_inf_r acc false) as [E|E]; [left; exact E|].
        right. right. left. exists false. split; [exact E | exact H2].
      * subst v. destruct (add_inf_r acc true) as [E|E]; [left; exact E|].
        right. right. left. exists true. split; [exact E | exact H1].
      * right. right. right. split; assumption.
Qed.

(** X11.  A flushed average in binary64.  A NaN among a register's
    values, or infinities of both signs, make the sample's value NaN.  The
    additions of [sum] are rounded one by one, from left to right, so the
    order of the values matters: 1e30, 1000.0 and -1e30, whose exact sum
    is 1000, are averaged to 0.0, and the same values in the order 1e30,
    -1e30, 1000.0 to 333.333. *)
Theorem flushed_average_in_binary64 (now : Q) (reg : Z) :
  (forall vals,
      NaN ∈ vals \/ (Inf false ∈ vals /\ Inf true ∈ vals) ->
      averaged now (reg, vals) = Some (AveragedSample (int_of_float now) reg NaN))
  /\ averaged now (reg, [of_int (10 ^ 30); of_int 1000; of_int (- 10 ^ 30)])
     = Some (AveragedSample (int_of_float now) reg (of_int 0))
  /\ averaged now (reg, [of_int (10 ^ 30); of_int (- 10 ^ 30); of_int 1000])
     = Some (AveragedSample (int_of_float now) reg (ratio 333333 1000))
  /\ (to_Q (of_int (10 ^ 30)) + to_Q (of_int 1000) + to_Q (of_int (- 10 ^ 30))
      == 1000)%Q.
Proof.
  split; [|split; [|split]].
  - intros vals Hin. unfold averaged. cbn [snd fst].
    assert (Hsum : sum vals = NaN).
    { unfold sum. apply sum_not_a_number. right.
      destruct Hin as [Hin|Hin]; [left; exact Hin | right; right; exact Hin]. }
    destruct vals as [|v vals].
    { destruct Hin as [Hin|[Hin _]]; inversion Hin. }
    unfold mean. rewrite Hsum. reflexivity.
  - unfold averaged. cbn [snd fst]. do 2 f_equal.
  - unfold averaged. cbn [snd fst]. do 2 f_equal.
  - vm_compute. reflexivity.
Qed.

Section FirmwareMore.

Variable sha256_hex : list byte -> string.
Variable hmac : list byte -> list byte -> string.

(** The table the chunking loop builds. *)
Lemma chunk_table_lookup (g : Z -> chunk) (l : list Z) (t : gmap Z chunk) (i : Z) :
  fold_left (fun table i => <[i := g i]> table) l t !! i
  = if decide (i ∈ l) then Some (g i) else t !! i.
Proof.
  revert t. induction l as [|j l IH]; intros t; [reflexivity|].
  cbn [fold_left]. rewrite IH.
  destruct (decide (i ∈ l)) as [Hin|Hnotin].
  - rewrite decide_True by (now apply list_elem_of_further). reflexivity.
  - destruct (decide (i = j)) as [->|Hne].
    + rewrite decide_True by apply list_elem_of_here. apply lookup_insert_eq.
    + rewrite decide_False by (rewrite elem_of_cons; tauto).
      now rewrite lookup_insert_ne.
Qed.

(** What an accepted upload leaves behind. *)
Lemma upload_firmware_accepted req now f m n f' :
  upload_firmware sha256_hex hmac req now f = (FirmwareUploaded m n, f') ->
  exists v size h d image,
    let cs := default 1024 (fw_chunk_size req) in
    fw_version req = Some v /\ fw_size req = Some size /\ fw_hash req = Some h
    /\ fw_data req = Some d /\ Base64.b64decode d = Some image
    /\ sha256_hex image = h /\ cs <> 0
    /\ n = (Z.of_nat (length image) + cs - 1) / cs
    /\ m = Some (Manifest v size h cs now)
    /\ FIRMWARE_MANIFEST f' = m
    /\ FIRMWARE_CHUNKS f'
       = fold_left (fun table i => <[i := make_chunk hmac image cs i]> table)
           (seqZ 0 n) ∅
    /\ FOTA_STATUS f' = FOTA_STATUS f.
Proof.
  unfold upload_firmware.
  destruct (fw_version req) as [[|v0 v1]|]; try discriminate.
  destruct (fw_size req) as [size|]; try discriminate.
  destruct (fw_hash req) as [[|h0 h1]|]; try discriminate.
  destruct (fw_data req) as [[|d0 d1]|]; try discriminate.
  destruct (size =? 0); [discriminate|].
  destruct (Base64.b64decode (String d0 d1)) as [image|] eqn:Hdec; [|discriminate].
  destruct (negb _) eqn:Hhash; [discriminate|].
  apply negb_false_iff, String.eqb_eq in Hhash.
  destruct (default 1024 (fw_chunk_size req) =? 0) eqn:Hcs; [discriminate|].
  apply Z.eqb_neq in Hcs. cbn -[Z.div seqZ make_chunk String.append str].
  intros [= <- <- <-].
  exists (String v0 v1), size, (String h0 h1), (String d0 d1), image.
  cbv zeta. cbn -[Z.div seqZ make_chunk]. repeat split; try assumption.
Qed.

(** The decoded chunks of an image, laid end to end, are the image. *)
Lemma slices_tile (image : list byte) (cs : Z) (k : nat) :
  0 < cs ->
  concat ((fun i => slice image (i * cs)
                      (Z.min (i * cs + cs) (Z.of_nat (length image))))
            <$> seqZ 0 (Z.of_nat k))
  = take (Z.to_nat (Z.of_nat k * cs)) image.
Proof.
  intros Hcs. induction k as [|k IH]; [reflexivity|].
  rewrite seqZ_S, fmap_app, concat_app, IH. cbn [fmap list_fmap concat].
  rewrite app_nil_r, Z.add_0_l. unfold slice, clamp_index.
  remember (Z.of_nat (length image)) as len eqn:Hlen.
  assert (Hk : 0 <= Z.of_nat k * cs) by lia.
  rewrite (proj2 (Z.ltb_ge (Z.of_nat k * cs) 0)) by exact Hk.
  rewrite (proj2 (Z.ltb_ge (Z.min (Z.of_nat k * cs + cs) len) 0)) by lia.
  destruct (Z_le_gt_dec len (Z.of_nat k * cs)) as [Hfull|Hpart].
  - rewrite drop_ge by lia. rewrite take_nil, app_nil_r. now rewrite !take_ge by lia.
  - replace (Z.to_nat (Z.min (Z.of_nat k * cs) len)) with (Z.to_nat (Z.of_nat k * cs)) by lia.
    rewrite take_take_drop. 
    destruct (Z_le_gt_dec len (Z.of_nat k * cs + cs)) as [Hlast|Hmore].
    + rewrite !take_ge; [reflexivity|lia|lia].
    + f_equal. lia.
Qed.

Lemma download_chunks (f : fota) (image : list byte) (cs : Z) (l : list Z) :
  (forall i, i ∈ l -> get_fota_chunk i f = Some (make_chunk hmac image cs i)) ->
  download f l
  = Some (concat ((fun i => slice image (i * cs)
                              (Z.min (i * cs + cs) (Z.of_nat (length image)))) <$> l)).
Proof.
  induction l as [|i l IH]; intros Hl; [reflexivity|].
  cbn [download fmap list_fmap concat].
  rewrite (Hl i) by apply list_elem_of_here.
  rewrite IH by (intros j Hj; apply Hl; now apply list_elem_of_further).
  unfold make_chunk at 1. cbn [data].
  now rewrite Base64Facts.b64decode_b64encode.
Qed.

(** X12.  What an accepted firmware upload serves.  With a positive chunk
    size the chunk route answers exactly the indices from 0 up to the
    chunk count of the response; a device that downloads these chunks in
    order and decodes them obtains the uploaded image byte for byte; every
    chunk carries its own index, at most [chunk_size] bytes, and the MAC
    of its bytes; and the image is the one whose SHA-256 the manifest
    announces. *)
Theorem accepted_firmware_is_served_whole req now f m n f' :
  upload_firmware sha256_hex hmac req now f = (FirmwareUploaded m n, f') ->
  0 < default 1024 (fw_chunk_size req) ->
  exists image manifest,
    fw_data req ≫= Base64.b64decode = Some image
    /\ FIRMWARE_MANIFEST f' = Some manifest
    /\ hash manifest = sha256_hex image
    /\ chunk_size manifest = default 1024 (fw_chunk_size req)
    /\ (forall i, is_Some (get_fota_chunk i f') <-> 0 <= i < n)
    /\ download f' (seqZ 0 n) = Some image
    /\ (forall i c,
          get_fota_chunk i f' = Some c ->
          exists bytes,
            Base64.b64decode (data c) = Some bytes
            /\ chunk_number c = i
            /\ chunk_len c = Z.of_nat (length bytes)
            /\ chunk_len c <= chunk_size manifest
            /\ chunk_mac c = hmac PRE_SHARED_KEY bytes).
Proof.
  intros Hup Hcs.
  destruct (upload_firmware_accepted _ _ _ _ _ _ Hup)
    as (v & size & h & d & image & Hv & Hsize & Hh & Hd & Hdec & Hsha & _ & Hn & Hm & Hman & Htab & _).
  cbv zeta in *. set (cs := default 1024 (fw_chunk_size req)) in *.
  assert (Hlook : forall i, get_fota_chunk i f'
                            = if decide (0 <= i < n) then Some (make_chunk hmac image cs i)
                              else None).
  { intros i. unfold get_fota_chunk. rewrite Htab, chunk_table_lookup.
    destruct (decide (i ∈ seqZ 0 n)) as [Hin|Hnotin].
    - rewrite decide_True; [reflexivity|]. apply elem_of_seqZ in Hin. lia.
    - rewrite decide_False; [apply lookup_empty|].
      intros H. apply Hnotin. apply elem_of_seqZ. lia. }
  exists image, (Manifest v size h cs now).
  split; [rewrite Hd; exact Hdec|]. split; [now rewrite Hman, Hm|].
  split; [cbn; now rewrite Hsha|]. split; [reflexivity|].
  split; [|split].
  - intros i. rewrite Hlook. destruct (decide (0 <= i < n)) as [Hi|Hi].
    + split; [intros _; exact Hi | intros _; eexists; reflexivity].
    + split; [intros [c Hc]; discriminate Hc | intros H; contradiction].
  - rewrite (download_chunks f' image cs).
    + assert (Hn0 : 0 <= n) by (rewrite Hn; apply Z.div_pos; lia).
      rewrite <- (Z2Nat.id n) by exact Hn0. rewrite slices_tile by exact Hcs.
      rewrite take_ge; [reflexivity|].
      rewrite Z2Nat.id by exact Hn0.
      assert (Z.of_nat (length image) <= n * cs); [|lia].
      rewrite Hn.
      pose proof (Z.mul_div_le (Z.of_nat (length image) + cs - 1) cs Hcs).
      pose proof (Z.mod_pos_bound (Z.of_nat (length image) + cs - 1) cs Hcs).
      pose proof (Z.div_mod (Z.of_nat (length image) + cs - 1) cs). lia.
    + intros i Hi. rewrite Hlook. apply elem_of_seqZ in Hi.
      rewrite decide_True by lia. reflexivity.
  - intros i c. rewrite Hlook. destruct (decide (0 <= i < n)) as [Hi|Hi]; [|discriminate].
    intros [= <-]. unfold make_chunk. cbn [data chunk_number chunk_len chunk_mac chunk_size].
    eexists. split; [apply Base64Facts.b64decode_b64encode|].
    split; [reflexivity|]. split; [reflexivity|]. split; [|reflexivity].
    unfold slice, clamp_index. rewrite length_take, length_drop.
    rewrite (proj2 (Z.ltb_ge (i * cs) 0)) by lia.
    rewrite (proj2 (Z.ltb_ge (Z.min (i * cs + cs) (Z.of_nat (length image))) 0)) by lia.
    lia.
Qed.

(** X13.  A chunk size of zero is not rejected.  An upload that names a
    version, a non-zero size, a hash and base64 data that decodes to an
    image with that hash, and that asks for chunks of size 0, passes every
    check; the division by zero of the chunk count then leaves the handler
    after the manifest has been replaced and the chunk table cleared.  The
    request fails with status 500, the manifest announces the new version
    with chunk size 0, no chunk, old or new, can be fetched, and the log
    has gained the two lines of the passed checks and nothing else. *)
Theorem zero_chunk_size_leaves_a_manifest_without_chunks
    req now f (version : string) (size : Z) (expected firmware_data_b64 : string)
    (image : list byte) :
  fw_version req = Some version -> version <> "" ->
  fw_size req = Some size -> size <> 0 ->
  fw_hash req = Some expected -> expected <> "" ->
  fw_data req = Some firmware_data_b64 -> firmware_data_b64 <> "" ->
  Base64.b64decode firmware_data_b64 = Some image ->
  sha256_hex image = expected ->
  fw_chunk_size req = Some 0 ->
  let r := upload_firmware sha256_hex hmac req now f in
  r.1 = Unhandled ZeroDivisionError
  /\ status_code r.1 = 500
  /\ FIRMWARE_MANIFEST r.2 = Some (Manifest version size expected 0 now)
  /\ (forall i, get_fota_chunk i r.2 = None)
  /\ FOTA_STATUS r.2 = FOTA_STATUS f
  /\ FOTA_LOGS r.2
     = (FOTA_LOGS f
        ++ [FotaEvent now "cloud" "firmware_decoded"
              (Text ("Size: " ++ str (Z.of_nat (length image)) ++ " bytes"));
            FotaEvent now "cloud" "firmware_hash_verified" (Text ("Hash: " ++ expected))])%list.
Proof.
  intros Hv Hv0 Hs Hs0 Hh Hh0 Hd Hd0 Hdec Hsha Hcs. cbv zeta.
  unfold upload_firmware. rewrite Hv, Hs, Hh, Hd, Hcs.
  destruct version as [|v0 v1]; [congruence|].
  destruct expected as [|h0 h1]; [congruence|].
  destruct firmware_data_b64 as [|d0 d1]; [congruence|].
  rewrite (proj2 (Z.eqb_neq size 0)) by exact Hs0.
  rewrite Hdec, Hsha, String.eqb_refl.
  cbn -[str String.append]. rewrite <- app_assoc.
  repeat split.
Qed.

End FirmwareMore.

(** *** Status reports and the unified status route *)

Lemma receive_fota_status_firmware device_id r now f st :
  FIRMWARE_MANIFEST (receive_fota_status device_id r now f st).1.2 = FIRMWARE_MANIFEST f
  /\ FIRMWARE_CHUNKS (receive_fota_status device_id r now f st).1.2 = FIRMWARE_CHUNKS f.
Proof.
  report_cases r; cbn -[insert]; try (split; reflexivity);
    destruct (String.eqb _ "success"); try (split; reflexivity);
    destruct (String.eqb _ "failed"); split; reflexivity.
Qed.

(** X14.  The chunk that the unified status route offers after a status
    report.  While a firmware is on offer, a device that reported chunk
    [c] is offered chunk [c + 1] as long as that index is below the number
    of chunks, and no firmware once it has reported the last chunk; a
    report without [chunk_received] stores [None] under that key, and the
    device's next status request raises [TypeError] on [None + 1].
    Without a firmware the route answers without reading the report. *)
Theorem status_route_offers_the_chunk_after_the_reported_one
    {json command : Type} (PENDING_CONFIGS : gmap string json)
    (PENDING_COMMANDS : gmap string command)
    (d : string) (r : fota_report) (now : Q) (f : fota) (st : security) :
  device_status PENDING_CONFIGS PENDING_COMMANDS (Some d)
    (receive_fota_status d r now f st).1.2
  = match FIRMWARE_MANIFEST f, chunk_received r with
    | None, _ => Ret (StatusReply (PENDING_CONFIGS !! d) (PENDING_COMMANDS !! d) None)
    | Some m, None => Raise TypeError
    | Some m, Some c =>
        Ret (StatusReply (PENDING_CONFIGS !! d) (PENDING_COMMANDS !! d)
               (if c + 1 <? Z.of_nat (size (FIRMWARE_CHUNKS f))
                then Some (m, c + 1) else None))
    end.
Proof.
  unfold device_status.
  pose proof (receive_fota_status_firmware d r now f st) as [Hm Hc].
  pose proof (receive_fota_status_registry d r now f st) as Hreg.
  rewrite Hm, Hc, Hreg. change (default "EcoWatt001" (Some d)) with d.
  destruct (FIRMWARE_MANIFEST f) as [m|]; [|reflexivity].
  rewrite lookup_insert_eq. cbn [from_option id]. rewrite lookup_insert_eq.
  destruct (chunk_received r) as [c|]; cbn [of_opt_int from_option id plus_one]; [|reflexivity].
  destruct (c + 1 <? _); reflexivity.
Qed.

(** *** Logs of the firmware manager *)

Lemma receive_fota_status_appends device_id r now f st :
  FOTA_LOGS f `prefix_of` FOTA_LOGS (receive_fota_status device_id r now f st).1.2
  /\ SECURITY_LOGS st `prefix_of` SECURITY_LOGS (receive_fota_status device_id r now f st).2
  /\ NONCE_STORE (receive_fota_status device_id r now f st).2 = NONCE_STORE st
  /\ SERVER_NONCE_COUNTER (receive_fota_status device_id r now f st).2
     = SERVER_NONCE_COUNTER st.
Proof.
  report_cases r;
    cbn -[insert format_1f String.append];
    try destruct (String.eqb _ "success"); try destruct (String.eqb _ "failed");
    cbn -[insert format_1f String.append];
    rewrite <- ?app_assoc;
    (split; [first [reflexivity | apply prefix_app_r; reflexivity]|]);
    (split; [first [reflexivity | apply prefix_app_r; reflexivity]|]);
    split; reflexivity.
Qed.

(** X15.  The logs of the firmware manager only grow.  Over any sequence
    of rollback requests, rollback polls and status reports every entry of
    the FOTA log and of the security log stays where it is, new entries
    are appended behind it, and neither the device sessions nor the
    outbound nonce counter are touched. *)
Theorem firmware_operations_only_append_to_the_logs
    (ops : list fota_op) (s : fota * security) :
  let s' := fold_left fota_step ops s in
  FOTA_LOGS s.1 `prefix_of` FOTA_LOGS s'.1
  /\ SECURITY_LOGS s.2 `prefix_of` SECURITY_LOGS s'.2
  /\ NONCE_STORE s'.2 = NONCE_STORE s.2
  /\ SERVER_NONCE_COUNTER s'.2 = SERVER_NONCE_COUNTER s.2
  /\ FIRMWARE_MANIFEST s'.1 = FIRMWARE_MANIFEST s.1
  /\ FIRMWARE_CHUNKS s'.1 = FIRMWARE_CHUNKS s.1.
Proof.
  cbv zeta. revert s. induction ops as [|op ops IH]; intros s.
  - cbn. repeat split; reflexivity.
  - cbn [fold_left]. destruct (IH (fota_step s op)) as (Hf & Hs & Hn & Hc & Hm & Hk).
    assert (Hstep : FOTA_LOGS s.1 `prefix_of` FOTA_LOGS (fota_step s op).1
                    /\ SECURITY_LOGS s.2 `prefix_of` SECURITY_LOGS (fota_step s op).2
                    /\ NONCE_STORE (fota_step s op).2 = NONCE_STORE s.2
                    /\ SERVER_NONCE_COUNTER (fota_step s op).2 = SERVER_NONCE_COUNTER s.2
                    /\ FIRMWARE_MANIFEST (fota_step s op).1 = FIRMWARE_MANIFEST s.1
                    /\ FIRMWARE_CHUNKS (fota_step s op).1 = FIRMWARE_CHUNKS s.1).
    { destruct op as [req t|header|device_id r t]; cbn [fota_step].
      - cbn. repeat split; try reflexivity. now apply prefix_app_r.
      - unfold check_rollback_status.
        destruct (FOTA_STATUS s.1 !! default "unknown" header) as [entry|];
          [destruct (truthy _)|]; cbn; repeat split; reflexivity.
      - pose proof (receive_fota_status_appends device_id r t s.1 s.2) as (H1 & H2 & H3 & H4).
        pose proof (receive_fota_status_firmware device_id r t s.1 s.2) as (H5 & H6).
        destruct (receive_fota_status device_id r t s.1 s.2) as [[resp f'] st'].
        cbn in *. repeat split; assumption. }
    destruct Hstep as (Hf' & Hs' & Hn' & Hc' & Hm' & Hk').
    split; [etrans; eassumption|]. split; [etrans; eassumption|].
    repeat split; congruence.
Qed.

(** ** Modbus simulator *)

Module HexFacts.

Import Hex.
Local Open Scope N_scope.

(** Checked on all 256 byte values: the two digits [hex_upper] prints for
    a byte are read back by [fromhex] as that byte. *)
Lemma digits_of_byte (b : byte) :
  let x := Byte.to_N b in
  is_space (upper_digit (N.shiftr x 4)) = false
  /\ exists t u,
       digit_value (upper_digit (N.shiftr x 4)) = Some t
       /\ digit_value (upper_digit (N.land x 15)) = Some u
       /\ N.shiftl t 4 + u = x.
Proof.
  pose proof (Base64Facts.forall_below 256
    (fun x => negb (is_space (upper_digit (N.shiftr x 4)))
              && match digit_value (upper_digit (N.shiftr x 4)),
                       digit_value (upper_digit (N.land x 15)) with
                 | Some t, Some u => N.shiftl t 4 + u =? x
                 | _, _ => false
                 end)
    ltac:(vm_compute; reflexivity) (Byte.to_N b)) as H.
  pose proof (Byte.to_N_bounded b) as Hb.
  specialize (H ltac:(lia)). cbv beta in H. apply andb_prop in H as [Hs Hd].
  cbv zeta. split; [now apply negb_true_iff in Hs|].
  destruct (digit_value (upper_digit (N.shiftr (Byte.to_N b) 4))) as [t|]; [|discriminate Hd].
  destruct (digit_value (upper_digit (N.land (Byte.to_N b) 15))) as [u|]; [|discriminate Hd].
  exists t, u. repeat split. now apply N.eqb_eq.
Qed.

Lemma fromhex_chars_hex_upper_chars (bs : list byte) :
  fromhex_chars (hex_upper_chars bs) = Some bs.
Proof.
  induction bs as [|b bs IH]; [reflexivity|].
  cbn [hex_upper_chars fromhex_chars].
  destruct (digits_of_byte b) as (Hs & t & u & Ht & Hu & E). cbv zeta in *.
  rewrite Hs, Ht, Hu, IH, E. cbn. now rewrite Base64Facts.byte_of_to_N.
Qed.

Lemma fromhex_hex_upper (bs : list byte) : fromhex (hex_upper bs) = Some bs.
Proof.
  unfold fromhex, hex_upper. rewrite list_ascii_of_string_of_list_ascii.
  apply fromhex_chars_hex_upper_chars.
Qed.

End HexFacts.

Lemma lxor_bound (n a b : Z) :
  0 <= a < 2 ^ n -> 0 <= b < 2 ^ n -> 0 <= Z.lxor a b < 2 ^ n.
Proof.
  intros Ha Hb.
  assert (Hnn : 0 <= Z.lxor a b) by (apply Z.lxor_nonneg; lia).
  split; [exact Hnn|].
  destruct (Z.eq_dec (Z.lxor a b) 0) as [->|Hne]; [lia|].
  destruct (Z.le_gt_cases n 0) as [Hn|Hn].
  - assert (2 ^ n <= 1).
    { destruct (Z.eq_dec n 0) as [->|]; [cbn; lia|]. rewrite Z.pow_neg_r by lia. lia. }
    assert (a = 0) by lia. assert (b = 0) by lia. subst. now cbn in Hne.
  - apply Z.log2_lt_pow2; [lia|].
    pose proof (Z.log2_lxor a b ltac:(lia) ltac:(lia)) as Hl.
    assert (Z.log2 a < n).
    { destruct (Z.eq_dec a 0) as [->|]; [cbn; lia|]. apply Z.log2_lt_pow2; lia. }
    assert (Z.log2 b < n).
    { destruct (Z.eq_dec b 0) as [->|]; [cbn; lia|]. apply Z.log2_lt_pow2; lia. }
    lia.
Qed.

Lemma crc_shift_range (crc : Z) : 0 <= crc < 65536 -> 0 <= crc_shift crc < 65536.
Proof.
  intros H. unfold crc_shift.
  assert (Hs : 0 <= Z.shiftr crc 1 < 65536).
  { rewrite Z.shiftr_div_pow2 by lia. change (2 ^ 1) with 2.
    split; [apply Z.div_pos; lia|]. apply Z.div_lt_upper_bound; lia. }
  destruct (Z.testbit crc 0); [|exact Hs].
  apply (lxor_bound 16); [exact Hs | cbn; lia].
Qed.

Lemma crc_update_range (crc : Z) (b : byte) :
  0 <= crc < 65536 -> 0 <= crc_update crc b < 65536.
Proof.
  intros H. unfold crc_update.
  assert (H0 : 0 <= Z.lxor crc (byte_value b) < 65536).
  { apply (lxor_bound 16); [exact H|].
    unfold byte_value. pose proof (Byte.to_N_bounded b). cbn. lia. }
  cbn [Nat.iter]. do 8 apply crc_shift_range. exact H0.
Qed.

Lemma crc_fold_range (data : list byte) (crc : Z) :
  0 <= crc < 65536 -> 0 <= fold_left crc_update data crc < 65536.
Proof.
  revert crc. induction data as [|b data IH]; intros crc H; [exact H|].
  cbn [fold_left]. apply IH. now apply crc_update_range.
Qed.

Lemma land_ffff (x : Z) : 0 <= x < 65536 -> Z.land x 0xFFFF = x.
Proof.
  intros H. change 0xFFFF with (Z.ones 16). rewrite Z.land_ones by lia.
  apply Z.mod_small. cbn. lia.
Qed.

Lemma compute_crc_range (data : list byte) : 0 <= compute_crc data < 65536.
Proof.
  unfold compute_crc. rewrite land_ffff; apply crc_fold_range; lia.
Qed.

Lemma byte_value_byte_of (x : Z) :
  0 <= x < 256 -> byte_value (Base64.byte_of (Z.to_N x)) = x.
Proof.
  intros H. unfold byte_value, Base64.byte_of.
  rewrite N.mod_small by lia.
  destruct (Byte.of_N (Z.to_N x)) as [b|] eqn:E.
  - apply Byte.to_of_N in E. rewrite E. lia.
  - pose proof (Byte.to_of_N_option_map (Z.to_N x)) as Hm. rewrite E in Hm.
    cbn in Hm. destruct (N.leb_spec (Z.to_N x) 255); [discriminate Hm | lia].
Qed.

(** Folding in the low byte of the register clears its low byte. *)
Lemma lxor_low_byte (s : Z) :
  0 <= s -> Z.lxor s (Z.land s 0xFF) = Z.shiftl (Z.shiftr s 8) 8.
Proof.
  intros Hs. apply Z.bits_inj'. intros i Hi.
  rewrite Z.lxor_spec, Z.land_spec. change 0xFF with (Z.ones 8).
  destruct (Z.lt_ge_cases i 8) as [Hlt|Hge].
  - rewrite Z.ones_spec_low by lia. rewrite Z.shiftl_spec_low by lia.
    destruct (Z.testbit s i); reflexivity.
  - rewrite Z.ones_spec_high by lia. rewrite Z.shiftl_spec by lia.
    rewrite Z.shiftr_spec by lia. replace (i - 8 + 8) with i by lia.
    destruct (Z.testbit s i); reflexivity.
Qed.

(** Checked on all 256 values: eight shifts move a high byte down. *)
Lemma shifts_of_high_byte (h : Z) :
  0 <= h < 256 -> Nat.iter 8 crc_shift (Z.shiftl h 8) = h.
Proof.
  intros H.
  pose proof (Base64Facts.forall_below 256
    (fun x => (Nat.iter 8 crc_shift (Z.shiftl (Z.of_N x) 8) =? Z.of_N x)%Z)
    ltac:(vm_compute; reflexivity) (Z.to_N h) ltac:(lia)) as Hc.
  cbv beta in Hc. rewrite Z2N.id in Hc by lia. now apply Z.eqb_eq in Hc.
Qed.

(** Folding in the low byte and then the high byte of the register clears
    it. *)
Lemma crc_absorbs_itself (crc : Z) :
  0 <= crc < 65536 ->
  fold_left crc_update (crc_trailer crc) crc = 0.
Proof.
  intros H.
  assert (Hh : 0 <= Z.shiftr crc 8 < 256).
  { rewrite Z.shiftr_div_pow2 by lia. change (2 ^ 8) with 256.
    split; [apply Z.div_pos; lia|]. apply Z.div_lt_upper_bound; lia. }
  assert (Hl : 0 <= Z.land crc 0xFF < 256).
  { change 0xFF with (Z.ones 8). rewrite Z.land_ones by lia.
    apply Z.mod_pos_bound. reflexivity. }
  assert (Hhh : Z.land (Z.shiftr crc 8) 0xFF = Z.shiftr crc 8).
  { change 0xFF with (Z.ones 8). rewrite Z.land_ones by lia.
    apply Z.mod_small. exact Hh. }
  unfold crc_trailer. cbn [fold_left]. unfold crc_update.
  rewrite (byte_value_byte_of _ Hl), lxor_low_byte by lia.
  rewrite (shifts_of_high_byte _ Hh), Hhh, (byte_value_byte_of _ Hh).
  rewrite Z.lxor_nilpotent. reflexivity.
Qed.

Lemma crc_residue (data : list byte) :
  compute_crc (data ++ crc_trailer (compute_crc data)) = 0.
Proof.
  unfold compute_crc at 1. rewrite fold_left_app.
  unfold compute_crc.
  rewrite (land_ffff (fold_left crc_update data 65535)) by (apply crc_fold_range; lia).
  rewrite crc_absorbs_itself by (apply crc_fold_range; lia). reflexivity.
Qed.

(** X16.  The checksum a receiver recomputes.  The CRC is a 16-bit value,
    and the CRC of a frame followed by its own CRC, low byte first, is
    zero: every frame the simulator seals passes the check a Modbus
    receiver makes. *)
Theorem crc_of_a_sealed_frame_is_zero (data : list byte) :
  0 <= compute_crc data < 65536
  /\ length (crc_trailer (compute_crc data)) = 2%nat
  /\ compute_crc (data ++ crc_trailer (compute_crc data)) = 0.
Proof.
  split; [apply compute_crc_range|]. split; [reflexivity | apply crc_residue].
Qed.

Lemma slice_without_trailer {A} (l : list A) :
  (2 <= length l)%nat -> slice l 0 (-2) = take (length l - 2) l.
Proof.
  intros H. unfold slice, clamp_index. cbn [Z.ltb Z.compare].
  rewrite Z.min_l by lia. rewrite Z.max_r by lia. cbn [Z.to_nat drop].
  f_equal. lia.
Qed.

(** The write route on a frame that is a string. *)
Lemma inverter_write_on_hex (hex_frame : string) :
  match inverter_write (Some hex_frame) with
  | Frame h =>
      exists data reply,
        Hex.fromhex hex_frame = Some data
        /\ (6 <= length data)%nat
        /\ Hex.fromhex h = Some reply
        /\ length reply = length data
        /\ take (length data - 2) reply = take (length data - 2) data
        /\ compute_crc reply = 0
        /\ inverter_write (Some h) = Frame h
  | SimError e =>
      (e = "invalid hex" /\ Hex.fromhex hex_frame = None)
      \/ (e = "frame too short"
          /\ exists data, Hex.fromhex hex_frame = Some data /\ (length data < 6)%nat)
  | SimValueError => False
  end.
Proof.
  unfold inverter_write at 1.
  destruct (Hex.fromhex hex_frame) as [data|] eqn:Hhex; [|left; split; reflexivity].
  destruct (6 <=? Z.of_nat (length data)) eqn:Hlen.
  - apply Z.leb_le in Hlen.
    rewrite slice_without_trailer by lia.
    set (core := take (length data - 2) data).
    assert (Hcore : length core = (length data - 2)%nat)
      by (subst core; rewrite length_take; lia).
    exists data, (core ++ crc_trailer (compute_crc core))%list.
    split; [reflexivity|]. split; [lia|].
    split; [apply HexFacts.fromhex_hex_upper|].
    assert (Hreply : length (core ++ crc_trailer (compute_crc core)) = length data)
      by (rewrite length_app, Hcore; cbn; lia).
    assert (Htake : take (length data - 2) (core ++ crc_trailer (compute_crc core)) = core)
      by (rewrite <- Hcore; apply take_app_length).
    split; [exact Hreply|].
    split; [exact Htake|].
    split; [apply crc_residue|].
    unfold inverter_write. rewrite HexFacts.fromhex_hex_upper, Hreply.
    rewrite (proj2 (Z.leb_le _ _)) by exact Hlen.
    rewrite slice_without_trailer by (rewrite Hreply; lia).
    rewrite Hreply, Htake. reflexivity.
  - apply Z.leb_gt in Hlen. right. split; [reflexivity|].
    exists data. split; [reflexivity | lia].
Qed.

(** X17.  The write route of the simulator, on any request body.  A body
    that is an object whose frame is hex text of at least six bytes is
    answered with the same frame under a fresh checksum: the reply has the
    length of the request, agrees with it on all bytes but the last two,
    passes the CRC check, and is a fixed point, so that sending the reply
    back returns it unchanged.  No other body gets a frame.  An error
    answer is given for a missing frame (a body that is no JSON or falsy,
    an object without the key, a string or an array that does not contain
    'frame'), for a frame that is not hex text, and for a frame that is
    too short.  The route raises, always [TypeError], exactly on a body
    that is [true], a non-zero number, or a string or an array that
    contains 'frame'. *)
Theorem inverter_write_reseals_the_frame (j : sim_body) :
  match inverter_write_route j with
  | Ret (Frame h) =>
      exists fields hex_frame data reply,
        j = JsonObject fields
        /\ fields !! "frame" = Some (JStr hex_frame)
        /\ Hex.fromhex hex_frame = Some data
        /\ (6 <= length data)%nat
        /\ Hex.fromhex h = Some reply
        /\ length reply = length data
        /\ take (length data - 2) reply = take (length data - 2) data
        /\ compute_crc reply = 0
        /\ inverter_write_route (JsonObject (<["frame" := JStr h]> fields)) = Ret (Frame h)
  | Ret (SimError e) =>
      (e = "no frame provided" /\ frame_of_body j = Ret None)
      \/ (e = "invalid hex"
          /\ (frame_of_body j = Ret (Some JOther)
              \/ exists hex_frame,
                   frame_of_body j = Ret (Some (JStr hex_frame))
                   /\ Hex.fromhex hex_frame = None))
      \/ (e = "frame too short"
          /\ exists hex_frame data,
               frame_of_body j = Ret (Some (JStr hex_frame))
               /\ Hex.fromhex hex_frame = Some data /\ (length data < 6)%nat)
  | Ret SimValueError => False
  | Raise e =>
      e = TypeError
      /\ match j with
         | JsonBool b => b = true
         | JsonNumber is_zero => is_zero = false
         | JsonString s => contains "frame" s = true
         | JsonArray items => JStr "frame" ∈ items
         | _ => False
         end
  end.
Proof.
  unfold inverter_write_route at 1.
  destruct (frame_of_body j) as [[[hex_frame|]|]|e] eqn:Hbody.
  - pose proof (inverter_write_on_hex hex_frame) as H.
    destruct (inverter_write (Some hex_frame)) as [h|e|].
    + destruct H as (data & reply & H1 & H2 & H3 & H4 & H5 & H6 & H7).
      assert (Hj : exists fields, j = JsonObject fields /\ fields !! "frame" = Some (JStr hex_frame)).
      { destruct j as [| |[]|[]|s|items|fields]; cbn in Hbody;
          try discriminate Hbody.
        - destruct (contains "frame" s); discriminate Hbody.
        - destruct (bool_decide _); discriminate Hbody.
        - exists fields. split; [reflexivity | congruence]. }
      destruct Hj as (fields & -> & Hframe).
      exists fields, hex_frame, data, reply. repeat split; try assumption.
      unfold inverter_write_route. cbn [frame_of_body]. rewrite lookup_insert_eq.
      now rewrite H7.
    + destruct H as [[-> Hnone]|(-> & data & Hsome & Hlen)].
      * right. left. split; [reflexivity|]. right. exists hex_frame. split; [reflexivity | exact Hnone].
      * right. right. split; [reflexivity|]. exists hex_frame, data. repeat split; assumption.
    + exact H.
  - right. left. split; [reflexivity|]. left. reflexivity.
  - left. split; reflexivity.
  - destruct j as [| |[]|[]|s|items|fields]; cbn in Hbody; try discriminate Hbody.
    + split; [congruence | reflexivity].
    + split; [congruence | reflexivity].
    + destruct (contains "frame" s) eqn:Hc; [|discriminate Hbody].
      split; [congruence | reflexivity].
    + destruct (bool_decide _) eqn:Hd; [|discriminate Hbody].
      split; [congruence|]. now apply bool_decide_eq_true in Hd.
Qed.

(** The register value the simulator serves at position [i]. *)
Lemma register_bytes_value (SIM_REGISTERS : gmap Z Z) (start_addr i : Z) :
  exists hi lo,
    register_bytes SIM_REGISTERS start_addr i = [hi; lo]
    /\ byte_value hi * 256 + byte_value lo
       = default (default_register (start_addr + i) i) (SIM_REGISTERS !! (start_addr + i))
         mod 65536.
Proof.
  unfold register_bytes.
  set (val := default _ _). eexists _, _. split; [reflexivity|].
  assert (Hlo : 0 <= Z.land val 0xFF < 256 /\ Z.land val 0xFF = val mod 256).
  { change 0xFF with (Z.ones 8). rewrite Z.land_ones by lia. change (2 ^ 8) with 256.
    split; [apply Z.mod_pos_bound; lia | reflexivity]. }
  assert (Hhi : 0 <= Z.land (Z.shiftr val 8) 0xFF < 256
                /\ Z.land (Z.shiftr val 8) 0xFF = (val / 256) mod 256).
  { change 0xFF with (Z.ones 8). rewrite Z.land_ones by lia. change (2 ^ 8) with 256.
    rewrite Z.shiftr_div_pow2 by lia. change (2 ^ 8) with 256.
    split; [apply Z.mod_pos_bound; lia | reflexivity]. }
  rewrite !byte_value_byte_of by tauto.
  destruct Hlo as [_ ->]. destruct Hhi as [_ ->].
  change 65536 with (256 * 256). rewrite Z.rem_mul_r by lia. lia.
Qed.

Lemma flat_map_register_bytes (SIM_REGISTERS : gmap Z Z) (start_addr : Z)
    (l : list Z) (k : nat) (i : Z) :
  l !! k = Some i ->
  exists hi lo,
    register_bytes SIM_REGISTERS start_addr i = [hi; lo]
    /\ flat_map (register_bytes SIM_REGISTERS start_addr) l !! (2 * k)%nat = Some hi
    /\ flat_map (register_bytes SIM_REGISTERS start_addr) l !! (2 * k + 1)%nat = Some lo.
Proof.
  revert k. induction l as [|j l IH]; intros k Hk; [discriminate Hk|].
  destruct k as [|k].
  - injection Hk as ->.
    destruct (register_bytes_value SIM_REGISTERS start_addr i) as (hi & lo & E & _).
    exists hi, lo. cbn [flat_map]. rewrite E. repeat split.
  - destruct (IH k Hk) as (hi & lo & E & H1 & H2). exists hi, lo.
    split; [exact E|]. cbn [flat_map].
    destruct (register_bytes_value SIM_REGISTERS start_addr j) as (hj & lj & Ej & _).
    rewrite Ej. replace (2 * S k)%nat with (S (S (2 * k))) by lia.
    cbn. split; assumption.
Qed.

Lemma length_flat_map_register_bytes (SIM_REGISTERS : gmap Z Z) (start_addr : Z)
    (l : list Z) :
  length (flat_map (register_bytes SIM_REGISTERS start_addr) l) = (2 * length l)%nat.
Proof.
  induction l as [|j l IH]; [reflexivity|].
  cbn [flat_map]. rewrite length_app, IH. cbn. lia.
Qed.

(** X18.  The read route of the simulator, for a function-3 request of at
    least eight bytes.  When the start address is marked as failing the
    reply is the five-byte exception frame with function code 0x83 and
    exception code 2.  Otherwise a request for fewer than 128 registers is
    answered with a frame of [5 + 2n] bytes that echoes the slave address
    and the function code, announces [2n] data bytes, carries every
    register big-endian as its configured or default value modulo 65536,
    and passes the CRC check; a request for 128 registers or more makes
    the byte count overflow its byte, and the [ValueError] leaves the
    handler. *)
Theorem inverter_read_reply_shape (SIM_REGISTERS : gmap Z Z) (SIM_EXCEPTIONS : gset Z)
    (hex_frame : string) (data : list byte) :
  Hex.fromhex hex_frame = Some data ->
  (8 <= length data)%nat ->
  byte_at data 1 = 3 ->
  let slave := nth 0 data x00 in
  let start_addr := Z.lor (Z.shiftl (byte_at data 2) 8) (byte_at data 3) in
  let num_regs := Z.lor (Z.shiftl (byte_at data 4) 8) (byte_at data 5) in
  let reply := inverter_read SIM_REGISTERS SIM_EXCEPTIONS (Some hex_frame) in
  if decide (start_addr ∈ SIM_EXCEPTIONS) then
    exists payload,
      reply = Frame (Hex.hex_upper payload)
      /\ take 3 payload = [slave; x83; x02]
      /\ length payload = 5%nat
      /\ compute_crc payload = 0
  else if num_regs <? 128 then
    exists payload,
      reply = Frame (Hex.hex_upper payload)
      /\ take 3 payload = [slave; x03; Base64.byte_of (Z.to_N (2 * num_regs))]
      /\ Z.of_nat (length payload) = 5 + 2 * num_regs
      /\ compute_crc payload = 0
      /\ (forall i, 0 <= i < num_regs ->
            exists hi lo,
              payload !! Z.to_nat (3 + 2 * i) = Some hi
              /\ payload !! Z.to_nat (4 + 2 * i) = Some lo
              /\ byte_value hi * 256 + byte_value lo
                 = default (default_register (start_addr + i) i)
                     (SIM_REGISTERS !! (start_addr + i)) mod 65536)
  else reply = SimValueError.
Proof.
  intros Hhex Hlen Hfunc. cbv zeta. unfold inverter_read. rewrite Hhex.
  rewrite (proj2 (Z.ltb_ge _ _)) by lia. rewrite Hfunc. cbn [Z.eqb Pos.eqb].
  set (start_addr := Z.lor (Z.shiftl (byte_at data 2) 8) (byte_at data 3)).
  set (num_regs := Z.lor (Z.shiftl (byte_at data 4) 8) (byte_at data 5)).
  assert (Hn : 0 <= num_regs).
  { subst num_regs. apply Z.lor_nonneg. split.
    - apply Z.shiftl_nonneg. apply byte_value_bound.
    - apply byte_value_bound. }
  destruct (decide (start_addr ∈ SIM_EXCEPTIONS)) as [Hex|Hex].
  - rewrite bool_decide_eq_true_2 by exact Hex.
    eexists. split; [reflexivity|]. split; [reflexivity|]. split; [reflexivity|].
    apply crc_residue.
  - rewrite bool_decide_eq_false_2 by exact Hex.
    unfold append_byte.
    destruct (num_regs <? 128) eqn:Hsmall.
    + apply Z.ltb_lt in Hsmall.
      rewrite (proj2 (Z.leb_le 0 (num_regs * 2))) by lia.
      rewrite (proj2 (Z.ltb_lt (num_regs * 2) 256)) by lia. cbn [andb].
      set (regs := flat_map (register_bytes SIM_REGISTERS start_addr) (seqZ 0 num_regs)).
      assert (Hregs : length regs = (2 * Z.to_nat num_regs)%nat)
        by (subst regs; now rewrite length_flat_map_register_bytes, length_seqZ).
      eexists. split; [reflexivity|].
      split; [cbn; now rewrite (Z.mul_comm 2)|].
      split; [rewrite !length_app, Hregs; cbn; lia|].
      split; [apply crc_residue|].
      intros i Hi.
      destruct (flat_map_register_bytes SIM_REGISTERS start_addr (seqZ 0 num_regs)
                  (Z.to_nat i) i) as (hi & lo & E & H1 & H2).
      { rewrite lookup_seqZ_lt by lia. f_equal. lia. }
      destruct (register_bytes_value SIM_REGISTERS start_addr i) as (hi' & lo' & E' & Hval).
      rewrite E in E'. injection E' as <- <-.
      exists hi, lo. fold regs in H1, H2.
      replace (Z.to_nat (3 + 2 * i)) with (3 + 2 * Z.to_nat i)%nat by lia.
      replace (Z.to_nat (4 + 2 * i)) with (3 + (2 * Z.to_nat i + 1))%nat by lia.
      split; [|split; [|exact Hval]].
      * rewrite lookup_app_l by (rewrite !length_app, Hregs; cbn; lia).
        rewrite lookup_app_r by (cbn; lia). cbn [length app].
        replace (3 + 2 * Z.to_nat i - 3)%nat with (2 * Z.to_nat i)%nat by lia.
        exact H1.
      * rewrite lookup_app_l by (rewrite !length_app, Hregs; cbn; lia).
        rewrite lookup_app_r by (cbn; lia). cbn [length app].
        replace (3 + (2 * Z.to_nat i + 1) - 3)%nat with (2 * Z.to_nat i + 1)%nat by lia.
        exact H2.
    + apply Z.ltb_ge in Hsmall.
      rewrite (proj2 (Z.ltb_ge (num_regs * 2) 256)) by lia.
      rewrite andb_false_r. reflexivity.
Qed.

(** ** The upload route, end to end *)

Section UploadFacts.

Variable hmac : list byte -> list byte -> string.

(** The early returns of the authentication prologue. *)
Lemma upload_auth_early dev req now st early st1 :
  upload_auth hmac dev req now st = (inl early, st1) ->
  (exists kind details,
      (kind = "hmac_failed" \/ kind = "replay_attack")
      /\ (exists msg, early = Unauthorized (Some msg))
      /\ st1 = log_security_event dev kind details now st)
  \/ (early = BadRequest "Invalid payload encoding"
      /\ exists n, NONCE_STORE st1 = <[dev := NInt n]> (NONCE_STORE st)).
Proof.
  unfold upload_auth.
  destruct (contains "application/json" _ && SECURITY_ENABLED); [|discriminate].
  destruct (req_json req) as [envelope|]; [|discriminate].
  destruct (j_payload envelope) as [payload_str|]; [|discriminate].
  destruct (j_nonce envelope) as [nonce|]; [|discriminate].
  destruct (j_mac envelope) as [received_mac|]; [|discriminate].
  cbv zeta. destruct (compare_digest _ _) as [[|]|e]; [| |discriminate].
  - destruct (default (NInt 0) (NONCE_STORE st !! dev)) as [last|last seen]; [|discriminate].
    destruct (nonce <=? last).
    + intros [= <- <-]. left. eexists _, _. split; [right; reflexivity|].
      split; [eexists; reflexivity | reflexivity].
    + destruct (Base64.b64decode payload_str); [discriminate|].
      intros [= <- <-]. right. split; [reflexivity|]. exists nonce. reflexivity.
  - intros [= <- <-]. left. eexists _, _. split; [left; reflexivity|].
    split; [eexists; reflexivity | reflexivity].
Qed.

(** X20.  The answers of the upload route.  The route raises nothing and
    has three answers.  An acknowledgement reports a byte count by which
    the device's buffered byte count has grown, and resets its idle clock.
    A refusal with status 401 leaves buffers and sessions as they were and
    appends one security event, for a failed MAC or a replay.  A refusal
    with status 400 also leaves the buffers alone, but the nonce of the
    envelope has been stored for the device by then. *)
Theorem upload_answers (req : request) (now : Q) (st : security) (agg : aggregator) :
  let dev := first_truthy [req_device_id req; req_device_id req] "Unknown-Device" in
  let r := upload hmac req now st agg in
  match r.1.1 with
  | UploadAck n =>
      0 <= n
      /\ buffered_bytes dev r.2 = buffered_bytes dev agg + n
      /\ (exists b, BUFFERS r.2 !! dev = Some b /\ last_seen b = now)
      /\ UPLOADS r.2 = UPLOADS agg
  | Unauthorized _ =>
      r.2 = agg
      /\ NONCE_STORE r.1.2 = NONCE_STORE st
      /\ exists kind details,
           (kind = "hmac_failed" \/ kind = "replay_attack")
           /\ SECURITY_LOGS r.1.2
              = (SECURITY_LOGS st ++ [SecEvent now dev kind details])%list
  | BadRequest e =>
      e = "Invalid payload encoding"
      /\ r.2 = agg
      /\ exists n, NONCE_STORE r.1.2 !! dev = Some (NInt n)
  | _ => False
  end.
Proof.
  cbv zeta. unfold upload.
  set (dev := first_truthy [req_device_id req; req_device_id req] "Unknown-Device").
  destruct (upload_auth hmac dev req now st) as [[early|payload] st1] eqn:Ha.
  - destruct (upload_auth_early _ _ _ _ _ _ Ha)
      as [(kind & details & Hkind & (msg & ->) & ->)|(-> & n & Hn)]; cbn [fst snd].
    + split; [reflexivity|]. split; [reflexivity|].
      exists kind, details. split; [exact Hkind | reflexivity].
    + split; [reflexivity|]. split; [reflexivity|].
      exists n. rewrite Hn. apply lookup_insert_eq.
  - unfold upload_ingest, ingest, buffered_bytes. cbn [fst snd BUFFERS UPLOADS].
    rewrite lookup_insert_eq. cbn [from_option received_bytes last_seen].
    split; [lia|]. split; [|split; [eexists; split; reflexivity | reflexivity]].
    destruct (BUFFERS agg !! dev); reflexivity.
Qed.

(** X21.  An authenticated envelope whose payload is not base64 spends
    its nonce.  With a correct MAC and a nonce above the stored one the
    route answers 400 without buffering anything, and the device's retry
    under the same nonce, now with a decodable payload, is refused as a
    replay. *)
Theorem undecodable_payload_spends_the_nonce
    (c : ascii) (d : string) (nonce ts ts' last : Z) (bad good : string)
    (body body' : list byte) (now now' : Q) (st : security) (agg : aggregator) :
  let dev := String c d in
  default (NInt 0) (NONCE_STORE st !! dev) = NInt last ->
  last < nonce ->
  Base64.b64decode bad = None ->
  let r := upload hmac (secured_upload hmac dev nonce ts bad body) now st agg in
  let r' := upload hmac (secured_upload hmac dev nonce ts' good body') now' r.1.2 r.2 in
  r.1.1 = BadRequest "Invalid payload encoding"
  /\ r.2 = agg
  /\ r'.1.1 = Unauthorized (Some "Replay attack detected")
  /\ r'.2 = agg.
Proof.
  cbv zeta. intros Hs Hlt Hbad.
  assert (H1 : upload_auth hmac (String c d)
                 (secured_upload hmac (String c d) nonce ts bad body) now st
               = (inl (BadRequest "Invalid payload encoding"),
                  log_security_event (String c d) "hmac_verified"
                    ("Upload authenticated, nonce: " ++ str nonce) now
                    (set_store <[String c d := NInt nonce]> st))).
  { unfold upload_auth, secured_upload, envelope_mac.
    cbn -[Base64.b64decode str encode compare_digest String.append].
    rewrite compare_digest_refl. rewrite Hs.
    rewrite (proj2 (Z.leb_gt _ _)) by exact Hlt. now rewrite Hbad. }
  assert (Hr : upload hmac (secured_upload hmac (String c d) nonce ts bad body) now st agg
               = (BadRequest "Invalid payload encoding",
                  log_security_event (String c d) "hmac_verified"
                    ("Upload authenticated, nonce: " ++ str nonce) now
                    (set_store <[String c d := NInt nonce]> st), agg)).
  { unfold upload. cbn [secured_upload req_device_id first_truthy].
    change (Request "/api/upload" (Some (String c d)) None None None None
              (Some "application/json")
              (Some (EnvelopeJson (Some nonce) (Some ts) (Some false) (Some bad)
                       (Some (envelope_mac hmac nonce ts false bad)))) body)
      with (secured_upload hmac (String c d) nonce ts bad body).
    now rewrite H1. }
  rewrite Hr. cbn [fst snd].
  split; [reflexivity|]. split; [reflexivity|].
  unfold upload. cbn [secured_upload req_device_id first_truthy].
  unfold upload_auth, envelope_mac.
  cbn -[Base64.b64decode str encode compare_digest String.append].
  rewrite compare_digest_refl. rewrite lookup_insert_eq.
  cbn [from_option id]. rewrite Z.leb_refl. split; reflexivity.
Qed.

End UploadFacts.

(** ** Log queries *)

Lemma last_entries_spec {A} (logs : list A) (limit : Z) :
  last_entries logs limit `suffix_of` logs
  /\ Z.of_nat (length (last_entries logs limit))
     = (if 0 <? limit then Z.min limit (Z.of_nat (length logs))
        else Z.max 0 (Z.of_nat (length logs) + limit))
  /\ (limit = 0 -> last_entries logs limit = logs).
Proof.
  unfold last_entries, slice, clamp_index.
  set (len := Z.of_nat (length logs)).
  rewrite (proj2 (Z.ltb_ge len 0)) by lia. rewrite Z.min_id.
  assert (Hall : forall a, 0 <= a <= len ->
            take (Z.to_nat (len - a)) (drop (Z.to_nat a) logs) = drop (Z.to_nat a) logs).
  { intros a Ha. apply take_ge. rewrite length_drop. lia. }
  destruct (Z.ltb_spec (- limit) 0) as [Hpos|Hneg].
  - rewrite Hall by lia. rewrite (proj2 (Z.ltb_lt 0 limit)) by lia.
    split; [apply suffix_drop|]. split; [rewrite length_drop; lia | lia].
  - rewrite Hall by lia. rewrite (proj2 (Z.ltb_ge 0 limit)) by lia.
    split; [apply suffix_drop|]. split; [rewrite length_drop; lia|].
    intros ->. change (- 0) with 0. rewrite Z.min_l by lia. reflexivity.
Qed.

(** X19.  The two log queries.  The total counts the entries of the
    device, or all entries when no device is named; the entries returned
    are the last [limit] of them in log order when [limit] is positive;
    with [limit = 0] the slice [logs[-0:]] returns all of them, and a
    negative limit drops that many from the front. *)
Theorem log_queries_return_the_tail (device_id : option string) (limit : Z)
    (st : security) (f : fota) :
  let s := get_security_logs device_id limit st in
  let q := get_fota_logs device_id limit f in
  let wanted {A} (key : A -> string) (logs : list A) :=
    if truthy_str device_id
    then filter (fun log => key log = default "" device_id) logs else logs in
  let count (total : Z) :=
    if 0 <? limit then Z.min limit total else Z.max 0 (total + limit) in
  (s.1 = Z.of_nat (length (wanted ev_device_id (SECURITY_LOGS st)))
   /\ s.2 `suffix_of` wanted ev_device_id (SECURITY_LOGS st)
   /\ Z.of_nat (length s.2) = count s.1
   /\ (limit = 0 -> s.2 = wanted ev_device_id (SECURITY_LOGS st)))
  /\ (q.1 = Z.of_nat (length (wanted log_device (FOTA_LOGS f)))
      /\ q.2 `suffix_of` wanted log_device (FOTA_LOGS f)
      /\ Z.of_nat (length q.2) = count q.1
      /\ (limit = 0 -> q.2 = wanted log_device (FOTA_LOGS f))).
Proof.
  cbv zeta. unfold get_security_logs, get_fota_logs. cbn [fst snd].
  split; (split; [reflexivity|]); apply last_entries_spec.
Qed.

(** ** Decimal round trip *)

Lemma digit_of_pretty_N_char (d : N) :
  (d < 10)%N -> digit_of (pretty_N_char d) = Some (Z.of_N d).
Proof.
  intros H.
  pose proof (Base64Facts.forall_below 10
                (fun d => match digit_of (pretty_N_char d) with
                          | Some v => v =? Z.of_N d
                          | None => false
                          end)
                ltac:(vm_compute; reflexivity) d H) as Hc.
  cbv beta in Hc. destruct (digit_of (pretty_N_char d)) as [v|]; [|discriminate Hc].
  apply Z.eqb_eq in Hc. now subst v.
Qed.

(** The digits [pretty_N_go] puts in front of [s] are read back as the
    number. *)
Lemma grouped_value_pretty_N_go (x : N) :
  exists k : Z,
    0 <= k
    /\ forall s acc b,
         grouped_value (pretty_N_go x s) acc b
         = grouped_value s (acc * 10 ^ k + Z.of_N x) (b || negb (x =? 0)%N).
Proof.
  induction x as [x IH] using (well_founded_induction N.lt_wf_0).
  destruct (N.eq_dec x 0%N) as [->|Hx].
  - exists 0. split; [lia|]. intros s acc b. rewrite pretty_N_go_0.
    rewrite orb_false_r. f_equal. cbn. lia.
  - destruct (IH (x / 10)%N) as (k & Hk & Hgo).
    { apply N.div_lt; lia. }
    exists (k + 1). split; [lia|]. intros s acc b.
    rewrite pretty_N_go_step by lia. rewrite Hgo. cbn [grouped_value].
    rewrite digit_of_pretty_N_char by (apply N.mod_lt; lia).
    rewrite (proj2 (N.eqb_neq x 0)) by exact Hx. rewrite orb_true_r.
    f_equal. rewrite Z.pow_add_r by lia. rewrite N2Z.inj_div, N2Z.inj_mod.
    change (Z.of_N 10) with 10.
    pose proof (Z.div_mod (Z.of_N x) 10). lia.
Qed.

Lemma grouped_value_pretty_N (x : N) :
  grouped_value (pretty x) 0 false = Some (Z.of_N x).
Proof.
  unfold pretty, pretty_N. destruct (decide (x = 0%N)) as [->|Hx]; [reflexivity|].
  destruct (grouped_value_pretty_N_go x) as (k & _ & Hgo). rewrite Hgo.
  rewrite (proj2 (N.eqb_neq x 0)) by exact Hx. cbn. f_equal.
Qed.

(** Strings without white space are not changed by the stripping. *)
Lemma lstrip_no_space (s : string) : no_space s = true -> lstrip s = s.
Proof.
  destruct s as [|c s]; [reflexivity|]. cbn [no_space lstrip].
  now destruct (is_int_space c).
Qed.

Lemma rstrip_no_space (s : string) : no_space s = true -> rstrip s = s.
Proof.
  induction s as [|c s IH]; [reflexivity|]. cbn [no_space rstrip].
  intros [Hc Hs]%andb_true_iff. rewrite (IH Hs).
  destruct s; [|reflexivity]. now destruct (is_int_space c).
Qed.

Lemma space_is_no_digit (c : ascii) :
  is_int_space c = true -> digit_of c = None /\ Ascii.eqb c "_" = false.
Proof.
  unfold is_int_space, digit_of. intros H. split.
  - destruct ((48 <=? Z.of_N (N_of_ascii c)) && (Z.of_N (N_of_ascii c) <=? 57)) eqn:E;
      [|reflexivity].
    exfalso. apply andb_true_iff in E as [E1%Z.leb_le E2%Z.leb_le].
    cbv zeta in H. rewrite !orb_true_iff, andb_true_iff in H.
    rewrite !N.leb_le, !N.eqb_eq in H. lia.
  - destruct (Ascii.eqb_spec c "_") as [->|]; [discriminate H | reflexivity].
Qed.

Lemma grouped_value_no_space (s : string) :
  forall acc b v, grouped_value s acc b = Some v -> no_space s = true.
Proof.
  induction s as [|c s IH]; [reflexivity|]. intros acc b v H.
  cbn [grouped_value no_space] in *.
  destruct (is_int_space c) eqn:Hc.
  - destruct (space_is_no_digit c Hc) as [Hd Hu]. rewrite Hd, Hu in H. discriminate H.
  - cbn [negb andb]. destruct (digit_of c); [exact (IH _ _ _ H)|].
    destruct (Ascii.eqb c "_" && b); [exact (IH _ _ _ H) | discriminate H].
Qed.

(** A string that reads as digits is read by [int] as that number. *)
Lemma int_of_str_digits (s : string) (v : Z) :
  grouped_value s 0 false = Some v -> int_of_str s = Some v.
Proof.
  intros Hv. pose proof (grouped_value_no_space _ _ _ _ Hv) as Hclean.
  unfold int_of_str. rewrite (lstrip_no_space _ Hclean), (rstrip_no_space _ Hclean).
  destruct s as [|c s]; [exact Hv|].
  destruct (Ascii.eqb_spec c "-") as [->|Hm]; [discriminate Hv|].
  destruct (Ascii.eqb_spec c "+") as [->|Hp]; [discriminate Hv|].
  destruct c as [[] [] [] [] [] [] [] []]; try exact Hv; congruence.
Qed.

(** [int(str(n)) == n]. *)
Lemma int_of_str_str (n : Z) : int_of_str (str n) = Some n.
Proof.
  unfold str, pretty, pretty_Z. destruct n as [|p|p].
  - reflexivity.
  - apply int_of_str_digits. exact (grouped_value_pretty_N (N.pos p)).
  - pose proof (grouped_value_pretty_N (N.pos p)) as H.
    pose proof (grouped_value_no_space _ _ _ _ H) as Hclean.
    change (int_of_str (String "-" (pretty (N.pos p))) = Some (Z.neg p)).
    unfold int_of_str.
    rewrite lstrip_no_space, rstrip_no_space by (cbn [no_space]; exact Hclean).
    rewrite H. reflexivity.
Qed.

Lemma str_nonempty (n : Z) : str n <> "".
Proof. intros E. pose proof (int_of_str_str n) as H. rewrite E in H. discriminate H. Qed.

(** ** The demonstration client against the header check *)

Section ClientFacts.

Variable hmac : list byte -> list byte -> string.

Lemma demo_headers endpoint nonce ts :
  hmac PSK (encode (endpoint ++ str nonce ++ str ts)) <> "" ->
  let req := make_authenticated_request hmac endpoint nonce ts in
  headers_of req (str nonce) (str ts) (header_mac hmac req (str nonce) (str ts)) nonce.
Proof.
  intros Hmac. cbv zeta. unfold headers_of, header_mac, make_authenticated_request,
    create_hmac_signature. cbn [req_nonce req_timestamp req_mac req_path].
  repeat split; try reflexivity.
  - apply int_of_str_str.
  - apply str_nonempty.
  - exact Hmac.
Qed.

(** X22.  The demonstration client against the server.  A request that
    [make_authenticated_request] signs for an endpoint, with any integer
    nonce and time stamp, passes the header check of a server that holds
    no session for the device: the server reads the nonce back from its
    decimal text, recomputes the same MAC and opens the session
    (nonce, now).  The same request sent again within the 75-second
    session lifetime is refused as a replay, and the session stays as it
    was. *)
Theorem demo_request_is_accepted_once
    (endpoint : string) (nonce ts : Z) (now now' : Q) (st : security) :
  hmac PSK (encode (endpoint ++ str nonce ++ str ts)) <> "" ->
  NONCE_STORE st !! DEVICE_ID = None ->
  (now' - now <= NONCE_EXPIRY_SECONDS)%Q ->
  let req := make_authenticated_request hmac endpoint nonce ts in
  let r1 := verify_request_security hmac DEVICE_ID req now st in
  let r2 := verify_request_security hmac DEVICE_ID req now' r1.2 in
  r1.1 = Ret (true, None)
  /\ NONCE_STORE r1.2 !! DEVICE_ID = Some (NDict nonce now)
  /\ (exists msg, r2.1 = Ret (false, Some msg))
  /\ NONCE_STORE r2.2 = NONCE_STORE r1.2.
Proof.
  intros Hmac Hnone Hlive. cbv zeta.
  pose proof (demo_headers endpoint nonce ts Hmac) as Hh. cbv zeta in Hh.
  destruct (verify_first_contact hmac DEVICE_ID _ now st _ _ _ Hnone Hh) as (st1 & H1 & Hst1).
  rewrite H1. cbn [fst snd].
  assert (Hs1 : NONCE_STORE st1 !! DEVICE_ID = Some (NDict nonce now))
    by (rewrite Hst1; apply lookup_insert_eq).
  assert (Hh' : headers_of (make_authenticated_request hmac endpoint nonce ts)
                  (str nonce) (str ts)
                  (header_mac hmac (make_authenticated_request hmac endpoint nonce ts)
                     (str nonce) (str ts)) nonce) by exact Hh.
  destruct (verify_live_replay hmac DEVICE_ID _ now' st1 nonce now _ _ _ nonce
              Hs1 Hlive Hh' ltac:(lia)) as (msg & H2).
  rewrite H2. cbn [fst snd]. split; [reflexivity|]. split; [exact Hs1|].
  split; [eexists; reflexivity | reflexivity].
Qed.

End ClientFacts.

(** ** Nonce recovery of the device *)

(** X23.  The recovery nonce of a device that lost its nonce state, for
    any held nonce and uptime.  It is at least ten above the nonce the
    device held.  Against a peer that has not yet received anything, the
    enhanced validation accepts it exactly when the held nonce is at most
    990, for a held nonce above 100; otherwise, with more than a minute of
    uptime, exactly when the uptime is below 28 500 000 ms (after that the
    estimate from the uptime pushes the recovery nonce over the
    first-synchronisation limit of 1000); and otherwise exactly when the
    held nonce is above -50.  Against a peer that last received a non-zero
    nonce it is accepted exactly when it is above that nonce and within
    the window of 100: when the peer's nonce is not above the held one,
    only the window matters, and when the peer remembers a nonce that the
    recovery nonce does not exceed, it is refused; so a device that fell
    back to nonce 1 is refused, with its recovery nonce 51, by a peer that
    remembers 500. *)
Theorem recovery_nonce_is_ahead_and_sometimes_valid (current_nonce uptime_ms : Z) :
  let recovery := simulate_recovery_nonce current_nonce uptime_ms in
  current_nonce + 10 <= recovery
  /\ (is_nonce_valid_enhanced recovery 0 100 1000 = true
      <-> if 100 <? current_nonce then current_nonce <= 990
          else if 60000 <? uptime_ms then uptime_ms < 28500000
          else -50 < current_nonce)
  /\ (forall last_received,
        last_received <> 0 ->
        (is_nonce_valid_enhanced recovery last_received 100 1000 = true
         <-> last_received < recovery <= last_received + 100)
        /\ (last_received <= current_nonce ->
            (is_nonce_valid_enhanced recovery last_received 100 1000 = true
             <-> recovery <= last_received + 100))
        /\ (recovery <= last_received ->
            is_nonce_valid_enhanced recovery last_received 100 1000 = false))
  /\ simulate_recovery_nonce 1 0 = 51
  /\ is_nonce_valid_enhanced (simulate_recovery_nonce 1 0) 500 100 1000 = false.
Proof.
  cbv zeta. unfold simulate_recovery_nonce, is_nonce_valid_enhanced.
  pose proof (Z.div_mod uptime_ms 30000 ltac:(lia)) as Hdm.
  pose proof (Z.mod_pos_bound uptime_ms 30000 ltac:(lia)) as Hmod.
  set (q := uptime_ms / 30000) in *. set (m := uptime_ms mod 30000) in *.
  split; [|split; [|split; [|split; reflexivity]]].
  - destruct (100 <? current_nonce) eqn:E; [lia|].
    destruct (60000 <? uptime_ms); lia.
  - cbn [Z.eqb].
    destruct (100 <? current_nonce) eqn:E.
    + apply Z.ltb_lt in E. rewrite andb_true_iff, Z.ltb_lt, Z.leb_le. lia.
    + apply Z.ltb_ge in E. rewrite andb_true_iff, Z.ltb_lt, Z.leb_le.
      destruct (60000 <? uptime_ms) eqn:Eu;
        [apply Z.ltb_lt in Eu | apply Z.ltb_ge in Eu]; lia.
  - intros last Hne.
    rewrite (proj2 (Z.eqb_neq _ _)) by exact Hne.
    split; [|split].
    + rewrite andb_true_iff, Z.ltb_lt, Z.leb_le. reflexivity.
    + intros Hle. rewrite andb_true_iff, Z.ltb_lt, Z.leb_le.
      destruct (100 <? current_nonce) eqn:E; [lia|].
      destruct (60000 <? uptime_ms); lia.
    + intros Hle. apply andb_false_iff. left. apply Z.ltb_ge. exact Hle.
Qed.

(** ** Server status *)

Lemma sessions_all_dictionaries (store : gmap string nonce_entry) :
  map_Forall (fun _ e => is_session e = true) store
  <-> ~ exists d k, store !! d = Some (NInt k).
Proof.
  split.
  - intros Hall (d & k & Hd). specialize (Hall d _ Hd). discriminate Hall.
  - intros Hno d e Hd. destruct e as [k|n t]; [|reflexivity].
    exfalso. apply Hno. now exists d, k.
Qed.

Section StatusFacts.

Variable hmac : list byte -> list byte -> string.

(** X24.  The status route reads every session as a dictionary.  It
    raises [TypeError] exactly when some device's entry is a bare nonce;
    otherwise it reports every stored nonce and counts the devices.  An
    accepted secured upload leaves such a bare nonce, so from then on the
    status route fails. *)
Theorem status_route_fails_after_a_secured_upload (st : security) :
  (get_server_status st = Raise TypeError
   <-> exists d k, NONCE_STORE st !! d = Some (NInt k))
  /\ (forall s, get_server_status st = Ret s ->
        total_devices_active s = Z.of_nat (size (NONCE_STORE st))
        /\ server_nonce_counter s = SERVER_NONCE_COUNTER st
        /\ forall d n t, NONCE_STORE st !! d = Some (NDict n t) ->
                         device_nonces s !! d = Some n)
  /\ (forall c d nonce ts payload body now agg last,
        default (NInt 0) (NONCE_STORE st !! String c d) = NInt last ->
        last < nonce ->
        get_server_status
          (upload hmac (secured_upload hmac (String c d) nonce ts payload body)
             now st agg).1.2
        = Raise TypeError).
Proof.
  assert (Hraise : forall st0,
             get_server_status st0 = Raise TypeError
             <-> exists d k, NONCE_STORE st0 !! d = Some (NInt k)).
  { intros st0. unfold get_server_status.
    destruct (bool_decide _) eqn:E.
    - apply bool_decide_eq_true_1 in E. apply sessions_all_dictionaries in E.
      split; [discriminate | intros H; contradiction].
    - apply bool_decide_eq_false_1 in E. split; [intros _ | reflexivity].
      destruct (proj1 (map_not_Forall (fun (_ : string) e => is_session e = true)
                         (H7 := fun _ e => decide (is_session e = true))
                         (NONCE_STORE st0)) E) as (d & e & Hd & He).
      destruct e as [k|n t]; [|now cbn in He].
      now exists d, k. }
  split; [apply Hraise|]. split.
  - intros s. unfold get_server_status. destruct (bool_decide _); [|discriminate].
    intros [= <-]. cbn. split; [reflexivity|]. split; [reflexivity|].
    intros d n t Hd. rewrite lookup_omap, Hd. reflexivity.
  - intros c d nonce ts payload body now agg last Hs Hlt. apply Hraise.
    exists (String c d), nonce.
    destruct (upload_auth_bare_session hmac (String c d) nonce ts payload body now st last Hs)
      as [_ Hacc].
    destruct (Hacc Hlt) as (r & st' & Hup & Hst).
    unfold upload. cbn [secured_upload req_device_id first_truthy].
    change (Request "/api/upload" (Some (String c d)) None None None None
              (Some "application/json")
              (Some (EnvelopeJson (Some nonce) (Some ts) (Some false) (Some payload)
                       (Some (envelope_mac hmac nonce ts false payload)))) body)
      with (secured_upload hmac (String c d) nonce ts payload body).
    rewrite Hup. destruct r as [early|bytes]; unfold upload_ingest; cbn [fst snd];
      rewrite Hst; apply lookup_insert_eq.
Qed.

End StatusFacts.

(** ** Command forwarding *)

Section CommandFacts.

Variable hmac : list byte -> list byte -> string.
Variable json_dumps_command : command_data -> string.

Lemma receive_command_result_accepted header result now st cs st' :
  match res_nonce result with
  | Some n => if n =? 0 then (Ret true, st)
              else check_nonce (first_truthy [header] "EcoWatt001") n now st
  | None => (Ret true, st)
  end = (Ret true, st') ->
  let r := receive_command_result header result now st cs in
  r.1.1 = ResultReceived
  /\ r.1.2 = st'
  /\ PENDING_COMMANDS r.2
     = match PENDING_COMMANDS cs !! first_truthy [header] "EcoWatt001" with
       | Some pending =>
           if match res_nonce result with
              | Some n => cmd_nonce pending =? n
              | None => false
              end
           then delete (first_truthy [header] "EcoWatt001") (PENDING_COMMANDS cs)
           else PENDING_COMMANDS cs
       | None => PENDING_COMMANDS cs
       end.
Proof.
  intros Hc. cbv zeta. unfold receive_command_result. rewrite Hc.
  set (dev := first_truthy [header] "EcoWatt001").
  destruct (String.eqb (default "N/A" (res_modbus_frame result)) "N/A");
    cbn [log_command_event PENDING_COMMANDS];
    (destruct (PENDING_COMMANDS cs !! dev) as [pending|]; [|repeat split]);
    (destruct (match res_nonce result with Some n => cmd_nonce pending =? n | None => false end);
     repeat split).
Qed.


(** X26.  The replay check of command results and what it does to the
    device's session.  A result without nonce, or with nonce 0, is taken
    without any check.  Otherwise the nonce is compared with the device's
    stored entry: against a dictionary session, as the header check
    leaves it, the comparison raises [TypeError] and nothing is recorded;
    against a bare nonce that is not smaller the result is refused with
    two security events and nothing else changes; and an accepted nonce
    replaces the device's entry by the bare number, after which every
    secured upload of the device whose nonce is not above it is refused
    as a replay. *)
Theorem command_result_replay_check
    (c : ascii) (d : string) (result : command_result) (now : Q)
    (st : security) (cs : commands) :
  let dev := String c d in
  let r := receive_command_result (Some dev) result now st cs in
  match res_nonce result with
  | None => r.1.1 = ResultReceived /\ r.1.2 = st
  | Some n =>
      if n =? 0 then r.1.1 = ResultReceived /\ r.1.2 = st
      else
        match default (NInt 0) (NONCE_STORE st !! dev) with
        | NDict _ _ => r = (CommandUnhandled TypeError, st, cs)
        | NInt last =>
            if n <=? last then
              r.1.1 = ResultRefused
              /\ r.2 = cs
              /\ NONCE_STORE r.1.2 = NONCE_STORE st
              /\ ev_type <$> drop (length (SECURITY_LOGS st)) (SECURITY_LOGS r.1.2)
                 = ["replay_attack"; "replay_attack_command_result"]
            else
              r.1.1 = ResultReceived
              /\ NONCE_STORE r.1.2 = <[dev := NInt n]> (NONCE_STORE st)
              /\ forall m ts payload body now' agg,
                   m <= n ->
                   (upload hmac (secured_upload hmac dev m ts payload body)
                      now' r.1.2 agg).1.1
                   = Unauthorized (Some "Replay attack detected")
        end
  end.
Proof.
  cbv zeta.
  assert (Hskip : forall st0,
             (res_nonce result = None \/ res_nonce result = Some 0) ->
             (receive_command_result (Some (String c d)) result now st0 cs).1.1
             = ResultReceived
             /\ (receive_command_result (Some (String c d)) result now st0 cs).1.2 = st0).
  { intros st0 H.
    pose proof (receive_command_result_accepted (Some (String c d)) result now st0 cs st0)
      as Hacc.
    destruct Hacc as (H1 & H2 & _); [|split; assumption].
    destruct H as [-> | ->]; reflexivity. }
  destruct (res_nonce result) as [n|] eqn:Hn; [|apply Hskip; now left].
  destruct (n =? 0) eqn:Hz; [apply Z.eqb_eq in Hz; subst n; apply Hskip; now right|].
  unfold check_nonce in *.
  destruct (default (NInt 0) (NONCE_STORE st !! String c d)) as [last|last seen] eqn:Hs.
  - destruct (n <=? last) eqn:Hle.
    + unfold receive_command_result. rewrite Hn, Hz. cbn [first_truthy].
      unfold check_nonce. rewrite Hs, Hle. cbn [fst snd log_security_event NONCE_STORE
        SECURITY_LOGS]. split; [reflexivity|]. split; [reflexivity|].
      split; [reflexivity|]. rewrite <- app_assoc, drop_app_length. reflexivity.
    + pose proof (receive_command_result_accepted (Some (String c d)) result now st cs
                    (set_store <[String c d := NInt n]> st)) as Hacc.
      rewrite Hn, Hz in Hacc. cbn [first_truthy] in Hacc. unfold check_nonce in Hacc.
      rewrite Hs, Hle in Hacc. destruct (Hacc eq_refl) as (H1 & H2 & _).
      cbv zeta in H1, H2. split; [exact H1|]. rewrite H2. split; [reflexivity|].
      intros m ts payload body now' agg Hm.
      destruct (upload_auth_bare_session hmac (String c d) m ts payload body now'
                  (set_store <[String c d := NInt n]> st) n) as [Hrej _].
      { cbn. now rewrite lookup_insert_eq. }
      destruct (Hrej Hm) as (st' & Hup & _).
      unfold upload. cbn [secured_upload req_device_id first_truthy].
      change (Request "/api/upload" (Some (String c d)) None None None None
                (Some "application/json")
                (Some (EnvelopeJson (Some m) (Some ts) (Some false) (Some payload)
                         (Some (envelope_mac hmac m ts false payload)))) body)
        with (secured_upload hmac (String c d) m ts payload body).
      now rewrite Hup.
  - unfold receive_command_result. rewrite Hn, Hz. cbn [first_truthy].
    unfold check_nonce. now rewrite Hs.
Qed.

End CommandFacts.

(** ** Instances on concrete inputs *)

Lemma flush_pushes_what_it_records_witness :
  let agg := ingest "EcoWatt001" (two_samples 1) 18 100 startup in
  exists rec p,
    (_flush_device_unlocked "EcoWatt001" 115 agg).1 = Some rec
    /\ StronglySorted Z.lt (as_reg_addr <$> ur_samples rec)
    /\ PUSHED (_flush_device_unlocked "EcoWatt001" 115 agg).2 = (PUSHED agg ++ [p])%list
    /\ pp_device_id p = "EcoWatt001"
    /\ pp_samples p = as_value <$> ur_samples rec
    /\ num_samples (pp_benchmark p) = Z.of_nat (length (ur_samples rec))
    /\ original_size (pp_benchmark p) = 12 * num_samples (pp_benchmark p)
    /\ compressed_size (pp_benchmark p) = ur_bytes rec.
Proof.
  refine (flush_pushes_what_it_records "EcoWatt001" 115
            (ingest "EcoWatt001" (two_samples 1) 18 100 startup)
            (Buffer {[5 := [of_int 12; of_int 14]]} 18 100) _ _); reflexivity.
Defined.

Lemma accepted_firmware_is_served_whole_witness :
  let image := [x01; x02; x03; x04; x05] in
  let req := FirmwareUpload (Some "1.0.5") (Some 5) (Some (toy_sha256 image)) (Some 2)
               (Some (decode (Base64.b64encode image))) in
  let f' := (upload_firmware toy_sha256 toy_hmac req 1000 (Fota None ∅ ∅ [])).2 in
  exists image manifest,
    fw_data req ≫= Base64.b64decode = Some image
    /\ FIRMWARE_MANIFEST f' = Some manifest
    /\ hash manifest = toy_sha256 image
    /\ chunk_size manifest = default 1024 (fw_chunk_size req)
    /\ (forall i, is_Some (get_fota_chunk i f') <-> 0 <= i < 3)
    /\ download f' (seqZ 0 3) = Some image
    /\ (forall i c,
          get_fota_chunk i f' = Some c ->
          exists bytes,
            Base64.b64decode (data c) = Some bytes
            /\ chunk_number c = i
            /\ chunk_len c = Z.of_nat (length bytes)
            /\ chunk_len c <= chunk_size manifest
            /\ chunk_mac c = toy_hmac PRE_SHARED_KEY bytes).
Proof.
  refine (accepted_firmware_is_served_whole toy_sha256 toy_hmac
            (FirmwareUpload (Some "1.0.5") (Some 5)
               (Some (toy_sha256 [x01; x02; x03; x04; x05])) (Some 2)
               (Some (decode (Base64.b64encode [x01; x02; x03; x04; x05]))))
            1000 (Fota None ∅ ∅ [])
            (Some (Manifest "1.0.5" 5 (toy_sha256 [x01; x02; x03; x04; x05]) 2 1000))
            3 _ _ _).
  - vm_compute. reflexivity.
  - reflexivity.
Defined.

Lemma zero_chunk_size_leaves_a_manifest_without_chunks_witness :
  let image := [x01; x02; x03; x04; x05] in
  let req := FirmwareUpload (Some "1.0.5") (Some 5) (Some (toy_sha256 image)) (Some 0)
               (Some (decode (Base64.b64encode image))) in
  let old := Fota (Some (Manifest "1.0.4" 1 "sha:1" 1 900))
               {[0 := Chunk 0 "AA==" "mac:" 1]} ∅ [] in
  let r := upload_firmware toy_sha256 toy_hmac req 1000 old in
  r.1 = Unhandled ZeroDivisionError
  /\ status_code r.1 = 500
  /\ FIRMWARE_MANIFEST r.2 = Some (Manifest "1.0.5" 5 (toy_sha256 image) 0 1000)
  /\ (forall i, get_fota_chunk i r.2 = None)
  /\ FOTA_STATUS r.2 = FOTA_STATUS old
  /\ FOTA_LOGS r.2
     = (FOTA_LOGS old
        ++ [FotaEvent 1000 "cloud" "firmware_decoded"
              (Text ("Size: " ++ str (Z.of_nat (length image)) ++ " bytes"));
            FotaEvent 1000 "cloud" "firmware_hash_verified"
              (Text ("Hash: " ++ toy_sha256 image))])%list.
Proof.
  refine (zero_chunk_size_leaves_a_manifest_without_chunks toy_sha256 toy_hmac
            (FirmwareUpload (Some "1.0.5") (Some 5)
               (Some (toy_sha256 [x01; x02; x03; x04; x05])) (Some 0)
               (Some (decode (Base64.b64encode [x01; x02; x03; x04; x05]))))
            1000
            (Fota (Some (Manifest "1.0.4" 1 "sha:1" 1 900))
               {[0 := Chunk 0 "AA==" "mac:" 1]} ∅ [])
            "1.0.5" 5 (toy_sha256 [x01; x02; x03; x04; x05])
            (decode (Base64.b64encode [x01; x02; x03; x04; x05]))
            [x01; x02; x03; x04; x05]
            eq_refl _ eq_refl _ eq_refl _ eq_refl _ _ eq_refl eq_refl);
    first [discriminate | vm_compute; reflexivity].
Defined.

Lemma inverter_read_reply_shape_witness :
  let data := [x01; x03; x00; x00; x00; x02; xc4; x0b] in
  let slave := nth 0 data x00 in
  let start_addr := Z.lor (Z.shiftl (byte_at data 2) 8) (byte_at data 3) in
  let num_regs := Z.lor (Z.shiftl (byte_at data 4) 8) (byte_at data 5) in
  let reply := inverter_read ∅ ∅ (Some "010300000002C40B") in
  if decide (start_addr ∈ (∅ : gset Z)) then
    exists payload,
      reply = Frame (Hex.hex_upper payload)
      /\ take 3 payload = [slave; x83; x02]
      /\ length payload = 5%nat
      /\ compute_crc payload = 0
  else if num_regs <? 128 then
    exists payload,
      reply = Frame (Hex.hex_upper payload)
      /\ take 3 payload = [slave; x03; Base64.byte_of (Z.to_N (2 * num_regs))]
      /\ Z.of_nat (length payload) = 5 + 2 * num_regs
      /\ compute_crc payload = 0
      /\ (forall i, 0 <= i < num_regs ->
            exists hi lo,
              payload !! Z.to_nat (3 + 2 * i) = Some hi
              /\ payload !! Z.to_nat (4 + 2 * i) = Some lo
              /\ byte_value hi * 256 + byte_value lo
                 = default (default_register (start_addr + i) i)
                     ((∅ : gmap Z Z) !! (start_addr + i)) mod 65536)
  else reply = SimValueError.
Proof.
  refine (inverter_read_reply_shape ∅ ∅ "010300000002C40B"
            [x01; x03; x00; x00; x00; x02; xc4; x0b] _ _ _).
  - reflexivity.
  - cbn. lia.
  - reflexivity.
Defined.

Example inverter_read_two_registers :
  inverter_read ∅ ∅ (Some "010300000002C40B") = Frame "01030408FC0019F9A9".
Proof. vm_compute. reflexivity. Qed.

Lemma undecodable_payload_spends_the_nonce_witness :
  let st := Security ∅ 300 [] in
  let r := upload toy_hmac (secured_upload toy_hmac "D" 7 1000 "A" []) 1000 st startup in
  let r' := upload toy_hmac (secured_upload toy_hmac "D" 7 1001 "AAAA" []) 1001
              r.1.2 r.2 in
  r.1.1 = BadRequest "Invalid payload encoding"
  /\ r.2 = startup
  /\ r'.1.1 = Unauthorized (Some "Replay attack detected")
  /\ r'.2 = startup.
Proof.
  refine (undecodable_payload_spends_the_nonce toy_hmac "D" "" 7 1000 1001 0 "A" "AAAA"
            [] [] 1000 1001 (Security ∅ 300 []) startup _ _ _).
  - reflexivity.
  - lia.
  - reflexivity.
Defined.

Lemma demo_request_is_accepted_once_witness :
  let st := Security ∅ 300 [] in
  let req := make_authenticated_request toy_hmac "/api/inverter/config" 150 1000 in
  let r1 := verify_request_security toy_hmac DEVICE_ID req 1000 st in
  let r2 := verify_request_security toy_hmac DEVICE_ID req 1010 r1.2 in
  r1.1 = Ret (true, None)
  /\ NONCE_STORE r1.2 !! DEVICE_ID = Some (NDict 150 1000)
  /\ (exists msg, r2.1 = Ret (false, Some msg))
  /\ NONCE_STORE r2.2 = NONCE_STORE r1.2.
Proof.
  refine (demo_request_is_accepted_once toy_hmac "/api/inverter/config" 150 1000
            1000 1010 (Security ∅ 300 []) _ _ _).
  - discriminate.
  - reflexivity.
  - unfold Qle. cbn. lia.
Defined.


Lemma rejected_upload_changes_nothing_witness :
  let f := Fota (Some (Manifest "1.0.4" 1 "sha:1" 1 900))
             {[0 := Chunk 0 "AA==" "mac:" 1]} ∅ [] in
  let r := upload_firmware toy_sha256 toy_hmac
             (FirmwareUpload (Some "1.0.5") None None None None) 1000 f in
  FIRMWARE_MANIFEST r.2 = FIRMWARE_MANIFEST f /\ FIRMWARE_CHUNKS r.2 = FIRMWARE_CHUNKS f.
Proof.
  refine (rejected_upload_changes_nothing toy_sha256 toy_hmac
            (FirmwareUpload (Some "1.0.5") None None None None) 1000
            (Fota (Some (Manifest "1.0.4" 1 "sha:1" 1 900))
               {[0 := Chunk 0 "AA==" "mac:" 1]} ∅ []) _).
  reflexivity.
Defined.

Lemma rollback_flag_persists_witness :
  let req := RollbackRequest (Some "EcoWatt001") (Some "bad image") in
  let ops := [ReportStatus "EcoWatt002" (FotaReport (Some 3) None None None None) 1010;
              CheckRollback (Some "EcoWatt002");
              RequestRollback (RollbackRequest None None) 1020] in
  (check_rollback_status (Some "EcoWatt001")
     (fold_left fota_step ops
        ((trigger_fota_rollback req 1000 (Fota None ∅ ∅ [])).2, Security ∅ 300 [])).1).1
  = RollbackStatus true (Some (PStr "bad image")).
Proof.
  refine (rollback_flag_persists
            (RollbackRequest (Some "EcoWatt001") (Some "bad image")) 1000
            (Fota None ∅ ∅ []) (Security ∅ 300 [])
            [ReportStatus "EcoWatt002" (FotaReport (Some 3) None None None None) 1010;
             CheckRollback (Some "EcoWatt002");
             RequestRollback (RollbackRequest None None) 1020] _).
  repeat constructor; cbn; discriminate.
Defined.

Lemma verify_returns_on_dictionary_sessions_witness :
  exists b msg st',
    verify_request_security toy_hmac "D" stale_poll 1100
      (Security {["D" := NDict 10 1000]} 300 [])
    = (Ret (b, msg), st')
    /\ (b = false -> is_Some msg).
Proof.
  refine (verify_returns_on_dictionary_sessions toy_hmac "D" stale_poll 1100
            (Security {["D" := NDict 10 1000]} 300 []) _ _).
  - intros k H. discriminate H.
  - reflexivity.
Defined.
